(** * The repair orchestration engine of code-autofix-engine, embedded in Rocq

    The development follows the Python sources module by module:
    - [PyStr], [Re], [Ast]: the parts of the Python runtime the engine relies
      on ([str] methods, the backtracking [re] matcher, the shape of [ast]
      trees);
    - [ErrorParser], [ErrorClassifier], [Validation]: errors/ and utils/;
    - [SsrFixer], [AstFixer], [MergeStrategy], [LlmFixer]: fixer/;
    - [IterationController]: iterations/.

    Python [str] values are modelled as [string] (code points below 256).
    The collaborators the engine does not implement itself (the Python
    parser behind [ast.parse], the sandbox, the language model, the logical
    detector, [difflib.ndiff]) are parameters of the model. *)

From Stdlib Require Import String Ascii List Bool Arith ZArith Lia DecimalString.
Import ListNotations.
Open Scope list_scope.
Open Scope string_scope.
Open Scope nat_scope.

Set Implicit Arguments.
Set Warnings "-register-all".

(** ** Python exceptions: a call either returns or raises *)

Inductive result (A : Type) : Type :=
| Ok (a : A)
| Raise (msg : string).
Arguments Ok {A} a.
Arguments Raise {A} msg.

Definition rbind {A B} (r : result A) (f : A -> result B) : result B :=
  match r with
  | Ok a => f a
  | Raise m => Raise m
  end.

(** ** [str] methods *)

Module PyStr.

Definition ord (c : ascii) : nat := nat_of_ascii c.

Definition in_range (lo hi : nat) (c : ascii) : bool :=
  (lo <=? ord c) && (ord c <=? hi).

(** [str.isspace] on one character; also the class behind [strip()] and the
    regular-expression escape [\s]. *)
Definition isspace (c : ascii) : bool :=
  in_range 9 13 c || in_range 28 32 c || (ord c =? 133) || (ord c =? 160).

Definition isdigit_ascii (c : ascii) : bool := in_range 48 57 c.
Definition isupper_ascii (c : ascii) : bool := in_range 65 90 c.
Definition islower_ascii (c : ascii) : bool := in_range 97 122 c.
Definition isalpha_ascii (c : ascii) : bool := isupper_ascii c || islower_ascii c.

(** [str.isalnum() or c == '_']: the class behind [\w]. *)
Definition isword (c : ascii) : bool :=
  isalpha_ascii c || isdigit_ascii c || (ord c =? 95)
  || (ord c =? 170) || (ord c =? 178) || (ord c =? 179) || (ord c =? 181)
  || (ord c =? 185) || (ord c =? 186) || in_range 188 190 c
  || in_range 192 214 c || in_range 216 246 c || in_range 248 255 c.

Definition lower_char (c : ascii) : ascii :=
  if isupper_ascii c || in_range 192 214 c || in_range 216 222 c
  then ascii_of_nat (ord c + 32) else c.

Fixpoint lower (s : string) : string :=
  match s with
  | EmptyString => EmptyString
  | String c s' => String (lower_char c) (lower s')
  end.

Definition nl : ascii := ascii_of_nat 10.
Definition cr : ascii := ascii_of_nat 13.
Definition tab : ascii := ascii_of_nat 9.
Definition dquote : ascii := ascii_of_nat 34.
Definition squote : ascii := ascii_of_nat 39.
Definition NL : string := String nl EmptyString.
Definition CRLF : string := String cr NL.

Fixpoint lstrip_by (p : ascii -> bool) (s : string) : string :=
  match s with
  | EmptyString => EmptyString
  | String c s' => if p c then lstrip_by p s' else s
  end.

Fixpoint rstrip_by (p : ascii -> bool) (s : string) : string :=
  match s with
  | EmptyString => EmptyString
  | String c s' =>
      match rstrip_by p s' with
      | EmptyString => if p c then EmptyString else String c EmptyString
      | r => String c r
      end
  end.

Definition lstrip := lstrip_by isspace.
Definition rstrip := rstrip_by isspace.
Definition strip (s : string) : string := lstrip (rstrip s).

Fixpoint mem_char (c : ascii) (chars : string) : bool :=
  match chars with
  | EmptyString => false
  | String d r => Ascii.eqb c d || mem_char c r
  end.

(** [s.rstrip(chars)] *)
Definition rstrip_chars (chars s : string) : string :=
  rstrip_by (fun c => mem_char c chars) s.

Definition startswith (s pre : string) : bool := prefix pre s.

(** [sub in s] *)
Fixpoint contains (sub s : string) : bool :=
  prefix sub s ||
  match s with
  | EmptyString => false
  | String _ s' => contains sub s'
  end.

Fixpoint drop (n : nat) (s : string) : string :=
  match n, s with
  | O, _ => s
  | S n', String _ s' => drop n' s'
  | S _, EmptyString => EmptyString
  end.

Fixpoint take (n : nat) (s : string) : string :=
  match n, s with
  | S n', String c s' => String c (take n' s')
  | _, _ => EmptyString
  end.

Definition endswith (s suf : string) : bool :=
  (String.length suf <=? String.length s)
  && String.eqb (drop (String.length s - String.length suf) s) suf.

(** [s.count(c)] for a one-character needle *)
Fixpoint count_char (c : ascii) (s : string) : nat :=
  match s with
  | EmptyString => 0
  | String d s' => (if Ascii.eqb c d then 1 else 0) + count_char c s'
  end.

(** [s.replace(old, new)] for a non-empty [old]: leftmost, non-overlapping *)
Fixpoint replace_fuel (fuel : nat) (old new s : string) : string :=
  match fuel with
  | O => s
  | S fuel' =>
      match s with
      | EmptyString => EmptyString
      | String c s' =>
          if prefix old s
          then new ++ replace_fuel fuel' old new (drop (String.length old) s)
          else String c (replace_fuel fuel' old new s')
      end
  end.

Definition replace (old new s : string) : string :=
  replace_fuel (String.length s) old new s.

(** [s.split(sep)] for a one-character separator: never empty *)
Fixpoint split_char (sep : ascii) (s : string) : list string :=
  match s with
  | EmptyString => [EmptyString]
  | String c s' =>
      if Ascii.eqb c sep then EmptyString :: split_char sep s'
      else match split_char sep s' with
           | [] => [String c EmptyString]
           | l :: ls => String c l :: ls
           end
  end.

(** [sep.join(parts)] *)
Fixpoint join (sep : string) (parts : list string) : string :=
  match parts with
  | [] => EmptyString
  | [p] => p
  | p :: ps => p ++ sep ++ join sep ps
  end.

(** Line boundaries of [str.splitlines]: \n \r \v \f \x1c \x1d \x1e \x85
    (and \r\n as one boundary). *)
Definition is_linebreak (c : ascii) : bool :=
  in_range 10 13 c || in_range 28 30 c || (ord c =? 133).

(** [s.splitlines()]: no empty last line after a final boundary;
    [after_cr] is set just after a \r, whose following \n is part of the
    same boundary. *)
Fixpoint splitlines_acc (cur : string) (after_cr : bool) (s : string) : list string :=
  match s with
  | EmptyString => match cur with EmptyString => [] | _ => [cur] end
  | String c s' =>
      if after_cr && Ascii.eqb c nl then splitlines_acc cur false s'
      else if is_linebreak c then cur :: splitlines_acc EmptyString (Ascii.eqb c cr) s'
      else splitlines_acc (cur ++ String c EmptyString) false s'
  end.

Definition splitlines (s : string) : list string :=
  splitlines_acc EmptyString false s.

(** [str(n)] for a natural number *)
Definition decimal (n : nat) : string := NilEmpty.string_of_uint (Nat.to_uint n).

(** Python truthiness of a [str] *)
Definition truthy (s : string) : bool :=
  match s with EmptyString => false | _ => true end.

End PyStr.

(** ** The [re] module: a backtracking matcher

    Patterns are written as syntax trees; every pattern of the engine is
    given next to its Python source text.  Matching is leftmost, with greedy
    or lazy repetition and alternatives tried in order, as in [re]. *)

Module Re.
Import PyStr.

Inductive re : Type :=
| Eps
| Chr (p : ascii -> bool)
| Seq (a b : re)
| Alt (a b : re)
| Star (greedy : bool) (a : re)
| Grp (n : nat) (a : re)
| Bol (multiline : bool)
| Eol (multiline : bool)
| WordB
| NotAhead (a : re).

(** A position in the subject: characters consumed, the character just
    before, what is left, and the groups captured so far (latest first). *)
Record mstate : Type := MState {
  pos : nat;
  prev : option ascii;
  rest : string;
  caps : list (nat * string)
}.

Definition start_of (s : string) : mstate := MState 0 None s [].

Definition advance (st : mstate) : option mstate :=
  match rest st with
  | EmptyString => None
  | String c r => Some (MState (S (pos st)) (Some c) r (caps st))
  end.

Definition next_char (st : mstate) : option ascii :=
  match rest st with
  | EmptyString => None
  | String c _ => Some c
  end.

Definition is_word_opt (o : option ascii) : bool :=
  match o with Some c => isword c | None => false end.

Definition at_bol (multiline : bool) (st : mstate) : bool :=
  match prev st with
  | None => true
  | Some c => multiline && Ascii.eqb c nl
  end.

Definition at_eol (multiline : bool) (st : mstate) : bool :=
  match rest st with
  | EmptyString => true
  | String c r =>
      Ascii.eqb c nl && (multiline || match r with EmptyString => true | _ => false end)
  end.

Definition set_cap (n : nat) (from to : mstate) : mstate :=
  MState (pos to) (prev to) (rest to)
         ((n, take (pos to - pos from) (rest from)) :: caps to).

(** [run r st k]: match [r] at [st], then continue with [k]; [None] makes the
    matcher backtrack. *)
Fixpoint run (r : re) (st : mstate) (k : mstate -> option mstate) {struct r}
  : option mstate :=
  match r with
  | Eps => k st
  | Chr p =>
      match rest st with
      | String c _ => if p c then match advance st with Some st' => k st' | None => None end
                      else None
      | EmptyString => None
      end
  | Seq a b => run a st (fun st' => run b st' k)
  | Alt a b =>
      match run a st k with
      | Some e => Some e
      | None => run b st k
      end
  | Star greedy a =>
      (fix loop (fuel : nat) (st0 : mstate) {struct fuel} : option mstate :=
         match fuel with
         | O => k st0
         | S fuel' =>
             let again (_ : unit) :=
               run a st0 (fun st' => if pos st' =? pos st0 then None else loop fuel' st') in
             if greedy then
               match again tt with
               | Some e => Some e
               | None => k st0
               end
             else
               match k st0 with
               | Some e => Some e
               | None => again tt
               end
         end) (S (String.length (rest st))) st
  | Grp n a => run a st (fun st' => k (set_cap n st st'))
  | Bol m => if at_bol m st then k st else None
  | Eol m => if at_eol m st then k st else None
  | WordB => if xorb (is_word_opt (prev st)) (is_word_opt (next_char st)) then k st else None
  | NotAhead a =>
      match run a st (fun st' => Some st') with
      | Some _ => None
      | None => k st
      end
  end.

(** A successful match, as a [re.Match] object exposes it. *)
Record rmatch : Type := RMatch {
  m_start : nat;
  m_end : nat;
  m_text : string;              (* group(0) *)
  m_groups : list (nat * string)
}.

Definition group (m : rmatch) (n : nat) : option string :=
  match find (fun p => fst p =? n) (m_groups m) with
  | Some (_, s) => Some s
  | None => None
  end.

Definition match_at (r : re) (st : mstate) : option (rmatch * mstate) :=
  match run r (MState (pos st) (prev st) (rest st) []) (fun st' => Some st') with
  | Some e => Some (RMatch (pos st) (pos e) (take (pos e - pos st) (rest st)) (caps e), e)
  | None => None
  end.

(** Leftmost match at or after [st]. *)
Fixpoint search_from (fuel : nat) (r : re) (st : mstate) : option (rmatch * mstate) :=
  match match_at r st with
  | Some res => Some res
  | None =>
      match fuel, advance st with
      | S fuel', Some st' => search_from fuel' r st'
      | _, _ => None
      end
  end.

(** [re.match(r, s)] *)
Definition rmatch_start (r : re) (s : string) : option rmatch :=
  option_map fst (match_at r (start_of s)).

(** [re.search(r, s)] *)
Definition search (r : re) (s : string) : option rmatch :=
  option_map fst (search_from (String.length s) r (start_of s)).

Definition matches (r : re) (s : string) : bool :=
  match rmatch_start r s with Some _ => true | None => false end.

Definition found (r : re) (s : string) : bool :=
  match search r s with Some _ => true | None => false end.

(** [re.finditer(r, s)]: successive non-overlapping matches.  After an empty
    match the scan moves one character on. *)
Fixpoint finditer_from (fuel : nat) (r : re) (st : mstate) : list rmatch :=
  match fuel with
  | O => []
  | S fuel' =>
      match search_from (String.length (rest st)) r st with
      | None => []
      | Some (m, e) =>
          if m_end m =? m_start m
          then match advance e with
               | Some e' => m :: finditer_from fuel' r e'
               | None => [m]
               end
          else m :: finditer_from fuel' r e
      end
  end.

Definition finditer (r : re) (s : string) : list rmatch :=
  finditer_from (S (String.length s)) r (start_of s).

(** [re.findall] for a pattern without groups, and for one with exactly one
    group (which then lists the group). *)
Definition findall0 (r : re) (s : string) : list string :=
  map m_text (finditer r s).

Definition findall1 (r : re) (s : string) : list string :=
  map (fun m => match group m 1 with Some g => g | None => EmptyString end) (finditer r s).

(** [re.sub(r, f, s, count)] with a callable replacement; [count = 0]
    replaces every match. *)
Fixpoint sub_from (fuel : nat) (r : re) (f : rmatch -> string) (count : nat)
  (limited : bool) (st : mstate) : string :=
  match fuel with
  | O => rest st
  | S fuel' =>
      if limited && (count =? 0) then rest st
      else
        match search_from (String.length (rest st)) r st with
        | None => rest st
        | Some (m, e) =>
            let skipped := take (m_start m - pos st) (rest st) in
            if m_end m =? m_start m
            then match rest e, advance e with
                 | String c _, Some e' =>
                     skipped ++ f m ++ String c (sub_from fuel' r f (count - 1) limited e')
                 | _, _ => skipped ++ f m
                 end
            else skipped ++ f m ++ sub_from fuel' r f (count - 1) limited e
        end
  end.

Definition sub_fun (r : re) (f : rmatch -> string) (s : string) (count : nat) : string :=
  sub_from (S (String.length s)) r f count (negb (count =? 0)) (start_of s).

(** *** Pattern combinators *)

Definition chr (c : ascii) : re := Chr (Ascii.eqb c).
Definition chr_i (c : ascii) : re := Chr (fun x => Ascii.eqb (lower_char x) (lower_char c)).

Fixpoint lit (s : string) : re :=
  match s with
  | EmptyString => Eps
  | String c EmptyString => chr c
  | String c s' => Seq (chr c) (lit s')
  end.

Fixpoint lit_i (s : string) : re :=
  match s with
  | EmptyString => Eps
  | String c EmptyString => chr_i c
  | String c s' => Seq (chr_i c) (lit_i s')
  end.

Definition star (a : re) : re := Star true a.
Definition lazy_star (a : re) : re := Star false a.
Definition plus (a : re) : re := Seq a (Star true a).
Definition opt (a : re) : re := Alt a Eps.
Definition any_of (chars : string) : re := Chr (fun c => mem_char c chars).
Definition none_of (chars : string) : re := Chr (fun c => negb (mem_char c chars)).
Definition dot : re := Chr (fun c => negb (Ascii.eqb c nl)).
Definition dot_all : re := Chr (fun _ => true).
Definition space : re := Chr isspace.
Definition word : re := Chr isword.
Definition ident_start : re := Chr (fun c => isalpha_ascii c || (ord c =? 95)).
Definition ident_char : re := Chr (fun c => isalpha_ascii c || isdigit_ascii c || (ord c =? 95)).

Fixpoint seqs (rs : list re) : re :=
  match rs with
  | [] => Eps
  | [r] => r
  | r :: rs' => Seq r (seqs rs')
  end.

Fixpoint alts (rs : list re) : re :=
  match rs with
  | [] => NotAhead Eps
  | [r] => r
  | r :: rs' => Alt r (alts rs')
  end.

(** *** Replacement templates

    [re.sub] with a [str] replacement first compiles the replacement as a
    template: backslash escapes are processed, [\1] and [\g<1>] refer to
    groups, and an unknown escape of an ASCII letter is an error, raised
    whether or not the pattern matches.  Group names are decimal numbers
    here: no pattern of the engine has named groups, so a name raises. *)

Inductive tpart : Type :=
| TLit (s : string)
| TGroup (n : nat).

Fixpoint count_groups (r : re) : nat :=
  match r with
  | Seq a b | Alt a b => Nat.max (count_groups a) (count_groups b)
  | Star _ a | NotAhead a => count_groups a
  | Grp n a => Nat.max n (count_groups a)
  | _ => 0
  end.

Definition backslash : ascii := ascii_of_nat 92.
Definition is_octdigit (c : ascii) : bool := in_range 48 55 c.
Definition digit_val (c : ascii) : nat := ord c - 48.

Fixpoint all_chars (p : ascii -> bool) (s : string) : bool :=
  match s with
  | EmptyString => true
  | String c s' => p c && all_chars p s'
  end.

Fixpoint decimal_acc (acc : nat) (s : string) : nat :=
  match s with
  | EmptyString => acc
  | String c s' => decimal_acc (10 * acc + digit_val c) s'
  end.

(** the text up to the first [>] and what follows it *)
Fixpoint until_gt (s : string) : option (string * string) :=
  match s with
  | EmptyString => None
  | String c s' =>
      if Ascii.eqb c ">"%char then Some (EmptyString, s')
      else match until_gt s' with
           | Some (name, r) => Some (String c name, r)
           | None => None
           end
  end.

Definition template_escape (c : ascii) : option ascii :=
  if Ascii.eqb c "a"%char then Some (ascii_of_nat 7)
  else if Ascii.eqb c "b"%char then Some (ascii_of_nat 8)
  else if Ascii.eqb c "f"%char then Some (ascii_of_nat 12)
  else if Ascii.eqb c "n"%char then Some nl
  else if Ascii.eqb c "r"%char then Some cr
  else if Ascii.eqb c "t"%char then Some tab
  else if Ascii.eqb c "v"%char then Some (ascii_of_nat 11)
  else if Ascii.eqb c backslash then Some backslash
  else None.

Definition group_ref (ngroups idx : nat) (k : result (list tpart)) : result (list tpart) :=
  if ngroups <? idx then Raise "invalid group reference"
  else rbind k (fun parts => Ok (TGroup idx :: parts)).

Definition lit_part (s : string) (k : result (list tpart)) : result (list tpart) :=
  rbind k (fun parts => Ok (TLit s :: parts)).

Fixpoint parse_template (fuel ngroups : nat) (s : string) : result (list tpart) :=
  match fuel with
  | O => Ok []
  | S fuel' =>
      let continue := parse_template fuel' ngroups in
      match s with
      | EmptyString => Ok []
      | String c s1 =>
          if negb (Ascii.eqb c backslash) then lit_part (String c EmptyString) (continue s1)
          else
            match s1 with
            | EmptyString => Raise "bad escape (end of pattern)"
            | String e s2 =>
                if Ascii.eqb e "g"%char then
                  match s2 with
                  | String lt s3 =>
                      if Ascii.eqb lt "<"%char then
                        match until_gt s3 with
                        | None => Raise "missing >, unterminated name"
                        | Some (EmptyString, _) => Raise "missing group name"
                        | Some (name, s4) =>
                            if all_chars isdigit_ascii name
                            then group_ref ngroups (decimal_acc 0 name) (continue s4)
                            else Raise "unknown group name"
                        end
                      else Raise "missing <"
                  | EmptyString => Raise "missing <"
                  end
                else if Ascii.eqb e "0"%char then
                  match s2 with
                  | String d1 s3 =>
                      if is_octdigit d1 then
                        match s3 with
                        | String d2 s4 =>
                            if is_octdigit d2
                            then lit_part (String (ascii_of_nat ((8 * digit_val d1 + digit_val d2) mod 256)) EmptyString) (continue s4)
                            else lit_part (String (ascii_of_nat (digit_val d1)) EmptyString) (continue s3)
                        | EmptyString => lit_part (String (ascii_of_nat (digit_val d1)) EmptyString) (continue s3)
                        end
                      else lit_part (String (ascii_of_nat 0) EmptyString) (continue s2)
                  | EmptyString => lit_part (String (ascii_of_nat 0) EmptyString) (continue s2)
                  end
                else if isdigit_ascii e then
                  match s2 with
                  | String d1 s3 =>
                      if isdigit_ascii d1 then
                        match s3 with
                        | String d2 s4 =>
                            if is_octdigit e && is_octdigit d1 && is_octdigit d2 then
                              let v := 64 * digit_val e + 8 * digit_val d1 + digit_val d2 in
                              if 255 <? v then Raise "octal escape value outside of range 0-0o377"
                              else lit_part (String (ascii_of_nat v) EmptyString) (continue s4)
                            else group_ref ngroups (10 * digit_val e + digit_val d1) (continue s3)
                        | EmptyString => group_ref ngroups (10 * digit_val e + digit_val d1) (continue s3)
                        end
                      else group_ref ngroups (digit_val e) (continue s2)
                  | EmptyString => group_ref ngroups (digit_val e) (continue s2)
                  end
                else
                  match template_escape e with
                  | Some x => lit_part (String x EmptyString) (continue s2)
                  | None =>
                      if isalpha_ascii e then Raise "bad escape"
                      else lit_part (String c (String e EmptyString)) (continue s2)
                  end
            end
      end
  end.

Fixpoint expand (parts : list tpart) (m : rmatch) : string :=
  match parts with
  | [] => EmptyString
  | TLit s :: ps => s ++ expand ps m
  | TGroup 0 :: ps => m_text m ++ expand ps m
  | TGroup n :: ps =>
      match group m n with Some g => g | None => EmptyString end ++ expand ps m
  end.

(** [re.sub(r, repl, s, count)] with a [str] replacement *)
Definition sub (r : re) (repl s : string) (count : nat) : result string :=
  match parse_template (S (String.length repl)) (count_groups r) repl with
  | Ok parts => Ok (sub_fun r (expand parts) s count)
  | Raise msg => Raise msg
  end.

(** [re.split(r, s)] for a pattern without groups that never matches the
    empty string *)
Fixpoint split_from (fuel : nat) (r : re) (st : mstate) : list string :=
  match fuel with
  | O => [rest st]
  | S fuel' =>
      match search_from (String.length (rest st)) r st with
      | None => [rest st]
      | Some (m, e) =>
          if m_end m =? m_start m then [rest st]
          else take (m_start m - pos st) (rest st) :: split_from fuel' r e
      end
  end.

Definition split (r : re) (s : string) : list string :=
  split_from (S (String.length s)) r (start_of s).

End Re.

(** ** The [ast] module: trees as the engine inspects them

    Only what the fixers look at is kept: definitions and their names,
    assignments and their targets, imports, names with their context, and
    function arguments; every other node is [Other] with its children in
    [ast.iter_child_nodes] order. *)

Module Ast.

Inductive expr_context : Type := Load | Store | Del.

Record alias : Type := Alias {
  alias_name : string;
  alias_asname : option string
}.

Inductive node : Type :=
| Module (body : list node)
| FunctionDef (name : string) (children : list node)
| AsyncFunctionDef (name : string) (children : list node)
| ClassDef (name : string) (children : list node)
| Assign (targets : list node) (value : node)
| Import (names : list alias)
| ImportFrom (module : option string) (names : list alias)
| Name (id : string) (ctx : expr_context)
| Attribute (value : node) (attr : string) (ctx : expr_context)
| Arg (arg : string) (children : list node)
| Other (children : list node).

Definition iter_child_nodes (n : node) : list node :=
  match n with
  | Module b => b
  | FunctionDef _ c | AsyncFunctionDef _ c | ClassDef _ c | Arg _ c | Other c => c
  | Assign ts v => ts ++ [v]
  | Attribute v _ _ => [v]
  | Import _ | ImportFrom _ _ | Name _ _ => []
  end.

Fixpoint size (n : node) : nat :=
  let sizes := fix sizes (l : list node) : nat :=
    match l with
    | [] => 0
    | x :: r => size x + sizes r
    end in
  match n with
  | Module b => S (sizes b)
  | FunctionDef _ c | AsyncFunctionDef _ c | ClassDef _ c | Arg _ c | Other c => S (sizes c)
  | Assign ts v => S (sizes ts + size v)
  | Attribute v _ _ => S (size v)
  | Import _ | ImportFrom _ _ | Name _ _ => 1
  end.

(** [ast.walk]: breadth first, from a queue *)
Fixpoint walk_queue (fuel : nat) (todo : list node) : list node :=
  match fuel, todo with
  | S fuel', n :: q => n :: walk_queue fuel' (q ++ iter_child_nodes n)
  | _, _ => []
  end.

Definition walk (n : node) : list node := walk_queue (size n) [n].

Definition body_of (tree : node) : list node :=
  match tree with
  | Module b => b
  | _ => []
  end.

End Ast.

(** The Python runtime behind the fixers. [ast_parse] is [None] where
    [ast.parse] raises. *)
Class Python : Type := {
  ast_parse : string -> option Ast.node;
  ast_unparse : Ast.node -> result string;
  get_source_segment : string -> Ast.node -> result (option string);
  builtin_names : list string
}.

(** ** errors/error_types.py *)

Module ErrorTypes.

(** Modelled from the spec: errors/error_types.py is not among the sources;
    the members are the closed enumeration of the data model, with
    ARITHMETIC, which errors/error_classifier.py also names. *)
Inductive ErrorType : Type :=
| NONE | SYNTAX | NAME | INDEX | KEY | ATTRIBUTE | VALUE | IMPORT | TYPE
| ZERO_DIVISION | RECURSION | RUNTIME | LOGICAL | FILE | PARSE | REGEX
| ENCODING | NETWORK | SYSTEM | MEMORY | UNKNOWN | ARITHMETIC.

Definition eqb (a b : ErrorType) : bool :=
  match a, b with
  | NONE, NONE | SYNTAX, SYNTAX | NAME, NAME | INDEX, INDEX | KEY, KEY
  | ATTRIBUTE, ATTRIBUTE | VALUE, VALUE | IMPORT, IMPORT | TYPE, TYPE
  | ZERO_DIVISION, ZERO_DIVISION | RECURSION, RECURSION | RUNTIME, RUNTIME
  | LOGICAL, LOGICAL | FILE, FILE | PARSE, PARSE | REGEX, REGEX
  | ENCODING, ENCODING | NETWORK, NETWORK | SYSTEM, SYSTEM | MEMORY, MEMORY
  | UNKNOWN, UNKNOWN | ARITHMETIC, ARITHMETIC => true
  | _, _ => false
  end.

End ErrorTypes.

(** ** errors/error_parser.py *)

Module ErrorParser.
Import PyStr ErrorTypes.

Definition parse_error (stderr code language : string) : ErrorType * string :=
  let language := lower (if truthy language then language else "python") in
  let text := stderr in
  if String.eqb language "python" then
    if negb (truthy (strip text)) then (NONE, "")
    else if contains "SyntaxError" text then (SYNTAX, text)
    else if contains "NameError" text then (NAME, text)
    else if contains "IndexError" text then (INDEX, text)
    else if contains "KeyError" text then (KEY, text)
    else if contains "AttributeError" text then (ATTRIBUTE, text)
    else if contains "ZeroDivisionError" text then (ZERO_DIVISION, text)
    else if contains "RecursionError" text then (RECURSION, text)
    else if contains "Traceback" text then (RUNTIME, text)
    else (RUNTIME, text)
  else if String.eqb language "js" || String.eqb language "javascript"
          || String.eqb language "node" then
    if negb (truthy (strip text)) then (NONE, "")
    else if contains "SyntaxError" text then (SYNTAX, text)
    else if contains "ReferenceError" text then (NAME, text)
    else if contains "TypeError" text then (TYPE, text)
    else if contains "RangeError" text then (INDEX, text)
    else if contains "unexpected token" (lower text) then (SYNTAX, text)
    else if contains "is not defined" (lower text) then (NAME, text)
    else (RUNTIME, text)
  else if String.eqb language "java" then
    if negb (truthy (strip text)) then (NONE, "")
    else if contains "error:" text then (SYNTAX, text)
    else if contains "NullPointerException" text then (ATTRIBUTE, text)
    else if contains "ArrayIndexOutOfBoundsException" text then (INDEX, text)
    else if contains "cannot find symbol" text then (NAME, text)
    else if contains "Exception in thread" text then (RUNTIME, text)
    else (RUNTIME, text)
  else (RUNTIME, text).

(** the tokens the Python branch tests before the traceback marker *)
Definition known_error_tokens : list string :=
  [ "SyntaxError"; "NameError"; "IndexError"; "KeyError"; "AttributeError";
    "ZeroDivisionError"; "RecursionError" ].

Definition matches_known_token (text : string) : bool :=
  existsb (fun tok => contains tok text) known_error_tokens.

Definition has_traceback_marker (text : string) : bool := contains "Traceback" text.

End ErrorParser.

(** ** errors/error_classifier.py *)

Module ErrorClassifier.
Import ErrorTypes.

Definition AST_FIRST : list ErrorType :=
  [SYNTAX; NAME; IMPORT; ATTRIBUTE; KEY; VALUE; FILE; PARSE; REGEX; ENCODING].

Definition LLM_FIRST : list ErrorType :=
  [LOGICAL; RECURSION; RUNTIME; ZERO_DIVISION; ARITHMETIC; NETWORK; SYSTEM; MEMORY].

Inductive method : Type := AST | LLM.

Definition choose_fix_method (error_type : ErrorType) : method :=
  if existsb (eqb error_type) AST_FIRST then AST
  else if existsb (eqb error_type) LLM_FIRST then LLM
  else LLM.

End ErrorClassifier.

(** ** utils/validation.py *)

Module Validation.
Import PyStr ErrorTypes.

Definition clean_stderr (stderr : string) : string :=
  let keep line :=
    let stripped := strip line in
    negb (startswith stripped "[20" && contains "] [INFO]" stripped) in
  strip (join NL (filter keep (splitlines stderr))).

Definition harmless : list string := ["warning"; "deprecated"].

Definition is_success (stdout stderr : string) (error_type : ErrorType) : bool :=
  if negb (eqb error_type NONE) then false
  else
    let cleaned := clean_stderr stderr in
    if String.eqb cleaned "" then true
    else if existsb (fun h => contains h (lower cleaned)) harmless then true
    else false.

Definition validate_iteration (stdout stderr : string) (error_type : ErrorType)
  : bool * string :=
  let success := is_success stdout stderr error_type in
  if success then (true, "Execution succeeded.")
  else
    let cleaned := lower (clean_stderr stderr) in
    if contains "syntaxerror" cleaned then (false, "SyntaxError detected.")
    else if contains "indentationerror" cleaned then (false, "IndentationError detected.")
    else if contains "memoryerror" cleaned then (false, "MemoryError: exceeded limit.")
    else if contains "timeout" cleaned || contains "timed out" cleaned
    then (false, "Execution timed out.")
    else if negb (truthy (strip stdout)) && String.eqb (strip cleaned) ""
    then (false, "Code produced no output.")
    else (false, "Errors remain.").

End Validation.

(** ** fixer/ssr_fixer.py *)

Module SsrFixer.
Import PyStr.

Definition OPENERS : list (ascii * ascii) :=
  [ ("["%char, "]"%char); ("("%char, ")"%char); ("{"%char, "}"%char) ].

Definition closer_of (c : ascii) : option ascii :=
  option_map snd (find (fun p => Ascii.eqb (fst p) c) OPENERS).

Definition is_opener (c : ascii) : bool := existsb (fun p => Ascii.eqb (fst p) c) OPENERS.
Definition is_closer (c : ascii) : bool := existsb (fun p => Ascii.eqb (snd p) c) OPENERS.

Definition opt_eqb (o : option ascii) (c : ascii) : bool :=
  match o with Some d => Ascii.eqb d c | None => false end.

(** The stack of [_first_unclosed_opener_in_line] after the scan, its top
    first. *)
Fixpoint scan_line (i : nat) (stack : list (nat * ascii)) (line : string)
  : list (nat * ascii) :=
  match line with
  | EmptyString => stack
  | String ch line' =>
      let stack' :=
        if is_opener ch then (i, ch) :: stack
        else if is_closer ch then
          match stack with
          | (_, o) :: below => if opt_eqb (closer_of o) ch then below else stack
          | [] => stack
          end
        else stack in
      scan_line (S i) stack' line'
  end.

Definition _first_unclosed_opener_in_line (line : string) : option (nat * ascii) :=
  match rev (scan_line 0 [] line) with
  | bottom :: _ => Some bottom
  | [] => None
  end.

Definition keywords : list string :=
  [ "def "; "class "; "for "; "if "; "while "; "try:"; "with "; "return ";
    "import "; "from "; "print("; "print " ].

(** [[A-Za-z_][A-Za-z0-9_]*\s*=] *)
Definition re_assignment : Re.re :=
  Re.seqs [Re.ident_start; Re.star Re.ident_char; Re.star Re.space; Re.chr "="%char].

(** [[A-Za-z_][A-Za-z0-9_]*\s*\(] *)
Definition re_call : Re.re :=
  Re.seqs [Re.ident_start; Re.star Re.ident_char; Re.star Re.space; Re.chr "("%char].

(** a first character among letters, digits, underscore, the two quote
    characters and the backquote *)
Definition re_bare : Re.re :=
  Re.Seq (Re.Bol false)
    (Re.Chr (fun c => isalpha_ascii c || isdigit_ascii c || (ord c =? 95)
                      || (ord c =? 39) || (ord c =? 34) || (ord c =? 96))).

Definition _line_is_likely_statement_start (line : string) : bool :=
  let s := lstrip line in
  if negb (truthy s) then false
  else if existsb (startswith s) keywords then true
  else if Re.matches re_assignment s then true
  else if Re.matches re_call s then true
  else if Re.matches re_bare s then true
  else false.

(** [line.split("#", 1)] when ["#" in line] *)
Fixpoint split_hash (line : string) : string * string :=
  match line with
  | EmptyString => (EmptyString, EmptyString)
  | String c r =>
      if Ascii.eqb c "#"%char then (EmptyString, r)
      else let (a, b) := split_hash r in (String c a, b)
  end.

Definition _close_opener_on_line (line : string) (opener_idx : nat) (opener_char : ascii)
  : string :=
  match closer_of opener_char with
  | None => line
  | Some closer =>
      if contains (String closer EmptyString) (drop opener_idx line) then line
      else if contains "#" line then
        let (code_part, comment) := split_hash line in
        rstrip code_part ++ String closer EmptyString ++ "  #" ++ comment
      else rstrip line ++ String closer EmptyString
  end.

Fixpoint _dedent_line (line : string) (indent_to_remove : nat) : string :=
  match indent_to_remove, line with
  | S k, String c r => if Ascii.eqb c " "%char then _dedent_line r k else line
  | _, _ => line
  end.

(** [lines[i] = x] for an index within the list *)
Fixpoint set_nth (i : nat) (x : string) (lines : list string) : list string :=
  match i, lines with
  | _, [] => []
  | O, _ :: r => x :: r
  | S i', l :: r => l :: set_nth i' x r
  end.

Definition indent_of (line : string) : nat :=
  String.length line - String.length (lstrip line).

Definition _split_out_of_literal (lines : list string) (start_idx : nat) : list string :=
  let new_lines := lines in
  let start_line := nth start_idx new_lines EmptyString in
  match _first_unclosed_opener_in_line start_line with
  | None => new_lines
  | Some (opener_idx, opener_char) =>
      let new_start := _close_opener_on_line start_line opener_idx opener_char in
      let new_lines := set_nth start_idx new_start new_lines in
      if start_idx + 1 <? List.length new_lines then
        let next_line := nth (start_idx + 1) new_lines EmptyString in
        let base_indent := indent_of start_line in
        if (indent_of next_line <=? base_indent) || _line_is_likely_statement_start next_line
        then
          let remove := if 0 <? base_indent then base_indent else 4 in
          set_nth (start_idx + 1) (_dedent_line next_line remove) new_lines
        else new_lines
      else new_lines
  end.

Fixpoint find_openers_from (idx : nat) (lines : list string) : list (nat * nat * ascii) :=
  match lines with
  | [] => []
  | ln :: r =>
      match _first_unclosed_opener_in_line ln with
      | Some (opener_pos, opener_char) =>
          (idx, opener_pos, opener_char) :: find_openers_from (S idx) r
      | None => find_openers_from (S idx) r
      end
  end.

Definition _find_last_openers (lines : list string) : list (nat * nat * ascii) :=
  find_openers_from 0 lines.

(** The scanner shared by [_count_unmatched_openers] and
    [_close_all_openers_conservatively]: the stack of expected closers (top
    first) with the quote and escape flags. *)
Record scan_state : Type := Scan {
  stack : list ascii;
  in_single : bool;
  in_double : bool;
  escaped : bool
}.

Definition scan_step (st : scan_state) (ch : ascii) : scan_state :=
  let (stk, sq, dq, esc) := st in
  if Ascii.eqb ch Re.backslash && negb esc then Scan stk sq dq true
  else if Ascii.eqb ch squote && negb esc && negb dq then Scan stk (negb sq) dq esc
  else if Ascii.eqb ch dquote && negb esc && negb sq then Scan stk sq (negb dq) esc
  else if sq || dq then Scan stk sq dq false
  else
    let stk' :=
      match closer_of ch with
      | Some cl => cl :: stk
      | None =>
          if is_closer ch then
            match stk with
            | top :: below => if Ascii.eqb top ch then below else stk
            | [] => stk
            end
          else stk
      end in
    Scan stk' sq dq false.

Fixpoint scan_code (st : scan_state) (code : string) : scan_state :=
  match code with
  | EmptyString => st
  | String ch r => scan_code (scan_step st ch) r
  end.

Definition unmatched_stack (code : string) : list ascii :=
  stack (scan_code (Scan [] false false false) code).

Definition _count_unmatched_openers (code : string) : nat :=
  List.length (unmatched_stack code).

Definition string_of_chars (l : list ascii) : string :=
  fold_right String EmptyString l.

Definition _close_all_openers_conservatively (code : string) : string :=
  match unmatched_stack code with
  | [] => code
  | stk =>
      (* the stack is kept top first, which is [reversed(stack)] *)
      let add := string_of_chars stk in
      rstrip code ++ (if negb (endswith code NL) then NL else "") ++ add ++ NL
  end.

Section WithPython.
Context `{Python}.

Definition _safe_parse (code : string) : bool :=
  match ast_parse code with Some _ => true | None => false end.

Inductive attempt_outcome : Type :=
| Fixed (code : string)          (* a candidate parsed: returned at once *)
| Provisional (lines : list string)  (* fewer unmatched openers: kept *)
| NoChange.

(** the [for (line_idx, op_pos, op_char) in openers] loop of one attempt *)
Fixpoint try_openers (lines : list string) (openers : list (nat * nat * ascii))
  : attempt_outcome :=
  match openers with
  | [] => NoChange
  | (line_idx, _, _) :: more =>
      let candidate_lines := _split_out_of_literal lines line_idx in
      let candidate_code := join NL candidate_lines in
      if negb (String.eqb candidate_code (join NL lines)) then
        if _safe_parse candidate_code then Fixed candidate_code
        else
          let old_unmatched := _count_unmatched_openers (join NL lines) in
          let new_unmatched := _count_unmatched_openers candidate_code in
          if new_unmatched <? old_unmatched then Provisional candidate_lines
          else try_openers lines more
      else try_openers lines more
  end.

(** what follows the attempts: one conservative closure, else best effort *)
Definition final_attempt (lines : list string) : string :=
  let final_try := _close_all_openers_conservatively (join NL lines) in
  if negb (String.eqb final_try (join NL lines)) && _safe_parse final_try
  then final_try
  else join NL lines.

(** the [for attempt in range(max_attempts)] loop; the openers are listed in
    line order, so sorting them by line index changes nothing *)
Fixpoint attempts (remaining : nat) (lines : list string) : string :=
  match remaining with
  | O => final_attempt lines
  | S remaining' =>
      match _find_last_openers lines with
      | [] => final_attempt lines
      | openers =>
          match try_openers lines openers with
          | Fixed code => code
          | Provisional lines' => attempts remaining' lines'
          | NoChange =>
              let combined := _close_all_openers_conservatively (join NL lines) in
              if negb (String.eqb combined (join NL lines)) && _safe_parse combined
              then combined
              else final_attempt lines
          end
      end
  end.

Definition apply_ssr_fix_with (code : string) (max_attempts : nat) : string :=
  if negb (truthy code) then code
  else
    let working := replace CRLF NL code in
    if _safe_parse working then working
    else attempts max_attempts (split_char nl working).

Definition apply_ssr_fix (code : string) : string := apply_ssr_fix_with code 4.

End WithPython.

End SsrFixer.

(** ** fixer/ast_rules.py *)

Module AstRules.

Definition in_module (m : string) (names : list string) : list (string * string) :=
  map (fun n => (n, m)) names.

Definition FUNC_TO_MODULE : list (string * string) :=
  in_module "math"
    [ "sqrt"; "sin"; "cos"; "tan"; "asin"; "acos"; "atan"; "atan2"; "log";
      "log10"; "log2"; "exp"; "floor"; "ceil"; "fabs"; "factorial";
      "degrees"; "radians"; "hypot"; "fmod"; "trunc"; "isfinite"; "isinf";
      "isnan"; "gamma"; "lgamma"; "comb"; "perm"; "pi"; "e"; "tau"; "inf";
      "nan" ]
  ++ in_module "random"
    [ "random"; "randint"; "uniform"; "choice"; "shuffle"; "sample";
      "randrange"; "seed" ]
  ++ in_module "statistics" [ "mean"; "median"; "mode"; "stdev"; "variance" ]
  ++ in_module "re"
    [ "search"; "match"; "fullmatch"; "sub"; "findall"; "finditer"; "split";
      "compile" ]
  ++ in_module "json" [ "loads"; "dumps"; "load"; "dump" ]
  ++ in_module "datetime" [ "datetime"; "timedelta"; "date"; "time"; "timezone" ]
  ++ in_module "itertools"
    [ "product"; "permutations"; "combinations"; "cycle"; "repeat";
      "accumulate"; "chain"; "islice" ]
  ++ in_module "functools" [ "reduce"; "lru_cache"; "partial" ]
  ++ in_module "collections" [ "deque"; "Counter"; "defaultdict" ]
  ++ in_module "heapq" [ "heappush"; "heappop"; "heapify"; "nlargest"; "nsmallest" ]
  ++ in_module "bisect"
    [ "bisect"; "bisect_left"; "bisect_right"; "insort"; "insort_left";
      "insort_right" ]
  ++ in_module "pathlib" [ "Path" ]
  ++ in_module "os.path" [ "join"; "basename"; "dirname" ]
  ++ in_module "numpy" [ "array"; "arange"; "zeros"; "ones"; "linspace"; "reshape" ]
  ++ in_module "pandas" [ "DataFrame"; "Series"; "read_csv" ].

Definition PREFERRED_MODULES : list (string * list string) :=
  [ ("sqrt", ["math"; "numpy"]); ("sin", ["math"; "numpy"]);
    ("cos", ["math"; "numpy"]); ("log", ["math"; "numpy"]);
    ("exp", ["math"; "numpy"]);
    ("mean", ["statistics"; "numpy"]); ("median", ["statistics"; "numpy"]);
    ("mode", ["statistics"]);
    ("random", ["random"; "numpy.random"]); ("randint", ["random"; "numpy.random"]);
    ("search", ["re"]); ("sub", ["re"]);
    ("Path", ["pathlib"]); ("join", ["os.path"; "pathlib"]);
    ("array", ["numpy"]); ("arange", ["numpy"]) ].

(** [d.get(key)] on a table with string keys *)
Definition lookup {A} (key : string) (table : list (string * A)) : option A :=
  option_map snd (find (fun p => String.eqb (fst p) key) table).

End AstRules.

(** ** fixer/ast_fixer.py *)

Module AstFixer.
Import PyStr AstRules.

Definition bracket_pairs : list (ascii * ascii) :=
  [ ("("%char, ")"%char); ("["%char, "]"%char); ("{"%char, "}"%char) ].

Definition closer_of (c : ascii) : option ascii :=
  option_map snd (find (fun p => Ascii.eqb (fst p) c) bracket_pairs).

Definition opener_of (c : ascii) : option ascii :=
  option_map fst (find (fun p => Ascii.eqb (snd p) c) bracket_pairs).

(** the stack of expected closers after the scan, top first *)
Fixpoint closer_stack (stack : list ascii) (code : string) : list ascii :=
  match code with
  | EmptyString => stack
  | String ch r =>
      match closer_of ch with
      | Some cl => closer_stack (cl :: stack) r
      | None =>
          match opener_of ch, stack with
          | Some _, top :: below =>
              if Ascii.eqb top ch then closer_stack below r else closer_stack stack r
          | _, _ => closer_stack stack r
          end
      end
  end.

Definition fix_unclosed_brackets (code : string) : string :=
  match closer_stack [] code with
  | [] => code
  | stack => code ++ SsrFixer.string_of_chars stack   (* top first is [stack[::-1]] *)
  end.

(** the scan of [fix_backward_bracket_mismatch]: openers on the stack (top
    first), unmatched closers dropped from the text *)
Fixpoint drop_unmatched (stack : list ascii) (code : string) : string :=
  match code with
  | EmptyString => EmptyString
  | String ch r =>
      match closer_of ch with
      | Some _ => String ch (drop_unmatched (ch :: stack) r)
      | None =>
          match opener_of ch with
          | Some op =>
              match stack with
              | top :: below =>
                  if Ascii.eqb top op then String ch (drop_unmatched below r)
                  else drop_unmatched stack r
              | [] => drop_unmatched stack r
              end
          | None => String ch (drop_unmatched stack r)
          end
      end
  end.

Definition fix_backward_bracket_mismatch (code : string) : string :=
  drop_unmatched [] code.

Definition fix_unclosed_strings (code : string) : string :=
  let code := if Nat.odd (count_char dquote code) then code ++ String dquote "" else code in
  let code := if Nat.odd (count_char squote code) then code ++ String squote "" else code in
  code.

Definition block_keywords : list string :=
  [ "def "; "if "; "for "; "while "; "class "; "elif "; "else"; "try";
    "except"; "finally"; "with " ].

(** The loop of [fix_missing_colons_and_indent].  The Python loop indents
    [lines[i + 1]] in place before it reaches it; [after_colon] carries that
    pending indentation to the next line. *)
Fixpoint colons_and_indent (after_colon : bool) (lines : list string) : list string :=
  match lines with
  | [] => []
  | raw :: rest =>
      let line :=
        if after_colon && truthy (strip raw) && negb (startswith raw " ")
        then "    " ++ raw else raw in
      let s := strip line in
      let line :=
        if existsb (startswith s) block_keywords && negb (endswith s ":")
        then rstrip line ++ ":" else line in
      line :: colons_and_indent (endswith (strip line) ":") rest
  end.

Definition fix_missing_colons_and_indent (code : string) : string :=
  join NL (colons_and_indent false (split_char nl code)).

(** the pattern [\[(.*?)\]] *)
Definition re_bracketed : Re.re :=
  Re.seqs [Re.chr "["%char; Re.Grp 1 (Re.lazy_star Re.dot); Re.chr "]"%char].

(** the pattern [\s+] *)
Definition re_whitespace : Re.re := Re.plus Re.space.

(** the pattern [^[\w\(\)\+\-\*/]+$] *)
Definition re_item : Re.re :=
  Re.seqs [Re.Bol false; Re.plus (Re.Chr (fun c => isword c || mem_char c "()+-*/"));
           Re.Eol false].

Definition fix_list (text : string) : string :=
  let inner := take (String.length text - 2) (drop 1 text) in
  let tokens := Re.split re_whitespace inner in
  if forallb (Re.matches re_item) tokens
  then "[" ++ join ", " tokens ++ "]"
  else text.

Definition fix_missing_commas (code : string) : string :=
  Re.sub_fun re_bracketed (fun m => fix_list (Re.m_text m)) code 0.

(** the pattern [(\w+)\($] *)
Definition re_incomplete_call : Re.re :=
  Re.seqs [Re.Grp 1 (Re.plus Re.word); Re.chr "("%char; Re.Eol false].

Definition fix_incomplete_calls (code : string) : result string :=
  Re.sub re_incomplete_call "\1()" code 0.

(** the pattern [(\w+)\s*=\s*$] *)
Definition re_broken_assignment : Re.re :=
  Re.seqs [Re.Grp 1 (Re.plus Re.word); Re.star Re.space; Re.chr "="%char;
           Re.star Re.space; Re.Eol false].

Definition fix_broken_assignments (code : string) : result string :=
  Re.sub re_broken_assignment "\1 = None" code 0.

(** the pattern [([+\-*/%]|and|or|==|!=)\s*$] *)
Definition re_trailing_operator : Re.re :=
  Re.seqs [Re.Grp 1 (Re.alts [Re.any_of "+-*/%"; Re.lit "and"; Re.lit "or";
                              Re.lit "=="; Re.lit "!="]);
           Re.star Re.space; Re.Eol false].

Definition fix_trailing_operators (code : string) : result string :=
  Re.sub re_trailing_operator "" code 0.

(** the pattern [[+\-*/%]$] *)
Definition re_operator_at_end : Re.re := Re.Seq (Re.any_of "+-*/%") (Re.Eol false).

(** the pattern [,\s*,] *)
Definition re_empty_item : Re.re :=
  Re.seqs [Re.chr ","%char; Re.star Re.space; Re.chr ","%char].

Definition heal_line (line : string) : result string :=
  let s := strip line in
  let line := if Re.found re_operator_at_end s
              then rstrip_chars " +*/%-" line ++ " 0" else line in
  rbind (Re.sub re_empty_item ", None," line 0) (fun line =>
  let line := if endswith s "(" then line ++ ")" else line in
  Ok (if startswith line " " || startswith line (String tab "") then line
      else lstrip line)).

Fixpoint heal_lines (lines : list string) : result (list string) :=
  match lines with
  | [] => Ok []
  | l :: r =>
      rbind (heal_line l) (fun l' =>
      rbind (heal_lines r) (fun r' => Ok (l' :: r')))
  end.

Definition heal_broken_expressions (code : string) : result string :=
  rbind (heal_lines (split_char nl code)) (fun repaired => Ok (join NL repaired)).

(** *** Import and name repair *)

Definition mem (x : string) (l : list string) : bool := existsb (String.eqb x) l.

(** [s.add(x)] on a set kept as a duplicate-free list in insertion order *)
Definition add (x : string) (l : list string) : list string :=
  if mem x l then l else l ++ [x].

(** [name.split(".")[0]] *)
Definition first_component (name : string) : string :=
  hd EmptyString (split_char "."%char name).

Record defined_sets : Type := Defined {
  imported_modules : list string;
  from_imports : list (string * list string);
  defined : list string
}.

Definition or_else (o : option string) (d : string) : string :=
  match o with
  | Some s => if truthy s then s else d
  | None => d
  end.

(** [from_imports.setdefault(mod, set()).add(name)] *)
Fixpoint add_from (md name : string) (table : list (string * list string))
  : list (string * list string) :=
  match table with
  | [] => [(md, [name])]
  | (k, v) :: r =>
      if String.eqb k md then (k, add name v) :: r else (k, v) :: add_from md name r
  end.

Definition define_node (acc : defined_sets) (n : Ast.node) : result defined_sets :=
  let (mods, froms, defs) := acc in
  match n with
  | Ast.Import names =>
      Ok (fold_left (fun a al =>
            let md := first_component (Ast.alias_name al) in
            Defined (add md (imported_modules a)) (from_imports a)
                    (add (or_else (Ast.alias_asname al) md) (defined a)))
          names acc)
  | Ast.ImportFrom None _ => Raise "AttributeError: 'NoneType' object has no attribute 'split'"
  | Ast.ImportFrom (Some module) names =>
      let md := first_component module in
      Ok (fold_left (fun a al =>
            Defined (imported_modules a) (add_from md (Ast.alias_name al) (from_imports a))
                    (add (or_else (Ast.alias_asname al) (Ast.alias_name al)) (defined a)))
          names (Defined (add md mods) froms defs))
  | Ast.FunctionDef name _ | Ast.ClassDef name _ => Ok (Defined mods froms (add name defs))
  | Ast.Arg arg _ => Ok (Defined mods froms (add arg defs))
  | Ast.Assign targets _ =>
      Ok (Defined mods froms
            (fold_left (fun d t => match t with Ast.Name id _ => add id d | _ => d end)
                       targets defs))
  | _ => Ok acc
  end.

Fixpoint define_nodes (acc : defined_sets) (nodes : list Ast.node) : result defined_sets :=
  match nodes with
  | [] => Ok acc
  | n :: r => rbind (define_node acc n) (fun acc' => define_nodes acc' r)
  end.

Definition collect_unresolved (tree : Ast.node) (defined : list string) : list string :=
  fold_left (fun used n =>
      match n with
      | Ast.Name id Ast.Load => if mem id defined then used else add id used
      | _ => used
      end)
    (Ast.walk tree) [].

Definition choose_best_module (candidates imported_modules : list string)
  (from_imports : list (string * list string)) : string :=
  match find (fun c => mem (first_component c) imported_modules) candidates with
  | Some c => c
  | None => hd EmptyString candidates
  end.

Fixpoint first_code_line (idx : nat) (lines : list string) : nat :=
  match lines with
  | [] => idx
  | l :: r =>
      if String.eqb (strip l) "" || startswith l "#" then first_code_line (S idx) r
      else idx
  end.

Definition insert_imports (code : string) (new_imports : list string) : string :=
  let lines := split_char nl code in
  let idx := first_code_line 0 lines in
  let new_block := join NL new_imports ++ NL in
  join NL (firstn idx lines ++ [new_block] ++ skipn idx lines).

(** [Prefixer(prefix_map).visit(tree)] *)
Fixpoint prefixer (prefix_map : list (string * string)) (n : Ast.node) : Ast.node :=
  let visit := map (prefixer prefix_map) in
  match n with
  | Ast.Name id Ast.Load =>
      match lookup id prefix_map with
      | Some md => Ast.Attribute (Ast.Name md Ast.Load) id Ast.Load
      | None => n
      end
  | Ast.Module b => Ast.Module (visit b)
  | Ast.FunctionDef name c => Ast.FunctionDef name (visit c)
  | Ast.AsyncFunctionDef name c => Ast.AsyncFunctionDef name (visit c)
  | Ast.ClassDef name c => Ast.ClassDef name (visit c)
  | Ast.Assign ts v => Ast.Assign (visit ts) (prefixer prefix_map v)
  | Ast.Attribute v attr ctx => Ast.Attribute (prefixer prefix_map v) attr ctx
  | Ast.Arg arg c => Ast.Arg arg (visit c)
  | Ast.Other c => Ast.Other (visit c)
  | Ast.Import _ | Ast.ImportFrom _ _ | Ast.Name _ _ => n
  end.

Section WithPython.
Context `{Python}.

Definition safe_parse (code : string) : option Ast.node := ast_parse code.

(** [extract_defined]: the three sets, filled along [ast.walk] *)
Definition extract_defined (tree : Ast.node) : result defined_sets :=
  define_nodes (Defined [] [] builtin_names) (Ast.walk tree).

(** the [for name in used] loop: new import lines and the prefix map; the
    unresolved names are visited in the order they were collected (the
    iteration order of a Python set is not fixed) *)
Definition plan_fix (d : defined_sets) (plan : list string * list (string * string))
  (name : string) : list string * list (string * string) :=
  let (add_imports, prefix_map) := plan in
  match lookup name FUNC_TO_MODULE with
  | None => plan
  | Some md =>
      let modules :=
        match lookup name PREFERRED_MODULES with Some ms => ms | None => [md] end in
      let chosen := choose_best_module modules (imported_modules d) (from_imports d) in
      if mem chosen (imported_modules d)
      then (add_imports,
            (name, chosen) :: filter (fun p => negb (String.eqb (fst p) name)) prefix_map)
      else (app add_imports [("from " ++ chosen ++ " import " ++ name)%string], prefix_map)
  end.

Definition fix_imports_and_names (code : string) (tree : Ast.node) : result string :=
  rbind (extract_defined tree) (fun d =>
  let used := collect_unresolved tree (defined d) in
  let (add_imports, prefix_map) := fold_left (plan_fix d) used ([], []) in
  let code :=
    match prefix_map with
    | [] => code
    | _ => match ast_unparse (prefixer prefix_map tree) with
           | Ok unparsed => unparsed
           | Raise _ => code
           end
    end in
  let code :=
    match add_imports with
    | [] => code
    | _ => insert_imports code add_imports
    end in
  Ok code).

(** the eight text passes that open [try_ast_fix], in order *)
Definition syntax_fixes (code : string) : result string :=
  let code := fix_unclosed_brackets code in
  let code := fix_backward_bracket_mismatch code in
  let code := fix_unclosed_strings code in
  let code := fix_missing_colons_and_indent code in
  let code := fix_missing_commas code in
  rbind (fix_incomplete_calls code) (fun code =>
  rbind (fix_broken_assignments code) (fun code =>
  fix_trailing_operators code)).

Definition try_ast_fix (error_type : ErrorTypes.ErrorType) (code : string) : result string :=
  let original := code in
  rbind (syntax_fixes code) (fun code =>
  match safe_parse code with
  | Some parsed => fix_imports_and_names code parsed
  | None =>
      rbind (heal_broken_expressions code) (fun code =>
      match safe_parse code with
      | Some parsed => fix_imports_and_names code parsed
      | None => Ok (if truthy code then code else original)
      end)
  end).

End WithPython.

End AstFixer.

(** ** fixer/merge_strategy.py *)

Module MergeStrategy.
Import PyStr.

Definition MAX_ADDED_TOPLEVEL_DEFS : nat := 12.
Definition MAX_ADDED_IMPORTS : nat := 8.

(** [int(base_lines * SHRINK_THRESHOLD)] with [SHRINK_THRESHOLD = 0.75]: the
    product is exact in floating point for any file one can store, and
    [int] truncates. *)
Definition shrink_floor (base_lines : nat) : nat := (3 * base_lines) / 4.

Definition mem (x : string) (l : list string) : bool := existsb (String.eqb x) l.

(** [len(set(xs) - set(ys))] *)
Definition count_new (xs ys : list string) : nat :=
  List.length (nodup string_dec (filter (fun x => negb (mem x ys)) xs)).

Definition names_of_node (n : Ast.node) : list string :=
  match n with
  | Ast.FunctionDef name _ | Ast.AsyncFunctionDef name _ | Ast.ClassDef name _ => [name]
  | Ast.Assign targets _ =>
      flat_map (fun t => match t with Ast.Name id _ => [id] | _ => [] end) targets
  | _ => []
  end.

Definition imports_of_node (n : Ast.node) : list string :=
  match n with
  | Ast.Import names => map (fun a => AstFixer.first_component (Ast.alias_name a)) names
  | Ast.ImportFrom (Some module) _ =>
      if truthy module then [AstFixer.first_component module] else []
  | _ => []
  end.

(** the pattern
    [^\s*(def |class |import |from |[A-Za-z_]\w*\s*=|if |for |while |async def )] *)
Definition re_code_line : Re.re :=
  Re.seqs [Re.Bol false; Re.star Re.space;
           Re.Grp 1 (Re.alts [Re.lit "def "; Re.lit "class "; Re.lit "import ";
                              Re.lit "from ";
                              Re.seqs [Re.ident_start; Re.star Re.word; Re.star Re.space;
                                       Re.chr "="%char];
                              Re.lit "if "; Re.lit "for "; Re.lit "while ";
                              Re.lit "async def "])].

(** the loop over [lines[:40]] of [_strip_non_code_prefix]: the lines from
    the first code-like one on *)
Fixpoint from_first_code_line (budget : nat) (lines : list string) : option (list string) :=
  match budget, lines with
  | S budget', ln :: r =>
      if Re.matches re_code_line ln then Some lines else from_first_code_line budget' r
  | _, _ => None
  end.

Definition _strip_non_code_prefix (s : string) : string :=
  match from_first_code_line 40 (splitlines s) with
  | Some lines => join NL lines
  | None => s
  end.

Definition _count_lines (s : string) : nat :=
  if negb (truthy s) then 0 else List.length (splitlines s).

(** [(?:async\s+def|def|class)] *)
Definition re_def_keyword : Re.re :=
  Re.alts [Re.seqs [Re.lit "async"; Re.plus Re.space; Re.lit "def"];
           Re.lit "def"; Re.lit "class"].

(** [(?:\s+.*\n)+] *)
Definition re_block_lines : Re.re :=
  Re.plus (Re.seqs [Re.plus Re.space; Re.star Re.dot; Re.chr nl]).

(** the pattern
    [(?:^|\n)(?:async\s+def|def|class)\s+NAME\b[^\n]*:\n(?:\s+.*\n)+]
    for [NAME = re.escape(name)] *)
Definition def_pattern (multiline : bool) (name : string) : Re.re :=
  Re.seqs [Re.Alt (Re.Bol multiline) (Re.chr nl); re_def_keyword; Re.plus Re.space;
           Re.lit name; Re.WordB; Re.star (Re.none_of NL); Re.chr ":"%char;
           Re.chr nl; re_block_lines].

(** the pattern
    [(?:^|\n)((?:async\s+def|def|class)\s+[A-Za-z_]\w*[^\n]*:\n(?:\s+.*\n)+)]
    with [re.MULTILINE] *)
Definition re_any_block : Re.re :=
  Re.seqs [Re.Alt (Re.Bol true) (Re.chr nl);
           Re.Grp 1 (Re.seqs [re_def_keyword; Re.plus Re.space; Re.ident_start;
                              Re.star Re.word; Re.star (Re.none_of NL);
                              Re.chr ":"%char; Re.chr nl; re_block_lines])].

(** the pattern [(?:async\s+def|def|class)\s+] followed by the group
    [[A-Za-z_]\w*] *)
Definition re_block_name : Re.re :=
  Re.seqs [re_def_keyword; Re.plus Re.space;
           Re.Grp 1 (Re.Seq Re.ident_start (Re.star Re.word))].

Definition _safe_replace_first (target : string) (pattern : Re.re) (replacement : string)
  : result string :=
  Re.sub pattern replacement target 1.

(** How a call ended; each case is one of the log lines of
    [merge_llm_result]. *)
Inductive decision : Type :=
| EmptyOutput            (* [if not llm_out: return base] *)
| ShrinkRejected         (* rejecting candidate because it would massively shrink the file *)
| AdditionsRejected      (* rejecting candidate due to excessive top-level additions *)
| Adopted                (* adopting llm candidate *)
| BaseUnparseable        (* base does not parse; refusing to merge *)
| PartialMerged          (* partial merge (parsed) succeeded *)
| RegexMerged            (* regex partial merge kept *)
| RewriteRejected        (* rejecting full-function rewrite due to excessive additions *)
| RewriteAccepted        (* accepted full-function rewrite *)
| FellBack.              (* falling back to base (no safe merge applied) *)

Definition rejected (d : decision) : bool :=
  match d with
  | EmptyOutput | ShrinkRejected | AdditionsRejected | BaseUnparseable
  | RewriteRejected | FellBack => true
  | Adopted | PartialMerged | RegexMerged | RewriteAccepted => false
  end.

Section WithPython.
Context `{Python}.

Definition _parse_ok (code : string) : bool :=
  match ast_parse code with Some _ => true | None => false end.

Definition _safe_parse_tree (code : string) : option Ast.node := ast_parse code.

Definition _top_level_names (code : string) : list string :=
  match _safe_parse_tree code with
  | None => []
  | Some tree => flat_map names_of_node (Ast.body_of tree)
  end.

Definition _imports_from_code (code : string) : list string :=
  match _safe_parse_tree code with
  | None => []
  | Some tree => flat_map imports_of_node (Ast.walk tree)
  end.

Definition is_definition (n : Ast.node) : option string :=
  match n with
  | Ast.FunctionDef name _ | Ast.AsyncFunctionDef name _ | Ast.ClassDef name _ => Some name
  | _ => None
  end.

Definition _get_source_segment_for_node (code : string) (node : Ast.node) : option string :=
  let fallback :=
    match is_definition node with
    | Some name => option_map Re.m_text (Re.search (def_pattern false name) code)
    | None => None
    end in
  match get_source_segment code node with
  | Ok (Some segment) => if truthy segment then Some segment else fallback
  | _ => fallback
  end.

(** One substitution attempt of the merge loops: when [name] is defined in
    [target], its first definition is replaced by [block]; the result is
    kept only if it parses. *)
Definition substitute (target name block : string) : result (option string) :=
  let pattern := def_pattern true name in
  if Re.found pattern target then
    rbind (_safe_replace_first target pattern (NL ++ block ++ NL)) (fun merged_candidate =>
    Ok (if _parse_ok merged_candidate then Some merged_candidate else None))
  else Ok None.

(** the loop over [cand_tree.body] of step 2 *)
Fixpoint merge_nodes (candidate : string) (nodes : list Ast.node) (merged : string)
  (replaced_any : bool) : result (string * bool) :=
  match nodes with
  | [] => Ok (merged, replaced_any)
  | node :: more =>
      match is_definition node with
      | None => merge_nodes candidate more merged replaced_any
      | Some name =>
          match _get_source_segment_for_node candidate node with
          | None => merge_nodes candidate more merged replaced_any
          | Some src_node =>
              if negb (_parse_ok src_node) then merge_nodes candidate more merged replaced_any
              else
                rbind (substitute merged name src_node) (fun r =>
                match r with
                | Some merged' => merge_nodes candidate more merged' true
                | None => merge_nodes candidate more merged replaced_any
                end)
          end
      end
  end.

(** the loop over the regex blocks of steps 3 and 4 *)
Fixpoint merge_blocks (blocks : list string) (tmp : string) (replaced_any : bool)
  : result (string * bool) :=
  match blocks with
  | [] => Ok (tmp, replaced_any)
  | blk :: more =>
      match Re.rmatch_start re_block_name blk with
      | None => merge_blocks more tmp replaced_any
      | Some m =>
          let name := match Re.group m 1 with Some g => g | None => EmptyString end in
          rbind (substitute tmp name blk) (fun r =>
          match r with
          | Some tmp' => merge_blocks more tmp' true
          | None => merge_blocks more tmp replaced_any
          end)
      end
  end.

Definition too_many_additions (base result : string) : bool :=
  let added := count_new (_top_level_names result) (_top_level_names base) in
  let new_imports := count_new (_imports_from_code result) (_imports_from_code base) in
  (MAX_ADDED_TOPLEVEL_DEFS <? added) || (MAX_ADDED_IMPORTS <? new_imports).

(** step 4 and the final fallback *)
Definition full_rewrite_or_base (base llm_out : string) (allow_full_rewrite : bool)
  : result (decision * string) :=
  if allow_full_rewrite then
    match Re.findall1 re_any_block llm_out with
    | [] => Ok (FellBack, base)
    | blocks =>
        rbind (merge_blocks blocks base false) (fun r =>
        let (tmp, changed) := r in
        if changed && _parse_ok tmp then
          if too_many_additions base tmp then Ok (RewriteRejected, base)
          else Ok (RewriteAccepted, tmp)
        else Ok (FellBack, base))
    end
  else Ok (FellBack, base).

(** step 3, inside its [try]: an exception only ends the step *)
Definition regex_partial_merge (candidate merged : string) : option string :=
  match Re.findall1 re_any_block candidate with
  | [] => None
  | blocks =>
      match merge_blocks blocks merged false with
      | Ok (tmp, replaced_any) => if replaced_any && _parse_ok tmp then Some tmp else None
      | Raise _ => None
      end
  end.

(** [merge_llm_result] together with the decision it logs *)
Definition merge_decide (base llm_out : string) (allow_full_rewrite : bool)
  : result (decision * string) :=
  if negb (truthy llm_out) then Ok (EmptyOutput, base)
  else
    let candidate := strip (_strip_non_code_prefix llm_out) in
    let base_lines := _count_lines base in
    let cand_lines := _count_lines candidate in
    if _parse_ok candidate then
      if (0 <? base_lines) && (cand_lines <? Nat.max 1 (shrink_floor base_lines))
      then Ok (ShrinkRejected, base)
      else if too_many_additions base candidate then Ok (AdditionsRejected, base)
      else Ok (Adopted, candidate)
    else
      match ast_parse base with
      | None => Ok (BaseUnparseable, base)
      | Some base_tree =>
          let merged := base in
          rbind (match _safe_parse_tree candidate with
                 | Some cand_tree =>
                     rbind (merge_nodes candidate (Ast.body_of cand_tree) merged false)
                       (fun r => let (merged', replaced_any) := r in
                                 Ok (merged', replaced_any && _parse_ok merged'))
                 | None => Ok (merged, false)
                 end) (fun r =>
          let (merged, done) := r in
          if done then Ok (PartialMerged, merged)
          else
            match regex_partial_merge candidate merged with
            | Some tmp => Ok (RegexMerged, tmp)
            | None => full_rewrite_or_base base llm_out allow_full_rewrite
            end)
      end.

Definition merge_llm_result (base llm_out : string) (allow_full_rewrite : bool)
  : result string :=
  rbind (merge_decide base llm_out allow_full_rewrite) (fun r => Ok (snd r)).

End WithPython.

End MergeStrategy.

(** ** The collaborators and the effects of a repair run

    A run talks to the sandbox, to the language model and to the logical
    detector.  Their answers may differ from one call to the next, so each
    call threads a world [W]; a call may also raise. *)

(** An issue of the logical detector, with the patch it may suggest; the
    pattern of a patch is kept compiled. *)
Record Patch : Type := MkPatch {
  patch_kind : string;
  patch_pattern : Re.re;
  patch_replacement : string
}.

Record LogicalIssue : Type := MkIssue {
  issue_type : string;
  issue_message : string;
  suggested_patch : option Patch
}.

Class Collaborators (W : Type) : Type := {
  (* runtime.sandbox_runner.run_in_sandbox(code) -> (stdout, stderr) *)
  run_in_sandbox : string -> W -> result (string * string) * W;
  (* models.qwen_runner.qwen_generate(prompt, max_tokens) *)
  qwen_generate : string -> nat -> W -> result string * W;
  (* fixer.logical_detector.inspect_and_test(code).get("issues", []) *)
  inspect_and_test : string -> W -> result (list LogicalIssue) * W;
  (* list(difflib.ndiff(old_lines, new_lines)) *)
  ndiff : list string -> list string -> list string
}.

Module Eff.

Definition M (W A : Type) : Type := W -> result A * W.

Definition ret {W A} (a : A) : M W A := fun w => (Ok a, w).

Definition raise {W A} (msg : string) : M W A := fun w => (Raise msg, w).

Definition bind {W A B} (c : M W A) (f : A -> M W B) : M W B :=
  fun w =>
    match c w with
    | (Ok a, w') => f a w'
    | (Raise msg, w') => (Raise msg, w')
    end.

(** [try: c  except Exception: handler] *)
Definition catch {W A} (c : M W A) (handler : string -> M W A) : M W A :=
  fun w =>
    match c w with
    | (Ok a, w') => (Ok a, w')
    | (Raise msg, w') => handler msg w'
    end.

Definition lift {W A} (r : result A) : M W A := fun w => (r, w).

End Eff.

Declare Scope eff_scope.
Delimit Scope eff_scope with eff.
Notation "x <- c ;; k" := (Eff.bind c (fun x => k))
  (at level 61, c at next level, right associativity) : eff_scope.
Notation "' pat <- c ;; k" := (Eff.bind c (fun x => match x with pat => k end))
  (at level 61, pat pattern, c at next level, right associativity) : eff_scope.

(** ** fixer/llm_fixer.py *)

Module LlmFixer.
Import PyStr.

Definition MAX_OUTPUT_CHARS : nat := 20000.

Definition backticks : string := "```".

(** the pattern [```(?:python)?\n(.*?)```] with [re.S | re.I] *)
Definition re_fence : Re.re :=
  Re.seqs [Re.lit backticks; Re.opt (Re.lit_i "python"); Re.chr nl;
           Re.Grp 1 (Re.lazy_star Re.dot_all); Re.lit backticks].

(** the pattern [^\s*#.*\n+] *)
Definition re_leading_comment : Re.re :=
  Re.seqs [Re.Bol false; Re.star Re.space; Re.chr "#"%char; Re.star Re.dot;
           Re.plus (Re.chr nl)].

(** the pattern: at the start, one or more letters, spaces, commas, dashes,
    parentheses or quote characters, then a colon and [\s*] *)
Definition re_prose_prefix : Re.re :=
  Re.seqs [Re.Bol false;
           Re.plus (Re.Chr (fun c => isalpha_ascii c || mem_char c " ,-()"
                                     || Ascii.eqb c dquote || Ascii.eqb c squote));
           Re.chr ":"%char; Re.star Re.space].

(** the pattern [^```(?:python)?\n?] *)
Definition re_opening_fence : Re.re :=
  Re.seqs [Re.Bol false; Re.lit backticks; Re.opt (Re.lit "python"); Re.opt (Re.chr nl)].

(** the pattern [\n?```$] *)
Definition re_closing_fence : Re.re :=
  Re.seqs [Re.opt (Re.chr nl); Re.lit backticks; Re.Eol false].

Section WithPython.
Context `{Python}.

Definition _is_valid_python (code : string) : bool :=
  match ast_parse code with Some _ => true | None => false end.

(** what [generate_llm_fix] may return: nothing, or text that parses *)
Definition empty_or_valid (s : string) : Prop :=
  s = "" \/ (s <> "" /\ _is_valid_python s = true).

(** the inner [for j] loop: the blocks [lines[i:j]] for growing [j] *)
Fixpoint best_prefix (n : nat) (taken : list string) (remaining : list string)
  (best : string) : string :=
  match n, remaining with
  | S n', ln :: r =>
      let taken := (taken ++ [ln])%list in
      let block := strip (join NL taken) in
      let best :=
        if String.length block <? 10 then best
        else if _is_valid_python block && (String.length best <? String.length block)
        then block else best in
      best_prefix n' taken r best
  | _, _ => best
  end.

(** the outer [for i] loop *)
Fixpoint best_block (lines : list string) (best : string) : string :=
  match lines with
  | [] => best
  | _ :: r => best_block r (best_prefix 200 [] lines best)
  end.

Definition _extract_code_from_text (text : string) : result string :=
  if negb (truthy text) then Ok ""
  else
    let after_fence (k : result string) : result string :=
      match Re.search re_fence text with
      | Some m =>
          let candidate := strip (match Re.group m 1 with Some g => g | None => "" end) in
          if _is_valid_python candidate then Ok (candidate ++ NL)
          else
            rbind (Re.sub re_leading_comment "" candidate 0) (fun candidate2 =>
            if _is_valid_python candidate2 then Ok (candidate2 ++ NL) else k)
      | None => k
      end in
    after_fence
      (let best := best_block (splitlines text) "" in
       if truthy best then Ok (best ++ NL)
       else
         rbind (Re.sub re_prose_prefix "" text 0) (fun cleaned =>
         let cleaned := strip cleaned in
         if _is_valid_python cleaned then Ok (cleaned ++ NL)
         else Ok (take MAX_OUTPUT_CHARS (strip text)))).

Definition clean_llm_code (text : string) : result string :=
  if negb (truthy text) then Ok ""
  else
    let text := replace CRLF NL text in
    rbind (Re.sub re_opening_fence "" text 0) (fun text =>
    rbind (Re.sub re_closing_fence "" text 0) (fun text =>
    let text := strip text in
    rbind (_extract_code_from_text text) (fun extracted =>
    Ok (if endswith extracted NL then extracted
        else extracted ++ (if truthy extracted then NL else ""))))).

(** what [generate_llm_fix] makes of a non-empty answer of the model *)
Definition select_fix (raw : string) : result string :=
  rbind (clean_llm_code raw) (fun cleaned =>
  if truthy cleaned && _is_valid_python cleaned then Ok cleaned
  else
    rbind (_extract_code_from_text raw) (fun candidate =>
    if truthy candidate && _is_valid_python candidate then Ok candidate
    else if _is_valid_python raw then Ok raw
    else Ok "")).

Definition issue_line (it : LogicalIssue) : string :=
  "- " ++ issue_type it ++ ": " ++ issue_message it.

(** [_PROMPT_TEMPLATE.format(...)] *)
Definition format_prompt (code error logic user_instructions : string) : string :=
  "You are a local code assistant. The user provided the following code:" ++ NL ++ NL
  ++ "###" ++ NL ++ code ++ NL ++ "###" ++ NL ++ NL
  ++ "It produced this error:" ++ NL ++ NL
  ++ "###" ++ NL ++ error ++ NL ++ "###" ++ NL ++ NL
  ++ "Detected logical issues (if any):" ++ NL
  ++ "###" ++ NL ++ logic ++ NL ++ "###" ++ NL ++ NL
  ++ "User instructions:" ++ NL ++ user_instructions ++ NL ++ NL
  ++ "Please return only the corrected Python file contents (no explanation, no markdown, no fences)."
  ++ NL ++ "If you cannot safely fix the program, return an empty string." ++ NL.

(** the prompt [generate_llm_fix] sends: at most six issues are listed *)
Definition build_prompt (code error_message user_prompt : string)
  (logic_issues : list LogicalIssue) : string :=
  let logic_text :=
    match logic_issues with
    | [] => ""
    | _ => join NL (map issue_line (firstn 6 logic_issues))
    end in
  format_prompt code (if truthy error_message then error_message else "<none>")
                logic_text user_prompt.

Section WithCollaborators.
Context {W : Type} `{Collaborators W}.

Definition generate_llm_fix (code error_message user_prompt : string)
  (logic_issues : list LogicalIssue) (max_tokens : nat) : Eff.M W string :=
  let prompt := build_prompt code error_message user_prompt logic_issues in
  Eff.catch
    (Eff.bind (qwen_generate prompt max_tokens) (fun raw =>
     if negb (truthy raw) then Eff.ret ""
     else Eff.lift (select_fix raw)))
    (fun _ => Eff.ret "").

End WithCollaborators.
End WithPython.

End LlmFixer.

(** ** config/settings.py *)

Module Settings.
Definition MAX_ITERATIONS : nat := 5.
Definition MODEL_MAX_TOKENS : nat := 400.
End Settings.

(** ** iterations/iteration_report.py *)

Module IterationReport.

(** The [error_type] of a record is a member of [ErrorType] or, for the
    semantic pre-pass, a plain label. *)
Inductive error_label : Type :=
| Kind (e : ErrorTypes.ErrorType)
| Label (s : string).

(** The report of one iteration (the timestamp and the execution time, which
    is never given, are left out). *)
Record IterationRecord : Type := MkRecord {
  iteration : nat;
  fix_method : string;
  error_type : error_label;
  success : bool;
  stdout : string;
  stderr : string;
  code_snapshot : string
}.

Definition create_iteration_report (iteration : nat) (code stdout stderr fix_method : string)
  (error_type : error_label) (success : bool) : IterationRecord :=
  MkRecord iteration fix_method error_type success stdout stderr code.

(** a record of the main loop: numbered from 1, and clean when successful *)
Definition main_loop_record (r : IterationRecord) : Prop :=
  1 <= iteration r /\ (success r = true -> error_type r = Kind ErrorTypes.NONE).

(** the record of the semantic pre-pass *)
Definition semantic_record (r : IterationRecord) : Prop :=
  iteration r = 0 /\ success r = true /\ error_type r = Label "SEMANTIC".

Inductive change_type : Type := added | removed.

Record ChangeEntry : Type := MkChange {
  ch_iteration : nat;
  ch_fix_method : string;
  ch_error_type : error_label;
  ch_change_type : change_type;
  line_old : option nat;
  line_new : option nat;
  old_text : string;
  new_text : string;
  reason : string
}.

Record Report : Type := MkReport {
  final_status : string;
  total_iterations : nat;
  iterations : list IterationRecord;
  changes : list ChangeEntry
}.

(** [save_full_report]: the data written to the report file *)
Definition save_full_report (iteration_reports : list IterationRecord)
  (change_log : list ChangeEntry) (final_status : string) : Report :=
  MkReport final_status (List.length iteration_reports) iteration_reports change_log.

End IterationReport.

(** ** iterations/iteration_controller.py *)

Module IterationController.
Import PyStr ErrorTypes ErrorClassifier IterationReport.

Definition normalize_code (s : string) : string := rstrip (replace CRLF NL s).

Definition last_of (l : list string) : string := last l EmptyString.

(** the pattern [```(?:python)?\s*(.*?)```] with [re.DOTALL | re.IGNORECASE] *)
Definition re_python_fence : Re.re :=
  Re.seqs [Re.lit LlmFixer.backticks; Re.opt (Re.lit_i "python"); Re.star Re.space;
           Re.Grp 1 (Re.lazy_star Re.dot_all); Re.lit LlmFixer.backticks].

(** the pattern [```(.*?)```] with [re.DOTALL] *)
Definition re_raw_fence : Re.re :=
  Re.seqs [Re.lit LlmFixer.backticks; Re.Grp 1 (Re.lazy_star Re.dot_all);
           Re.lit LlmFixer.backticks].

(** the pattern [(?:\n(?: {4}|\t).+)+] *)
Definition re_indented_block : Re.re :=
  Re.plus (Re.seqs [Re.chr nl; Re.Alt (Re.lit "    ") (Re.chr tab); Re.plus Re.dot]).

(** the pattern [^( {4}|\t)] *)
Definition re_leading_indent : Re.re :=
  Re.Seq (Re.Bol false) (Re.Grp 1 (Re.Alt (Re.lit "    ") (Re.chr tab))).

(** the pattern [(def |class |=|\()] *)
Definition re_code_hint : Re.re :=
  Re.Grp 1 (Re.alts [Re.lit "def "; Re.lit "class "; Re.chr "="%char; Re.chr "("%char]).

(** [max(blocks, key=len)]: the first of the longest *)
Fixpoint longest (best : string) (blocks : list string) : string :=
  match blocks with
  | [] => best
  | b :: r => longest (if String.length best <? String.length b then b else best) r
  end.

(** [lines[-n:]] *)
Definition last_n (n : nat) (lines : list string) : list string :=
  skipn (List.length lines - n) lines.

(** the [for window in range(1, min(40, len(lines)) + 1)] loop *)
Fixpoint first_window (count window : nat) (lines : list string) : option string :=
  match count with
  | O => None
  | S count' =>
      let candidate := join NL (last_n window lines) in
      if Re.found re_code_hint candidate then Some (strip candidate)
      else first_window count' (S window) lines
  end.

Definition extract_code_from_llm (llm : string) : string :=
  if negb (truthy llm) then ""
  else
    match Re.findall1 re_python_fence llm with
    | _ :: _ as m => strip (last_of m)
    | [] =>
        match Re.findall1 re_raw_fence llm with
        | _ :: _ as m => strip (last_of m)
        | [] =>
            match Re.findall0 re_indented_block (NL ++ llm) with
            | b :: more =>
                let block := longest b more in
                (* the replacement is the empty template *)
                let lines := map (fun ln => Re.sub_fun re_leading_indent (fun _ => "") ln 0)
                                 (splitlines block) in
                strip (join NL lines)
            | [] =>
                let lines := map rstrip (filter (fun ln => truthy (strip ln)) (splitlines llm)) in
                match lines with
                | [] => ""
                | _ =>
                    match first_window (Nat.min 40 (List.length lines)) 1 lines with
                    | Some candidate => candidate
                    | None => strip (join NL (last_n 40 lines))
                    end
                end
            end
        end
    end.

Definition forced_diff_marker (iteration : nat) : string :=
  NL ++ "# forced-diff-" ++ decimal iteration ++ NL.

Definition ensure_diff (old_code new_code : string) (iteration : nat) : string :=
  if negb (String.eqb (normalize_code old_code) (normalize_code new_code)) then new_code
  else rstrip new_code ++ forced_diff_marker iteration.

(** *** Instant semantic intent detection *)

Definition anything : Re.re := Re.star Re.dot_all.
Definition any_on_line : Re.re := Re.star Re.dot.

Definition call_with (anyc : Re.re) (fn arg : string) : list Re.re :=
  [Re.lit fn; Re.star Re.space; Re.chr "("%char; anyc; Re.lit arg; anyc; Re.chr ")"%char].

(** [preorder\s*\(.*left.*\).*preorder\s*\(.*right.*\).*append], DOTALL *)
Definition re_preorder_append_last : Re.re :=
  Re.seqs (call_with anything "preorder" "left" ++ [anything]
           ++ call_with anything "preorder" "right" ++ [anything; Re.lit "append"]).

(** [preorder\s*\(.*left.*\).*append.*preorder\s*\(.*right.*\)], DOTALL *)
Definition re_preorder_append_between : Re.re :=
  Re.seqs (call_with anything "preorder" "left" ++ [anything; Re.lit "append"; anything]
           ++ call_with anything "preorder" "right").

(** [left.*append.*right], DOTALL *)
Definition re_inorder : Re.re :=
  Re.seqs [Re.lit "left"; anything; Re.lit "append"; anything; Re.lit "right"].

(** [append.*(left|right)] *)
Definition re_postorder : Re.re :=
  Re.seqs [Re.lit "append"; any_on_line; Re.Grp 1 (Re.Alt (Re.lit "left") (Re.lit "right"))].

(** [mid\s*=\s*\(?.*left.*\+.*right.*\)?\s*/\s*2] *)
Definition re_float_mid : Re.re :=
  Re.seqs [Re.lit "mid"; Re.star Re.space; Re.chr "="%char; Re.star Re.space;
           Re.opt (Re.chr "("%char); any_on_line; Re.lit "left"; any_on_line;
           Re.chr "+"%char; any_on_line; Re.lit "right"; any_on_line;
           Re.opt (Re.chr ")"%char); Re.star Re.space; Re.chr "/"%char;
           Re.star Re.space; Re.chr "2"%char].

(** [NAME\s*=\s*mid\s*(?!\+|\-)] *)
Definition re_pointer_to_mid (name : string) : Re.re :=
  Re.seqs [Re.lit name; Re.star Re.space; Re.chr "="%char; Re.star Re.space;
           Re.lit "mid"; Re.star Re.space;
           Re.NotAhead (Re.Alt (Re.chr "+"%char) (Re.chr "-"%char))].

Definition detect_semantic_conflicts (code : string) : bool :=
  let c := lower code in
  if contains "def preorder" c
     && (Re.found re_preorder_append_last c || Re.found re_preorder_append_between c)
  then true
  else if contains "def inorder" c && negb (Re.found re_inorder c) then true
  else if contains "def postorder" c && Re.found re_postorder c then true
  else if contains "def fib" c && contains "memo" c && contains "return memo[0]" c then true
  else if contains "def binary_search" c || contains "def binarysearch" c then
    if contains "mid =" c && negb (contains "//" c) && contains "+" c
       && Re.found re_float_mid c
    then true
    else if Re.found (re_pointer_to_mid "left") c then true
    else if Re.found (re_pointer_to_mid "right") c then true
    else false
  else false.

(** *** Diff tracker *)

(** the loop of [compute_changes] over the rows of the delta *)
Fixpoint changes_of_rows (rows : list string) (old_ln new_ln : nat) (iteration : nat)
  (method : string) (err_type : error_label) : list ChangeEntry :=
  match rows with
  | [] => []
  | row :: more =>
      let tag := take 2 row in
      let text := drop 2 row in
      if String.eqb tag "  " then
        changes_of_rows more (S old_ln) (S new_ln) iteration method err_type
      else if String.eqb tag "- " then
        MkChange iteration method err_type removed (Some (S old_ln)) None text "" "Removed"
        :: changes_of_rows more (S old_ln) new_ln iteration method err_type
      else if String.eqb tag "+ " then
        MkChange iteration method err_type added None (Some (S new_ln)) "" text "Added"
        :: changes_of_rows more old_ln (S new_ln) iteration method err_type
      else changes_of_rows more old_ln new_ln iteration method err_type
  end.

Section WithCollaborators.
Context `{Python} {W : Type} `{Collaborators W}.
Local Open Scope eff_scope.

Definition compute_changes (old_code new_code : string) (iteration : nat)
  (method : string) (err_type : error_label) : list ChangeEntry :=
  changes_of_rows (ndiff (splitlines old_code) (splitlines new_code)) 0 0
                  iteration method err_type.

(** *** The logical patch wrapper *)

Fixpoint _apply_logical_patches (code : string) (issues : list LogicalIssue) : string :=
  match issues with
  | [] => code
  | issue :: more =>
      match suggested_patch issue with
      | None => _apply_logical_patches code more
      | Some p =>
          if String.eqb (patch_kind p) "text_replace" then
            match Re.sub (patch_pattern p) (patch_replacement p) code 0 with
            | Ok patched => _apply_logical_patches patched more
            | Raise _ => _apply_logical_patches code more
            end
          else _apply_logical_patches code more
      end
  end.

Definition method_name (m : method) : string :=
  match m with AST => "AST" | LLM => "LLM" end.

Definition differs (a b : string) : bool :=
  negb (String.eqb (normalize_code a) (normalize_code b)).

Definition parses (code : string) : bool :=
  match ast_parse code with Some _ => true | None => false end.

Definition merge (base llm_out : string) (allow_full_rewrite : bool) : Eff.M W string :=
  Eff.lift (MergeStrategy.merge_llm_result base llm_out allow_full_rewrite).

(** *** The semantic pre-pass (iteration 0) *)

Definition default_semantic_prompt : string :=
  "Fix the logic according to the function naming semantics. Return a full corrected file or code block.".

Definition semantic_merge (original_code llm_raw extracted : string) : Eff.M W string :=
  Eff.catch
    (merged_candidate <- merge original_code llm_raw true ;;
     let fallback := if truthy merged_candidate then merged_candidate else original_code in
     if truthy merged_candidate && differs merged_candidate original_code
     then Eff.ret merged_candidate
     else if truthy extracted then
       merged_from_extracted <- merge original_code extracted true ;;
       if truthy merged_from_extracted && differs merged_from_extracted original_code
       then Eff.ret merged_from_extracted
       else if parses extracted then Eff.ret extracted
       else Eff.ret fallback
     else Eff.ret fallback)
    (fun _ =>
       if truthy extracted && (2 <? List.length (splitlines extracted))
       then Eff.ret extracted
       else Eff.ret original_code).

Definition semantic_prepass (original_code user_prompt : string)
  : Eff.M W (string * Report) :=
  llm_raw <- LlmFixer.generate_llm_fix original_code "SEMANTIC_INTENT_MISMATCH"
               (if truthy user_prompt then user_prompt else default_semantic_prompt)
               [] Settings.MODEL_MAX_TOKENS ;;
  let extracted := extract_code_from_llm llm_raw in
  new_code <- semantic_merge original_code llm_raw extracted ;;
  let diff_entries := compute_changes original_code new_code 0 "LLM" (Label "SEMANTIC") in
  let changeLog := diff_entries in
  let iteration_report :=
    create_iteration_report 0 new_code "" "" "LLM" (Label "SEMANTIC") true in
  Eff.ret (new_code, save_full_report [iteration_report] changeLog "SUCCESS").

(** *** The fix stage of one iteration *)

(** the [if method == "LLM"] block *)
Definition llm_fix (i : nat) (old_code new_code full_err user_prompt : string)
  (logic_issues : list LogicalIssue) : Eff.M W string :=
  llm_raw <- LlmFixer.generate_llm_fix new_code full_err user_prompt logic_issues
               Settings.MODEL_MAX_TOKENS ;;
  merged <- merge new_code llm_raw false ;;
  let extracted := extract_code_from_llm llm_raw in
  if differs merged new_code then Eff.ret merged
  else if truthy extracted && differs extracted new_code then
    merged_from_extracted <- merge new_code extracted true ;;
    if differs merged_from_extracted new_code then Eff.ret merged_from_extracted
    else
      Eff.catch
        (if parses extracted then
           merged_try <- merge new_code extracted true ;;
           if differs merged_try new_code then Eff.ret merged_try
           else Eff.ret (ensure_diff old_code old_code i)
         else Eff.raise "SyntaxError")
        (fun _ => Eff.ret (ensure_diff old_code old_code i))
  else Eff.ret (ensure_diff old_code old_code i).

(** the whole APPLY FIX stage: the new source and the method applied *)
Definition apply_fix (i : nat) (method0 : method) (error_type : ErrorType)
  (old_code full_err user_prompt : string) (logic_issues : list LogicalIssue)
  : Eff.M W (string * method) :=
  let new_code := old_code in
  let via_llm :=
    fixed <- llm_fix i old_code new_code full_err user_prompt logic_issues ;;
    Eff.ret (fixed, LLM) in
  match method0 with
  | AST =>
      match AstFixer.try_ast_fix error_type new_code with
      | Ok patched =>
          if differs patched new_code then Eff.ret (patched, AST) else via_llm
      | Raise _ => via_llm
      end
  | LLM => via_llm
  end.

(** *** The main repair loop *)

(** the iterations [i, i + 1, ...], [remaining] of them *)
Fixpoint repair_loop (remaining i : nat) (user_prompt code : string)
  (iteration_reports : list IterationRecord) (changeLog : list ChangeEntry)
  : Eff.M W (string * Report) :=
  match remaining with
  | O => Eff.ret (code, save_full_report iteration_reports changeLog "FAILED")
  | S remaining' =>
      '(stdout, stderr) <- run_in_sandbox code ;;
      let iteration_start_output := stdout in
      let '(runtime_error, full_err) := ErrorParser.parse_error stderr code "python" in
      logic_issues <- inspect_and_test code ;;
      let error_type := match logic_issues with [] => runtime_error | _ => LOGICAL end in
      if ErrorTypes.eqb error_type NONE && negb (truthy (strip user_prompt)) then
        let iteration_reports :=
          (iteration_reports
           ++ [create_iteration_report i code stdout stderr "NONE" (Kind error_type) true])%list in
        Eff.ret (code, save_full_report iteration_reports changeLog "SUCCESS")
      else
        let method :=
          if truthy (strip user_prompt) then LLM
          else if ErrorTypes.eqb error_type LOGICAL then LLM
          else choose_fix_method error_type in
        let code := SsrFixer.apply_ssr_fix code in
        let code :=
          if ErrorTypes.eqb error_type LOGICAL then _apply_logical_patches code logic_issues
          else code in
        let old_code := code in
        '(new_code, applied_method) <-
           apply_fix i method error_type old_code full_err user_prompt logic_issues ;;
        let new_code := SsrFixer.apply_ssr_fix new_code in
        let changeLog :=
          if differs new_code old_code
          then (changeLog ++ compute_changes old_code new_code i (method_name applied_method)
                                             (Kind error_type))%list
          else changeLog in
        '(val_stdout, val_stderr) <- run_in_sandbox new_code ;;
        let new_err := fst (ErrorParser.parse_error val_stderr new_code "python") in
        let new_err :=
          if negb (String.eqb val_stdout iteration_start_output) then LOGICAL else new_err in
        issues_after <- inspect_and_test new_code ;;
        let new_err := match issues_after with [] => new_err | _ => LOGICAL end in
        let success := fst (Validation.validate_iteration val_stdout val_stderr new_err) in
        let iteration_reports :=
          (iteration_reports
           ++ [create_iteration_report i new_code val_stdout val_stderr
                 (method_name applied_method) (Kind new_err) success])%list in
        match applied_method, new_err with
        | LLM, NONE => Eff.ret (new_code, save_full_report iteration_reports changeLog "SUCCESS")
        | _, _ => repair_loop remaining' (S i) user_prompt new_code iteration_reports changeLog
        end
  end.

Definition run_repair_loop (original_code user_prompt : string) (max_iterations : option nat)
  : Eff.M W (string * Report) :=
  let max_iter :=
    match max_iterations with
    | Some (S n) => S n
    | _ => Settings.MAX_ITERATIONS
    end in
  if detect_semantic_conflicts original_code
  then semantic_prepass original_code user_prompt
  else repair_loop max_iter 1 user_prompt original_code [] [].

End WithCollaborators.

End IterationController.

(** ** Replaying a change log

    The specification speaks of replaying the ChangeEntries in order on a
    source.  Following its words, a replay walks the entries in order over
    the lines of the source: a removed line is deleted at its recorded old
    position and an added line is inserted at its recorded new position.
    Old positions are shifted by the lines added and removed before them in
    the same iteration; the entries of a new iteration start afresh. *)

Module DiffReplay.
Import PyStr IterationReport.








End DiffReplay.

(** ** Notions used to state further properties *)

Module Notions.
Import PyStr.

(** a line of the sandbox logger, as [clean_stderr] recognises it *)
Definition is_sandbox_log_line (line : string) : bool :=
  startswith (strip line) "[20" && contains "] [INFO]" (strip line).

(** [n] spaces *)
Fixpoint spaces (n : nat) : string :=
  match n with
  | O => EmptyString
  | S n' => String " "%char (spaces n')
  end.

(** the character at index [i], as [s[i]] *)
Definition char_at (i : nat) (s : string) : option ascii := String.get i s.

(** the quote state of the SSR scanner after the whole text: [true] when the
    text does not end inside a string literal *)
Definition ends_outside_string (code : string) : bool :=
  let st := SsrFixer.scan_code (SsrFixer.Scan [] false false false) code in
  negb (SsrFixer.in_single st) && negb (SsrFixer.in_double st).

(** an entry of the per-line opener stack: an opener found at its recorded
    index, counted from [base] *)
Definition opener_at (base : nat) (line : string) (e : nat * ascii) : Prop :=
  SsrFixer.is_opener (snd e) = true /\ base <= fst e
  /\ String.get (fst e - base) line = Some (snd e).

(** two scanner states that agree on the pending closers and on the quote
    state; the escape flag may differ *)
Definition same_brackets (a b : SsrFixer.scan_state) : Prop :=
  SsrFixer.stack a = SsrFixer.stack b
  /\ SsrFixer.in_single a = SsrFixer.in_single b
  /\ SsrFixer.in_double a = SsrFixer.in_double b.

(** one of the three closing brackets *)
Definition closing (c : ascii) : bool :=
  Ascii.eqb c "]"%char || Ascii.eqb c ")"%char || Ascii.eqb c "}"%char.

(** the strict bracket check: every closer matches the innermost open
    bracket and nothing is left open; [stack] holds the expected closers *)
Fixpoint well_bracketed (stack : list ascii) (code : string) : bool :=
  match code with
  | EmptyString => match stack with [] => true | _ => false end
  | String ch r =>
      match AstFixer.closer_of ch with
      | Some cl => well_bracketed (cl :: stack) r
      | None =>
          match AstFixer.opener_of ch with
          | Some _ =>
              match stack with
              | top :: below => Ascii.eqb top ch && well_bracketed below r
              | [] => false
              end
          | None => well_bracketed stack r
          end
      end
  end.

(** the stack of open brackets of [drop_unmatched] and the stack of
    expected closers of [closer_stack] describe the same nesting *)
Definition nesting (openers closers : list ascii) : Prop :=
  Forall2 (fun o c => AstFixer.closer_of o = Some c) openers closers.

(** a line free of the newline character *)
Definition one_line (s : string) : Prop := PyStr.count_char PyStr.nl s = 0.

(** a line that opens a block, as [fix_missing_colons_and_indent] decides it *)
Definition opens_block (line : string) : bool :=
  existsb (PyStr.startswith (PyStr.strip line)) AstFixer.block_keywords.

(** the body of the loop of [collect_unresolved] *)
Definition collect_step (defined : list string) (used : list string) (n : Ast.node)
  : list string :=
  match n with
  | Ast.Name id Ast.Load =>
      if AstFixer.mem id defined then used else AstFixer.add id used
  | _ => used
  end.

(** an [ImportFrom] node without a module name, as [from . import x] gives *)
Definition relative_import (n : Ast.node) : bool :=
  match n with
  | Ast.ImportFrom None _ => true
  | _ => false
  end.

(** the test that ends the main loop after an iteration: the fix came from
    the model and no error is left *)
Definition stops (m : ErrorClassifier.method) (new_err : ErrorTypes.ErrorType) : bool :=
  match m, new_err with
  | ErrorClassifier.LLM, ErrorTypes.NONE => true
  | _, _ => false
  end.


(** a change entry that belongs to one of the iteration records: same
    iteration number, same fix method *)
Definition logged_by (records : list IterationReport.IterationRecord)
  (c : IterationReport.ChangeEntry) : Prop :=
  exists r, In r records
            /\ IterationReport.iteration r = IterationReport.ch_iteration c
            /\ IterationReport.fix_method r = IterationReport.ch_fix_method c.

(** a list of numbers in strictly increasing order, none below [lo] *)
Fixpoint ascending (lo : nat) (l : list nat) : Prop :=
  match l with
  | [] => True
  | x :: r => lo <= x /\ ascending (S x) r
  end.

(** *** Sources that the text passes of the structured fixer leave alone *)







Section WithPython.
Context `{Python}.


End WithPython.

End Notions.

(** ** Concrete collaborators for worked runs

    The worked runs below fix the answers of the collaborators: a parser
    given as a table of the texts it accepts with their trees (any other
    text is rejected), a sandbox and a language model given as functions,
    a logical detector that finds nothing, and a line diff that keeps the
    common leading lines, then removes and adds the rest. *)

Module Scenarios.
Import PyStr.

Definition python_builtins : list string :=
  [ "print"; "len"; "sum"; "range"; "int"; "str"; "list"; "dict"; "max"; "min" ].

Definition parse_table (table : list (string * Ast.node)) (code : string)
  : option Ast.node :=
  option_map snd (find (fun p => String.eqb (fst p) code) table).

Definition table_python (table : list (string * Ast.node)) : Python :=
  {| ast_parse := parse_table table;
     ast_unparse := fun _ => Raise "not needed";
     get_source_segment := fun _ _ => Ok None;
     builtin_names := python_builtins |}.

Fixpoint prefix_diff (old new : list string) : list string :=
  match old, new with
  | a :: old', b :: new' =>
      if String.eqb a b then ("  " ++ a) :: prefix_diff old' new'
      else (map (append "- ") old ++ map (append "+ ") new)%list
  | _, _ => (map (append "- ") old ++ map (append "+ ") new)%list
  end.

Definition fixed_world (sandbox : string -> string * string)
  (model : string -> result string) : Collaborators unit :=
  {| run_in_sandbox := fun code w => (Ok (sandbox code), w);
     qwen_generate := fun prompt _ w => (model prompt, w);
     inspect_and_test := fun _ w => (Ok [], w);
     ndiff := prefix_diff |}.

(** a language model whose backend is down *)
Definition model_down (prompt : string) : result string :=
  Raise "model backend unavailable".

(** a sandbox in which every program runs silently *)
Definition silent_sandbox (code : string) : string * string := ("", "").

(** *** Trees of small programs *)

Definition constant : Ast.node := Ast.Other [].
Definition assign (name : string) : Ast.node :=
  Ast.Assign [Ast.Name name Ast.Store] constant.
(** a function without parameters whose body reads no name *)
Definition def (name : string) : Ast.node :=
  Ast.FunctionDef name [Ast.Other []; Ast.Other [constant]].
(** [print(name)] as a statement *)
Definition print_call (name : string) : Ast.node :=
  Ast.Other [Ast.Other [Ast.Name "print" Ast.Load; Ast.Name name Ast.Load]].

Definition lines (l : list string) : string := String.concat EmptyString (map (fun x => x ++ NL) l).

(** *** A long function replaced by a short one *)

Definition long_function : string :=
  lines [ "def f():"; "    a = 1"; "    b = 2"; "    c = 3"; "    d = 4";
          "    e = 5"; "    g = 6"; "    h = 7"; "    return a" ].

Definition short_answer : string :=
  lines [ "def f():"; "    return 1" ] ++ "Hope this helps!".

Definition short_merged : string :=
  NL ++ lines [ "def f():"; "    return 1" ] ++ NL.

(** an answer of one line that parses *)
Definition tiny_answer : string := "x = 1".

Definition shrink_python : Python :=
  table_python [ (long_function, Ast.Module [def "f"]);
                 (short_merged, Ast.Module [def "f"]);
                 (tiny_answer, Ast.Module [assign "x"]) ].

(** *** A whole candidate adopted *)

Definition four_assignments : string := join NL [ "a = 1"; "b = 2"; "c = 3"; "d = 4" ].
Definition three_assignments : string := join NL [ "a = 1"; "b = 2"; "c = 7" ].

Definition adopt_python : Python :=
  table_python
    [ (four_assignments, Ast.Module [assign "a"; assign "b"; assign "c"; assign "d"]);
      (three_assignments, Ast.Module [assign "a"; assign "b"; assign "c"]) ].

(** *** One definition replaced by fourteen *)

Definition one_function : string := lines [ "def f():"; "    return 1" ].

Definition extra_names : list string := map (fun k => "n" ++ decimal k) (seq 1 13).

Definition extra_definitions : string :=
  String.concat EmptyString
    (map (fun n => NL ++ lines [ "def " ++ n ++ "():"; "    pass" ]) extra_names).

Definition fourteen_block : string :=
  lines [ "def f():"; "    return 0" ] ++ extra_definitions.

Definition fourteen_answer : string := fourteen_block ++ "Hope this helps!".

Definition fourteen_merged : string := NL ++ fourteen_block ++ NL.

Definition fourteen_python : Python :=
  table_python [ (one_function, Ast.Module [def "f"]);
                 (fourteen_merged, Ast.Module (def "f" :: map def extra_names)) ].

(** *** Five unclosed lists and a line no repair can save *)





(** *** An unclosed list that absorbs the next statement *)

Definition unclosed_list : string := join NL [ "xs = [1, 2"; "print(xs)" ].
Definition closed_list : string := join NL [ "xs = [1, 2]"; "print(xs)" ].
Definition marked_list : string := lines [ "xs = [1, 2]"; "print(xs)"; "# forced-diff-1" ].

Definition list_program : Ast.node :=
  Ast.Module [ Ast.Assign [Ast.Name "xs" Ast.Store] (Ast.Other [constant; constant]);
               print_call "xs" ].

Definition list_python : Python :=
  table_python [ (closed_list, list_program); (marked_list, list_program) ].

(** *** A variable whose name starts like a keyword *)



(** *** Runs of the controller *)

Definition fib_memo : string :=
  lines [ "def fib(n, memo):"; "    memo[n] = n"; "    return memo[0]" ].

Definition fib_program : Ast.node :=
  Ast.Module
    [ Ast.FunctionDef "fib"
        [ Ast.Other [Ast.Arg "n" []; Ast.Arg "memo" []];
          Ast.Assign [Ast.Other [Ast.Name "memo" Ast.Load; Ast.Name "n" Ast.Load]]
                     (Ast.Name "n" Ast.Load);
          Ast.Other [Ast.Other [Ast.Name "memo" Ast.Load; constant]] ] ].

Definition fib_python : Python := table_python [ (fib_memo, fib_program) ].

Definition offline_world : Collaborators unit := fixed_world silent_sandbox model_down.

Definition clean_program : string := "print(1)".

Definition clean_python : Python :=
  table_python
    [ (clean_program,
       Ast.Module [Ast.Other [Ast.Other [Ast.Name "print" Ast.Load; constant]]]) ].

Definition printing_sandbox (code : string) : string * string := ("1" ++ NL, "").

Definition printing_world : Collaborators unit := fixed_world printing_sandbox model_down.

(** the unclosed list fails to compile; once closed, the program prints *)
Definition list_sandbox (code : string) : string * string :=
  if String.eqb code unclosed_list then ("", "SyntaxError: '[' was never closed")
  else ("[1, 2]" ++ NL, "").

Definition list_world : Collaborators unit := fixed_world list_sandbox model_down.

(** the tree of [from . import helpers] *)
Definition relative_import_tree : Ast.node :=
  Ast.Module [Ast.ImportFrom None [Ast.Alias "helpers" None]].

(** a parser that knows [from . import helpers] *)
Definition relative_import_program : string := "from . import helpers".

Definition relative_python : Python :=
  table_python [ (relative_import_program, relative_import_tree) ].

(** two worked runs of the main loop: the unclosed list with no
    instructions, and the clean program with instructions *)
Definition list_run : result (string * IterationReport.Report) * unit :=
  @IterationController.run_repair_loop list_python unit list_world unclosed_list "" None tt.

Definition prompted_run : result (string * IterationReport.Report) * unit :=
  @IterationController.run_repair_loop clean_python unit printing_world clean_program
    "add a docstring" None tt.

(** the text and the report a run returned *)
Definition outcome (run : result (string * IterationReport.Report) * unit)
  : string * IterationReport.Report :=
  match fst run with
  | Ok r => r
  | Raise _ => ("", IterationReport.MkReport "" 0 [] [])
  end.

(** *** A fix that the post-pass undoes *)

(** the second line prints a closing parenthesis held in a string *)
Definition stall_program : string :=
  lines [ "undefined_name"; "print(" ++ String dquote (")" ++ String dquote ")") ].

(** the same text without its last parenthesis *)
Definition stall_dropped : string :=
  lines [ "undefined_name"; "print(" ++ String dquote (")" ++ String dquote "") ].

Definition stall_tree : Ast.node :=
  Ast.Module [ Ast.Other [Ast.Name "undefined_name" Ast.Load];
               Ast.Other [Ast.Other [Ast.Name "print" Ast.Load; constant]] ].

Definition stall_python : Python := table_python [ (stall_program, stall_tree) ].

(** every run stops on the first line *)
Definition stall_sandbox (code : string) : string * string :=
  ("", "NameError: name 'undefined_name' is not defined").

Definition stall_world : Collaborators unit := fixed_world stall_sandbox model_down.

(** *** A source the structured fixer has no reason to touch *)




End Scenarios.

(** * Properties *)

(** ** The error parser *)

Section ErrorParserFacts.
Import PyStr ErrorTypes ErrorParser.

Lemma matches_known_token_false (text : string) :
  matches_known_token text = false ->
  contains "SyntaxError" text = false /\ contains "NameError" text = false /\
  contains "IndexError" text = false /\ contains "KeyError" text = false /\
  contains "AttributeError" text = false /\ contains "ZeroDivisionError" text = false /\
  contains "RecursionError" text = false.
Proof.
  unfold matches_known_token, known_error_tokens. cbn [existsb].
  intros E. repeat (apply orb_false_elim in E; destruct E as [? E]).
  repeat split; assumption.
Qed.

(** C5, as the code has it: for the primary language an empty (or blank)
    diagnostic is mapped to NONE, and a non-blank diagnostic that matches
    none of the known error tokens is mapped to RUNTIME, with or without a
    traceback marker. *)
Theorem parse_error_python_default (stderr code : string) :
  (truthy (strip stderr) = false -> parse_error stderr code "python" = (NONE, "")) /\
  (truthy (strip stderr) = true -> matches_known_token stderr = false ->
   parse_error stderr code "python" = (RUNTIME, stderr)).
Proof.
  split.
  - intros E. unfold parse_error. cbn [truthy lower String.eqb].
    change (String.eqb (lower "python") "python") with true. cbv iota.
    rewrite E. reflexivity.
  - intros E K. apply matches_known_token_false in K.
    destruct K as (K1 & K2 & K3 & K4 & K5 & K6 & K7).
    unfold parse_error. change (String.eqb (lower (if truthy "python" then "python" else "python")) "python") with true.
    cbv iota. rewrite E, K1, K2, K3, K4, K5, K6, K7. cbn [negb].
    destruct (contains "Traceback" stderr); reflexivity.
Qed.

Lemma parse_error_python_default_witness :
  parse_error "" "x = 1" "python" = (NONE, "")
  /\ parse_error "boom" "x = 1" "python" = (RUNTIME, "boom").
Proof.
  split.
  - apply (proj1 (parse_error_python_default "" "x = 1")). reflexivity.
  - apply (proj2 (parse_error_python_default "boom" "x = 1")); reflexivity.
Defined.

(** C5 as stated fails: the diagnostic "boom" is not empty, matches no known
    token and has no traceback marker, yet it is not mapped to UNKNOWN. *)
Lemma parse_error_unknown_counterexample :
  truthy (strip "boom") = true /\ matches_known_token "boom" = false
  /\ has_traceback_marker "boom" = false
  /\ fst (parse_error "boom" "x = 1" "python") <> UNKNOWN.
Proof.
  repeat split; try reflexivity. vm_compute. discriminate.
Qed.

End ErrorParserFacts.

(** ** The generative fixer *)

Section LlmFixerFacts.
Context `{Python} {W : Type} `{Collaborators W}.
Import PyStr LlmFixer.

Lemma valid_is_empty_or_valid (s : string) :
  _is_valid_python s = true -> empty_or_valid s.
Proof.
  intros V. destruct s as [|c s']; [left; reflexivity|].
  right. split; [discriminate | exact V].
Qed.

Lemma select_fix_empty_or_valid (raw s : string) :
  select_fix raw = Ok s -> empty_or_valid s.
Proof.
  unfold select_fix. destruct (clean_llm_code raw) as [cleaned|]; cbn [rbind]; [|discriminate].
  destruct (truthy cleaned && _is_valid_python cleaned) eqn:E1.
  - intros [= <-]. apply andb_prop in E1. now apply valid_is_empty_or_valid.
  - destruct (_extract_code_from_text raw) as [candidate|]; cbn [rbind]; [|discriminate].
    destruct (truthy candidate && _is_valid_python candidate) eqn:E2.
    + intros [= <-]. apply andb_prop in E2. now apply valid_is_empty_or_valid.
    + destruct (_is_valid_python raw) eqn:E3; intros [= <-].
      * now apply valid_is_empty_or_valid.
      * left; reflexivity.
Qed.

(** C10: for every input, [generate_llm_fix] returns (it never raises), and
    what it returns is either the empty string or a non-empty text that
    parses as Python; a failure of the model backend, an empty answer, or an
    exception on the way all yield the empty string. *)
Theorem generate_llm_fix_empty_or_valid (code error_message user_prompt : string)
  (logic_issues : list LogicalIssue) (max_tokens : nat) (w : W) :
  let prompt := build_prompt code error_message user_prompt logic_issues in
  let call := generate_llm_fix code error_message user_prompt logic_issues max_tokens in
  (exists s w', call w = (Ok s, w') /\ empty_or_valid s)
  /\ (forall msg w', qwen_generate prompt max_tokens w = (Raise msg, w') ->
                     call w = (Ok "", w')).
Proof.
  cbv zeta. unfold generate_llm_fix, Eff.catch, Eff.bind, Eff.ret, Eff.lift.
  destruct (qwen_generate _ max_tokens w) as [[raw|msg] w1] eqn:Q.
  - split; [|intros ? ? [=]].
    destruct (truthy raw) eqn:T; cbn [negb].
    + destruct (select_fix raw) as [s|m] eqn:S.
      * exists s, w1. split; [reflexivity|]. eapply select_fix_empty_or_valid; eassumption.
      * exists "", w1. split; [reflexivity | left; reflexivity].
    + exists "", w1. split; [reflexivity | left; reflexivity].
  - split.
    + exists "", w1. split; [reflexivity | left; reflexivity].
    + intros msg' w' [= <- <-]. reflexivity.
Qed.

End LlmFixerFacts.

(** A run of [generate_llm_fix] with the model backend down. *)
Lemma generate_llm_fix_empty_or_valid_witness :
  @LlmFixer.generate_llm_fix Scenarios.shrink_python unit
    (Scenarios.fixed_world Scenarios.silent_sandbox Scenarios.model_down)
    "x = 1" "NameError: name 'y' is not defined" "" [] 400 tt = (Ok "", tt).
Proof.
  apply (proj2 (@generate_llm_fix_empty_or_valid Scenarios.shrink_python unit
           (Scenarios.fixed_world Scenarios.silent_sandbox Scenarios.model_down)
           "x = 1" "NameError: name 'y' is not defined" "" [] 400 tt)
         "model backend unavailable" tt).
  reflexivity.
Defined.

(** ** The merge strategy *)

Ltac split_match H :=
  match type of H with
  | context [rbind ?x _] => destruct x eqn:?
  | context [match ?x with _ => _ end] => destruct x eqn:?
  | context [if ?x then _ else _] => destruct x eqn:?
  end.

Ltac merge_cases H :=
  repeat (cbn [rbind fst snd] in H;
          first [ discriminate H
                | split_match H ]).

Section MergeFacts.
Context `{Python}.
Import PyStr MergeStrategy.

Lemma full_rewrite_or_base_cases (base llm_out : string) (allow : bool) (d : decision)
  (r : string) :
  full_rewrite_or_base base llm_out allow = Ok (d, r) ->
  (d = FellBack /\ r = base) \/ (d = RewriteRejected /\ r = base)
  \/ (d = RewriteAccepted /\ allow = true /\ _parse_ok r = true
      /\ too_many_additions base r = false).
Proof.
  unfold full_rewrite_or_base. intros E. merge_cases E;
    injection E as <- <-; auto.
  right; right. repeat split; try assumption.
  match goal with H : (_ && _)%bool = true |- _ => apply andb_prop in H; apply H end.
Qed.

Lemma merge_decide_cases (base llm_out : string) (allow : bool) (d : decision) (r : string) :
  merge_decide base llm_out allow = Ok (d, r) ->
  rejected d = true -> r = base.
Proof.
  unfold merge_decide. intros E R.
  destruct (negb (truthy llm_out)); [injection E as <- <-; reflexivity|].
  destruct (_parse_ok _).
  - merge_cases E; injection E as <- <-; try reflexivity; discriminate R.
  - destruct (ast_parse base); [|injection E as <- <-; reflexivity].
    match type of E with rbind ?x _ = _ => destruct x as [[merged done]|] end;
      cbn [rbind] in E; [|discriminate].
    destruct done; [injection E as <- <-; discriminate R|].
    destruct (regex_partial_merge _ merged); [injection E as <- <-; discriminate R|].
    apply full_rewrite_or_base_cases in E.
    destruct E as [[_ ->]|[[_ ->]|[-> _]]]; try reflexivity. discriminate R.
Qed.

(** C4: whatever the base, the output of the model and [allow_full_rewrite],
    a call of [merge_llm_result] that ends in a rejection (empty output,
    shrink rejection, excessive additions, unparseable base, or no
    substitution kept) returns the base string itself. *)
Theorem merge_rejected_returns_base (base llm_out : string) (allow_full_rewrite : bool)
  (d : decision) (r : string) :
  merge_decide base llm_out allow_full_rewrite = Ok (d, r) ->
  rejected d = true ->
  r = base /\ merge_llm_result base llm_out allow_full_rewrite = Ok base.
Proof.
  intros E R. pose proof (merge_decide_cases _ _ _ E R) as ->.
  split; [reflexivity|]. unfold merge_llm_result. rewrite E. reflexivity.
Qed.

(** The rejections by cause. *)

Lemma merge_empty_output (base : string) (allow : bool) :
  merge_decide base "" allow = Ok (EmptyOutput, base).
Proof. reflexivity. Qed.

Lemma merge_shrink_rejection (base llm_out : string) (allow : bool) :
  truthy llm_out = true ->
  let candidate := strip (_strip_non_code_prefix llm_out) in
  _parse_ok candidate = true ->
  0 < _count_lines base ->
  _count_lines candidate < Nat.max 1 (shrink_floor (_count_lines base)) ->
  merge_decide base llm_out allow = Ok (ShrinkRejected, base).
Proof.
  intros T candidate P B L. unfold merge_decide. rewrite T. cbn [negb].
  fold candidate. rewrite P.
  apply Nat.ltb_lt in B, L. rewrite B, L. reflexivity.
Qed.

Lemma merge_additions_rejection (base llm_out : string) (allow : bool) :
  truthy llm_out = true ->
  let candidate := strip (_strip_non_code_prefix llm_out) in
  _parse_ok candidate = true ->
  too_many_additions base candidate = true ->
  exists d, rejected d = true /\ merge_decide base llm_out allow = Ok (d, base).
Proof.
  intros T candidate P A. unfold merge_decide. rewrite T. cbn [negb].
  fold candidate. rewrite P, A.
  destruct (_ && _)%bool; eexists; (split; [|reflexivity]); reflexivity.
Qed.

Lemma merge_unparseable_base (base llm_out : string) (allow : bool) :
  truthy llm_out = true ->
  _parse_ok (strip (_strip_non_code_prefix llm_out)) = false ->
  _parse_ok base = false ->
  merge_decide base llm_out allow = Ok (BaseUnparseable, base).
Proof.
  intros T P B. unfold merge_decide. rewrite T, P. cbn [negb].
  unfold _parse_ok in B. destruct (ast_parse base); [discriminate|reflexivity].
Qed.

End MergeFacts.

(** A one-line answer to a text of nine lines is rejected as a shrink and
    the base kept. *)
Lemma merge_rejected_returns_base_witness :
  @MergeStrategy.merge_llm_result Scenarios.shrink_python Scenarios.long_function
     Scenarios.tiny_answer true = Ok Scenarios.long_function.
Proof.
  apply (proj2 (@merge_rejected_returns_base Scenarios.shrink_python
                  Scenarios.long_function Scenarios.tiny_answer true
                  MergeStrategy.ShrinkRejected Scenarios.long_function eq_refl eq_refl)).
Defined.

Section MergeBounds.
Context `{Python}.
Import PyStr MergeStrategy.

Lemma merge_decide_adopted (base llm_out : string) (allow : bool) (r : string) :
  merge_decide base llm_out allow = Ok (Adopted, r) ->
  r = strip (_strip_non_code_prefix llm_out)
  /\ _parse_ok r = true
  /\ ((0 <? _count_lines base)
      && (_count_lines r <? Nat.max 1 (shrink_floor (_count_lines base))))%bool = false
  /\ too_many_additions base r = false.
Proof.
  unfold merge_decide. intros E.
  destruct (negb (truthy llm_out)); [discriminate|].
  destruct (_parse_ok _) eqn:P.
  - destruct (_ && _)%bool eqn:S; [discriminate|].
    destruct (too_many_additions _ _) eqn:A; [discriminate|].
    injection E as <-. auto.
  - destruct (ast_parse base); [|discriminate].
    match type of E with rbind ?x _ = _ => destruct x as [[merged done]|] end;
      cbn [rbind] in E; [|discriminate].
    destruct done; [discriminate|].
    destruct (regex_partial_merge _ merged); [discriminate|].
    apply full_rewrite_or_base_cases in E.
    destruct E as [[? _]|[[? _]|[? _]]]; discriminate.
Qed.

(** C3, as the code has it: when [merge_llm_result] adopts a fully-parsing
    candidate whole, the result has at least the integer part of 0.75 times
    the line count of base (and at least one line when base is not empty);
    and a fully-parsing candidate with fewer lines than that is rejected,
    base being returned.  The partial substitutions are not subject to any
    bound on the line count. *)
Theorem merge_adopted_shrink_bound (base llm_out : string) (allow_full_rewrite : bool) :
  (forall r, merge_decide base llm_out allow_full_rewrite = Ok (Adopted, r) ->
             shrink_floor (_count_lines base) <= _count_lines r
             /\ (0 < _count_lines base -> 1 <= _count_lines r))
  /\ (truthy llm_out = true ->
      _parse_ok (strip (_strip_non_code_prefix llm_out)) = true ->
      _count_lines (strip (_strip_non_code_prefix llm_out))
        < shrink_floor (_count_lines base) ->
      merge_llm_result base llm_out allow_full_rewrite = Ok base).
Proof.
  split.
  - intros r E. apply merge_decide_adopted in E. destruct E as (_ & _ & S & _).
    apply andb_false_iff in S. destruct S as [S|S].
    + apply Nat.ltb_ge in S. assert (Z : _count_lines base = 0) by lia.
      rewrite Z. unfold shrink_floor. cbn. lia.
    + apply Nat.ltb_ge in S. lia.
  - intros T P L. unfold merge_llm_result.
    rewrite (@merge_shrink_rejection _ base llm_out allow_full_rewrite T P); [reflexivity| |].
    + unfold shrink_floor in L. destruct (_count_lines base); [cbn in L; lia | lia].
    + lia.
Qed.

(** C8 on the paths that check it: a candidate adopted whole, and a
    function-level rewrite that is accepted, add at most 12 top-level
    definitions and at most 8 imports to those of base. *)
Lemma merge_checked_additive_bound (base llm_out : string) (allow : bool) (d : decision)
  (r : string) :
  merge_decide base llm_out allow = Ok (d, r) ->
  d = Adopted \/ d = RewriteAccepted ->
  count_new (_top_level_names r) (_top_level_names base) <= MAX_ADDED_TOPLEVEL_DEFS
  /\ count_new (_imports_from_code r) (_imports_from_code base) <= MAX_ADDED_IMPORTS.
Proof.
  intros E D.
  assert (A : too_many_additions base r = false).
  { destruct D as [-> | ->].
    - apply merge_decide_adopted in E. apply E.
    - revert E. unfold merge_decide.
      destruct (negb (truthy llm_out)); [discriminate|].
      destruct (_parse_ok _).
      + intros E. merge_cases E; discriminate.
      + destruct (ast_parse base); [|discriminate].
        match goal with |- rbind ?x _ = _ -> _ => destruct x as [[merged done]|] end;
          cbn [rbind]; [|discriminate].
        destruct done; [discriminate|].
        destruct (regex_partial_merge _ merged); [discriminate|].
        intros E. apply full_rewrite_or_base_cases in E.
        destruct E as [[? _]|[[? _]|[_ E]]]; try discriminate. apply E. }
  unfold too_many_additions in A. apply orb_false_elim in A. destruct A as [A1 A2].
  apply Nat.ltb_ge in A1, A2. split; assumption.
Qed.

End MergeBounds.

Section MergeRuns.
Import PyStr MergeStrategy Scenarios.

(** A text of nine lines defining one function, and an answer of the model
    that does not parse as a whole but holds a two-line definition of the
    same function: the merge keeps the substitution, and the result has four
    lines, fewer than 0.75 times nine. *)
Lemma merge_partial_shrink_counterexample :
  @merge_decide shrink_python long_function short_answer false
    = Ok (RegexMerged, short_merged)
  /\ _count_lines long_function = 9
  /\ _count_lines short_merged = 4
  /\ _count_lines short_merged < (3 * _count_lines long_function + 3) / 4.
Proof.
  vm_compute. repeat split; lia.
Qed.

Lemma merge_adopted_shrink_bound_witness :
  (@merge_decide adopt_python four_assignments three_assignments false
     = Ok (Adopted, three_assignments)
   /\ shrink_floor (_count_lines four_assignments) <= _count_lines three_assignments)
  /\ @merge_llm_result shrink_python long_function tiny_answer false = Ok long_function.
Proof.
  split; [split; [reflexivity|] |].
  - apply (proj1 (@merge_adopted_shrink_bound adopt_python four_assignments
                    three_assignments false) three_assignments eq_refl).
  - apply (proj2 (@merge_adopted_shrink_bound shrink_python long_function
                    tiny_answer false)); [reflexivity | reflexivity | vm_compute; lia].
Defined.

(** C8 at a failing input: base defines [f]; the answer of the model
    redefines [f], goes on with thirteen new functions and ends in a line of
    prose, so that it does not parse as a whole.  The regex-level partial
    merge puts the whole block in place of [f] and returns it unchecked:
    thirteen top-level definitions are new, more than the twelve allowed. *)
Lemma merge_regex_path_adds_thirteen :
  @merge_decide fourteen_python one_function fourteen_answer false
    = Ok (RegexMerged, fourteen_merged)
  /\ count_new (@_top_level_names fourteen_python fourteen_merged)
               (@_top_level_names fourteen_python one_function) = 13
  /\ MAX_ADDED_TOPLEVEL_DEFS < 13.
Proof.
  vm_compute. repeat split; lia.
Qed.

End MergeRuns.

(** ** Structural semantic repair *)

Section SsrFacts.
Context `{Python}.
Import PyStr SsrFixer.



End SsrFacts.

Section SsrRuns.
Import PyStr SsrFixer Scenarios.



End SsrRuns.

(** ** The structured fixer *)

Section AstFixerRuns.
Import PyStr AstFixer Scenarios.


End AstFixerRuns.

(** ** The change log *)

Section DiffFacts.
Import PyStr IterationReport IterationController DiffReplay.
Local Open Scope list_scope.







Section WithCollaborators.
Context `{Python} {W : Type} `{Collaborators W}.


End WithCollaborators.
End DiffFacts.

Section DiffRuns.
Import PyStr IterationReport IterationController DiffReplay Scenarios.



End DiffRuns.

(** ** The iteration controller *)

Ltac run_cases H :=
  repeat first
    [ discriminate H
    | match type of H with
      | (Ok _, _) = (Ok _, _) => fail 1
      | context [match ?x with _ => _ end] => destruct x eqn:?
      | context [if ?x then _ else _] => destruct x eqn:?
      end ].

Section ControllerFacts.
Context `{Python} {W : Type} `{Collaborators W}.
Import PyStr ErrorTypes ErrorClassifier IterationReport IterationController.

Lemma rstrip_by_tail (p : ascii -> bool) (s : string) :
  exists tail, s = rstrip_by p s ++ tail /\ Re.all_chars p tail = true.
Proof.
  induction s as [|c s' (tail & E & A)].
  - exists "". split; reflexivity.
  - cbn [rstrip_by]. destruct (rstrip_by p s') as [|d r] eqn:R.
    + destruct (p c) eqn:Pc.
      * exists (String c s'). split; [reflexivity|]. cbn. rewrite Pc.
        cbn in E. now rewrite E.
      * exists tail. split; [|assumption]. cbn. cbn in E. now rewrite <- E.
    + exists tail. split; [|assumption]. cbn. cbn in E. now rewrite <- E.
Qed.

Lemma append_cancel (a b c : string) : a ++ b = a ++ c -> b = c.
Proof. induction a; cbn; [auto|]. intros [= E]. auto. Qed.

Lemma forced_marker_differs (old : string) (i : nat) :
  rstrip old ++ forced_diff_marker i <> old.
Proof.
  intros E. destruct (rstrip_by_tail isspace old) as (tail & D & A).
  fold (rstrip old) in D. rewrite D in E at 2.
  apply append_cancel in E. rewrite <- E in A. cbn in A. discriminate.
Qed.

Lemma ensure_diff_same (old : string) (i : nat) :
  ensure_diff old old i = rstrip old ++ forced_diff_marker i.
Proof. unfold ensure_diff. now rewrite String.eqb_refl. Qed.

Lemma differs_neq (a b : string) : differs a b = true -> a <> b.
Proof.
  unfold differs. intros D ->. rewrite String.eqb_refl in D. discriminate.
Qed.

Lemma llm_fix_progress (i : nat) (old full_err user_prompt : string)
  (logic_issues : list LogicalIssue) (w w' : W) (fixed : string) :
  llm_fix i old old full_err user_prompt logic_issues w = (Ok fixed, w') ->
  differs fixed old = true \/ fixed = ensure_diff old old i.
Proof.
  unfold llm_fix, merge, Eff.bind, Eff.catch, Eff.ret, Eff.lift, Eff.raise.
  intros E. run_cases E; injection E as <- <-; auto.
  all: match goal with
       | Hp : (if parses ?x then _ else _) _ = _ |- _ =>
           destruct (parses x); [injection Hp as <- <-; auto | discriminate Hp]
       end.
Qed.

(** The fix stage always changes the source it is given: either a fixer
    changed it, even up to normalisation, or it is the entering source with
    its trailing whitespace replaced by the forced-difference marker naming
    the iteration index. *)
Lemma apply_fix_changes_source (i : nat) (method0 : method) (error_type : ErrorType)
  (old_code full_err user_prompt : string) (logic_issues : list LogicalIssue)
  (w w' : W) (fixed : string) (applied : method) :
  apply_fix i method0 error_type old_code full_err user_prompt logic_issues w
    = (Ok (fixed, applied), w') ->
  fixed <> old_code
  /\ (differs fixed old_code = true
      \/ fixed = rstrip old_code ++ forced_diff_marker i).
Proof.
  intros E.
  assert (D : differs fixed old_code = true \/ fixed = ensure_diff old_code old_code i).
  { revert E. unfold apply_fix, Eff.bind, Eff.ret. intros E.
    destruct method0.
    - destruct (AstFixer.try_ast_fix error_type old_code) as [patched|].
      + destruct (differs patched old_code) eqn:P.
        * injection E as <- <- <-. now left.
        * destruct (llm_fix _ _ _ _ _ _ w) as [[f|] w1] eqn:L; [|discriminate].
          injection E as <- <- <-. eapply llm_fix_progress; eassumption.
      + destruct (llm_fix _ _ _ _ _ _ w) as [[f|] w1] eqn:L; [|discriminate].
        injection E as <- <- <-. eapply llm_fix_progress; eassumption.
    - destruct (llm_fix _ _ _ _ _ _ w) as [[f|] w1] eqn:L; [|discriminate].
      injection E as <- <- <-. eapply llm_fix_progress; eassumption. }
  rewrite ensure_diff_same in D. split; [|exact D].
  destruct D as [D | ->]; [now apply differs_neq | apply forced_marker_differs].
Qed.

End ControllerFacts.

Section ControllerRecords.
Context `{Python} {W : Type} `{Collaborators W}.
Import PyStr ErrorTypes ErrorClassifier IterationReport IterationController.
Local Open Scope list_scope.

Lemma is_success_none (out err : string) (kind : ErrorType) :
  Validation.is_success out err kind = true -> kind = NONE.
Proof. destruct kind; cbn; intros E; try discriminate; reflexivity. Qed.

Lemma validate_success_none (out err : string) (kind : ErrorType) :
  fst (Validation.validate_iteration out err kind) = true -> kind = NONE.
Proof.
  unfold Validation.validate_iteration.
  destruct (Validation.is_success out err kind) eqn:S.
  - intros _. eapply is_success_none; eassumption.
  - repeat match goal with
           | |- context [if ?c then _ else _] => destruct c
           end; cbn; discriminate.
Qed.

Lemma repair_loop_records :
  forall (remaining i : nat) (user_prompt code : string)
         (reports : list IterationRecord) (log : list ChangeEntry) (w w' : W)
         (res : string * Report),
    1 <= i ->
    Forall main_loop_record reports ->
    repair_loop remaining i user_prompt code reports log w = (Ok res, w') ->
    Forall main_loop_record (iterations (snd res)).
Proof.
  induction remaining as [|remaining IH]; intros i user_prompt code reports log w w' res I F E.
  - cbn in E. injection E as <- <-. exact F.
  - cbn [repair_loop] in E. unfold Eff.bind, Eff.ret in E.
    destruct (run_in_sandbox code w) as [[[out err]|] w1]; [|discriminate].
    destruct (ErrorParser.parse_error err code "python") as [runtime_error full_err].
    destruct (inspect_and_test code w1) as [[issues|] w2]; [|discriminate].
    set (error_type := match issues with [] => runtime_error | _ => LOGICAL end) in *.
    destruct (ErrorTypes.eqb error_type NONE && negb (truthy (strip user_prompt)))%bool eqn:Early.
    + injection E as <- <-. cbn. apply Forall_app. split; [exact F|].
      constructor; [|constructor]. split; [exact I|]. intros _. cbn.
      apply andb_prop in Early. destruct Early as [Early _].
      destruct error_type; try discriminate. reflexivity.
    + destruct (apply_fix _ _ _ _ _ _ _ w2) as [[[fixed applied]|] w3]; [|discriminate].
      destruct (run_in_sandbox _ w3) as [[[vout verr]|] w4]; [|discriminate].
      destruct (inspect_and_test _ w4) as [[issues_after|] w5]; [|discriminate].
      cbv zeta in E.
      match type of E with
      | context [create_iteration_report i ?c vout verr ?m (Kind ?k) _] =>
          remember k as new_err eqn:Nerr in E;
          assert (G : main_loop_record
                        (create_iteration_report i c vout verr m (Kind new_err)
                           (fst (Validation.validate_iteration vout verr new_err))))
      end.
      { split; [exact I|]. cbn. intros S. apply validate_success_none in S.
        now rewrite S. }
      assert (F' : forall r, main_loop_record r -> Forall main_loop_record (reports ++ [r])).
      { intros r Gr. apply Forall_app. split; [exact F | constructor; [exact Gr | constructor]]. }
      clear Nerr. destruct applied.
      * eapply (IH (S i)); [lia | apply F', G | exact E].
      * destruct new_err;
          try (eapply (IH (S i)); [lia | apply F', G | exact E]).
        injection E as <- <-. cbn. apply F', G.
Qed.

(** C1, as the code has it: in every report of a repair run, a record of
    the main loop (index 1 and up) with [success = true] has the error kind
    NONE; the only other record is that of the semantic-intent pre-pass,
    which has index 0, [success = true] and the error label SEMANTIC. *)
Theorem run_repair_loop_records (original_code user_prompt : string)
  (max_iterations : option nat) (w w' : W) (final : string) (report : Report) :
  run_repair_loop original_code user_prompt max_iterations w = (Ok (final, report), w') ->
  Forall (fun r => main_loop_record r \/ semantic_record r) (iterations report).
Proof.
  unfold run_repair_loop. destruct (detect_semantic_conflicts original_code).
  - unfold semantic_prepass, Eff.bind, Eff.ret. intros E.
    destruct (LlmFixer.generate_llm_fix _ _ _ _ _ w) as [[raw|] w1]; [|discriminate].
    destruct (semantic_merge _ _ _ w1) as [[new_code|] w2]; [|discriminate].
    injection E as <- <- <-. cbn. constructor; [|constructor].
    right. repeat split.
  - intros E. apply repair_loop_records in E; [| lia | constructor].
    cbn in E. eapply Forall_impl; [|exact E]. intros r G. now left.
Qed.

End ControllerRecords.

Section ControllerRuns.
Import PyStr ErrorTypes ErrorClassifier IterationReport IterationController Scenarios.

(** The fix stage of iteration 1 on the closed list: the structured fixer
    changes nothing, the model is down, and the marker is appended. *)
Lemma apply_fix_on_closed_list :
  @apply_fix list_python unit list_world 1 AST SYNTAX closed_list
     "SyntaxError: '[' was never closed" "" [] tt = (Ok (marked_list, LLM), tt)
  /\ marked_list <> closed_list.
Proof.
  split; [reflexivity|].
  apply (@apply_fix_changes_source list_python unit list_world 1 AST SYNTAX closed_list
           "SyntaxError: '[' was never closed" "" [] tt tt marked_list LLM eq_refl).
Defined.

(** An iteration that ends at the early-success check is recorded and
    returns the source as it received it: a program that runs cleanly, with
    no user prompt, is left alone. *)
Lemma early_success_keeps_source :
  match fst (@run_repair_loop clean_python unit printing_world clean_program "" None tt) with
  | Ok (final, report) =>
      final = clean_program
      /\ map iteration (iterations report) = [1]
      /\ map code_snapshot (iterations report) = [clean_program]
  | Raise _ => False
  end.
Proof.
  vm_compute. repeat split.
Qed.

(** C2: the run on a program whose first line reads an undefined name and
    whose second line prints a closing parenthesis held in a string.  In
    every iteration the structured fixer drops the last parenthesis (its
    bracket scan does not know strings), so the fix stage does hand on a
    changed text; the SSR post-pass, whose closing scan does know strings,
    puts the parenthesis back.  The source at the end of each iteration is
    the source the iteration started with, no forced-difference marker is
    appended, nothing is logged, and the run uses its five iterations and
    fails. *)
Theorem run_repair_loop_stalls :
  @AstFixer.try_ast_fix stall_python NAME stall_program = Ok stall_dropped
  /\ differs stall_dropped stall_program = true
  /\ @SsrFixer.apply_ssr_fix stall_python stall_dropped = stall_program
  /\ match fst (@run_repair_loop stall_python unit stall_world stall_program "" None tt) with
     | Ok (final, report) =>
         final = stall_program
         /\ final_status report = "FAILED"
         /\ map (fun r => (iteration r, fix_method r, code_snapshot r)) (iterations report)
            = [ (1, "AST", stall_program); (2, "AST", stall_program);
                (3, "AST", stall_program); (4, "AST", stall_program);
                (5, "AST", stall_program) ]
         /\ changes report = []
     | Raise _ => False
     end.
Proof.
  vm_compute. repeat split.
Qed.

Lemma run_repair_loop_records_witness :
  Forall (fun r => main_loop_record r \/ semantic_record r)
         [ MkRecord 1 "NONE" (Kind NONE) true ("1" ++ NL) "" clean_program ].
Proof.
  apply (@run_repair_loop_records clean_python unit printing_world clean_program ""
           None tt tt clean_program
           (MkReport "SUCCESS" 1
              [ MkRecord 1 "NONE" (Kind NONE) true ("1" ++ NL) "" clean_program ] [])).
  reflexivity.
Defined.

(** C1 as stated fails: a source that returns [memo[0]] from a memoised
    [fib] triggers the semantic-intent pre-pass, whose record has index 0,
    [success = true] and the error label SEMANTIC, which is not NONE. *)
Lemma semantic_record_not_clean_counterexample :
  match fst (@run_repair_loop fib_python unit offline_world fib_memo "" None tt) with
  | Ok (final, report) =>
      map (fun r => (iteration r, success r, error_type r)) (iterations report)
        = [ (0, true, Label "SEMANTIC") ]
      /\ Label "SEMANTIC" <> Kind NONE
  | Raise _ => False
  end.
Proof.
  vm_compute. split; [reflexivity | discriminate].
Qed.

End ControllerRuns.

(** * Further properties of the engine *)

(** ** Characters and case *)

Section CharFacts.
Import PyStr.

Lemma lower_char_idempotent (c : ascii) : lower_char (lower_char c) = lower_char c.
Proof. destruct c as [[] [] [] [] [] [] [] []]; vm_compute; reflexivity. Qed.

Lemma lower_idempotent (s : string) : lower (lower s) = lower s.
Proof.
  induction s as [|c s IH]; cbn; [reflexivity|].
  now rewrite lower_char_idempotent, IH.
Qed.

Lemma truthy_lower (s : string) : truthy (lower s) = truthy s.
Proof. destruct s; reflexivity. Qed.

End CharFacts.

(** ** The error parser and the classifier *)

Ltac split_ifs :=
  repeat match goal with
         | |- context [if ?c then _ else _] => destruct c eqn:?
         end.

Section ErrorParserMore.
Import PyStr ErrorTypes ErrorParser ErrorClassifier.

(** X1: whatever the diagnostic and the language, [parse_error] returns the
    kind NONE together with an empty text, or another kind together with
    the diagnostic exactly as it was given; the kinds it can return are
    SYNTAX, NAME, INDEX, KEY, ATTRIBUTE, ZERO_DIVISION, RECURSION, TYPE and
    RUNTIME. *)
Theorem parse_error_kind_and_text (stderr code language : string) :
  (parse_error stderr code language = (NONE, ""))
  \/ (snd (parse_error stderr code language) = stderr
      /\ In (fst (parse_error stderr code language))
            [SYNTAX; NAME; INDEX; KEY; ATTRIBUTE; ZERO_DIVISION; RECURSION; TYPE; RUNTIME]).
Proof.
  unfold parse_error. split_ifs; cbn [fst snd In]; auto 20.
Qed.

(** X2: the language name is read without regard to letter case, and a
    missing (empty) language means Python. *)
Theorem parse_error_language_case (stderr code language : string) :
  parse_error stderr code (lower language) = parse_error stderr code language
  /\ parse_error stderr code "" = parse_error stderr code "python".
Proof.
  split; [|reflexivity].
  unfold parse_error. rewrite truthy_lower.
  destruct (truthy language); [now rewrite lower_idempotent | reflexivity].
Qed.

(** X3: for a Python diagnostic, the classifier chooses the structured
    fixer only when the diagnostic names a syntax, name, key or attribute
    error. *)
Theorem structured_only_for_named_errors (stderr code : string) :
  choose_fix_method (fst (parse_error stderr code "python")) = AST ->
  contains "SyntaxError" stderr = true \/ contains "NameError" stderr = true
  \/ contains "KeyError" stderr = true \/ contains "AttributeError" stderr = true.
Proof.
  unfold parse_error.
  change (String.eqb (lower (if truthy "python" then "python" else "python")) "python")
    with true. cbv iota.
  destruct (negb (truthy (strip stderr))); [cbn; discriminate|].
  destruct (contains "SyntaxError" stderr); [auto|].
  destruct (contains "NameError" stderr); [auto|].
  destruct (contains "IndexError" stderr); [cbn; discriminate|].
  destruct (contains "KeyError" stderr); [auto|].
  destruct (contains "AttributeError" stderr); [auto|].
  split_ifs; cbn; discriminate.
Qed.

Lemma structured_only_for_named_errors_witness :
  contains "SyntaxError" "SyntaxError: invalid syntax" = true
  \/ contains "NameError" "SyntaxError: invalid syntax" = true
  \/ contains "KeyError" "SyntaxError: invalid syntax" = true
  \/ contains "AttributeError" "SyntaxError: invalid syntax" = true.
Proof.
  apply (structured_only_for_named_errors "SyntaxError: invalid syntax" "x = (").
  reflexivity.
Defined.

End ErrorParserMore.

(** ** Validation *)

Section ValidationMore.
Import PyStr ErrorTypes Validation Notions.

Lemma filter_none {A} (f : A -> bool) (l : list A) :
  forallb f l = true -> filter (fun x => negb (f x)) l = [].
Proof.
  induction l as [|x l IH]; cbn; [reflexivity|].
  destruct (f x); cbn; [exact IH | discriminate].
Qed.

(** X4: a diagnostic stream made of sandbox logger lines only (timestamped
    [INFO] lines) is cleaned to the empty text, and with the kind NONE the
    iteration is then validated as a success, whatever the output. *)
Theorem log_noise_is_success (stdout stderr : string) :
  forallb is_sandbox_log_line (splitlines stderr) = true ->
  clean_stderr stderr = ""
  /\ validate_iteration stdout stderr NONE = (true, "Execution succeeded.").
Proof.
  intros N.
  assert (C : clean_stderr stderr = "").
  { pose proof (filter_none is_sandbox_log_line _ N) as F.
    unfold clean_stderr. cbv zeta.
    change (filter _ (splitlines stderr))
      with (filter (fun x => negb (is_sandbox_log_line x)) (splitlines stderr)).
    rewrite F. reflexivity. }
  split; [exact C|].
  unfold validate_iteration, is_success. cbn [eqb negb]. now rewrite C.
Qed.

Lemma log_noise_is_success_witness :
  validate_iteration "4.0"
    "[2025-11-27 13:34:39] [INFO] Executing sandboxed code..." NONE
  = (true, "Execution succeeded.").
Proof.
  apply (log_noise_is_success "4.0"
           "[2025-11-27 13:34:39] [INFO] Executing sandboxed code..." eq_refl).
Defined.

End ValidationMore.

(** ** Structural semantic repair: the helpers *)

Section SsrHelpers.
Import PyStr SsrFixer Notions.

Lemma scan_line_entries (line : string) :
  forall (i : nat) (stack0 : list (nat * ascii)) (e : nat * ascii),
    In e (scan_line i stack0 line) -> In e stack0 \/ opener_at i line e.
Proof.
  induction line as [|ch line IH]; intros i stack0 e I; cbn [scan_line] in I; [now left|].
  apply IH in I. destruct I as [I|(O & L & G)].
  - destruct (is_opener ch) eqn:Op; cbv iota in I.
    + cbn [In] in I. destruct I as [<-|I]; [|now left].
      right. repeat split; cbn; [exact Op | lia | now rewrite Nat.sub_diag].
    + destruct (is_closer ch); [|now left].
      destruct stack0 as [|[j o] below]; [now left|].
      destruct (opt_eqb (closer_of o) ch); [left; cbn [In]; now right | now left].
  - right. repeat split; [exact O | lia|].
    replace (fst e - i) with (S (fst e - S i)) by lia. exact G.
Qed.

(** X5: when [_first_unclosed_opener_in_line] reports an opener, the
    reported character is one of the three openers and stands in the line at
    the reported index. *)
Theorem first_unclosed_opener_sound (line : string) (idx : nat) (ch : ascii) :
  _first_unclosed_opener_in_line line = Some (idx, ch) ->
  is_opener ch = true /\ char_at idx line = Some ch.
Proof.
  unfold _first_unclosed_opener_in_line.
  destruct (rev (scan_line 0 [] line)) as [|bottom rest] eqn:R; [discriminate|].
  intros [= ->].
  assert (I : In (idx, ch) (scan_line 0 [] line)).
  { apply in_rev. rewrite R. now left. }
  apply scan_line_entries in I. destruct I as [[]|(O & _ & G)].
  cbn in O, G. rewrite Nat.sub_0_r in G. split; assumption.
Qed.

Lemma first_unclosed_opener_sound_witness :
  is_opener "["%char = true /\ char_at 5 "xs = [1, 2" = Some "["%char.
Proof.
  apply (first_unclosed_opener_sound "xs = [1, 2" eq_refl).
Defined.

(** X6: [_dedent_line] only removes leading spaces, and never more than it
    was asked to: the line is the result preceded by at most
    [indent_to_remove] spaces. *)
Theorem dedent_removes_leading_spaces (line : string) (indent_to_remove : nat) :
  exists n, n <= indent_to_remove
            /\ line = spaces n ++ _dedent_line line indent_to_remove.
Proof.
  revert line. induction indent_to_remove as [|k IH]; intros line.
  - exists 0. split; [lia | destruct line; reflexivity].
  - destruct line as [|c r]; [exists 0; split; [lia | reflexivity]|].
    cbn [_dedent_line]. destruct (Ascii.eqb c " "%char) eqn:E.
    + apply Ascii.eqb_eq in E. subst c. destruct (IH r) as (n & L & D).
      exists (S n). split; [lia|]. cbn. now rewrite <- D.
    + exists 0. split; [lia | reflexivity].
Qed.

Lemma set_nth_length (i : nat) (x : string) (l : list string) :
  List.length (set_nth i x l) = List.length l.
Proof.
  revert i. induction l as [|y l IH]; intros [|i]; cbn; try reflexivity.
  now rewrite IH.
Qed.

Lemma set_nth_other (i j : nat) (x d : string) (l : list string) :
  j <> i -> nth j (set_nth i x l) d = nth j l d.
Proof.
  revert i j. induction l as [|y l IH]; intros [|i] [|j] N; cbn; try reflexivity;
    try lia.
  apply IH. lia.
Qed.

(** X7: [_split_out_of_literal] keeps the number of lines and touches at
    most two of them: the line of the opener and the line after it. *)
Theorem split_out_touches_two_lines (lines : list string) (start_idx : nat) :
  List.length (_split_out_of_literal lines start_idx) = List.length lines
  /\ forall j d, j <> start_idx -> j <> start_idx + 1 ->
       nth j (_split_out_of_literal lines start_idx) d = nth j lines d.
Proof.
  unfold _split_out_of_literal.
  destruct (_first_unclosed_opener_in_line _) as [[opener_idx opener_char]|];
    [|split; reflexivity].
  set (l1 := set_nth start_idx _ lines).
  assert (L1 : List.length l1 = List.length lines) by apply set_nth_length.
  split.
  - split_ifs; rewrite ?set_nth_length; exact L1.
  - intros j d N1 N2.
    assert (E1 : nth j l1 d = nth j lines d) by (now apply set_nth_other).
    split_ifs; rewrite ?set_nth_other by assumption; exact E1.
Qed.

Lemma split_out_touches_two_lines_witness :
  nth 2 (_split_out_of_literal ["xs = [1, 2"; "    print(xs)"; "y = 3"] 0) ""
  = nth 2 ["xs = [1, 2"; "    print(xs)"; "y = 3"] "".
Proof.
  apply (proj2 (split_out_touches_two_lines ["xs = [1, 2"; "    print(xs)"; "y = 3"] 0));
    lia.
Defined.

End SsrHelpers.

(** ** Structural semantic repair: the conservative closure *)

Section SsrClosure.
Import PyStr SsrFixer Notions.

Lemma scan_code_app (a b : string) (st : scan_state) :
  scan_code st (a ++ b) = scan_code (scan_code st a) b.
Proof. revert st. induction a as [|c a IH]; intros st; cbn; [reflexivity | apply IH]. Qed.

Lemma scan_step_space (st : scan_state) (c : ascii) :
  isspace c = true -> same_brackets (scan_step st c) st.
Proof.
  intros S. destruct st as [stk sq dq esc].
  destruct c as [[] [] [] [] [] [] [] []]; try (vm_compute in S; discriminate S);
    destruct sq, dq, esc; repeat split.
Qed.

Lemma scan_code_spaces (tail : string) (st : scan_state) :
  Re.all_chars isspace tail = true -> same_brackets (scan_code st tail) st.
Proof.
  revert st. induction tail as [|c tail IH]; intros st A; cbn in *; [repeat split|].
  apply andb_prop in A. destruct A as [C A].
  destruct (IH (scan_step st c) A) as (S1 & Q1 & D1).
  destruct (@scan_step_space st c C) as (S2 & Q2 & D2).
  repeat split; congruence.
Qed.

Lemma scan_step_keeps_closers (st : scan_state) (c : ascii) :
  forallb closing (stack st) = true -> forallb closing (stack (scan_step st c)) = true.
Proof.
  destruct st as [stk sq dq esc]. cbn [stack]. intros F. unfold scan_step.
  destruct (Ascii.eqb c Re.backslash && negb esc)%bool; [exact F|].
  destruct (Ascii.eqb c squote && negb esc && negb dq)%bool; [exact F|].
  destruct (Ascii.eqb c dquote && negb esc && negb sq)%bool; [exact F|].
  destruct (sq || dq)%bool; [exact F|]. cbn [stack].
  destruct (closer_of c) as [cl|] eqn:C.
  - cbn [forallb]. rewrite F, andb_true_r. unfold closer_of in C.
    destruct c as [[] [] [] [] [] [] [] []]; vm_compute in C; try discriminate C;
      injection C as <-; reflexivity.
  - destruct (is_closer c); [|exact F]. destruct stk as [|top below]; [exact F|].
    destruct (Ascii.eqb top c); [|exact F].
    cbn [forallb] in F. apply andb_prop in F. apply F.
Qed.

Lemma scan_code_keeps_closers (code : string) (st : scan_state) :
  forallb closing (stack st) = true -> forallb closing (stack (scan_code st code)) = true.
Proof.
  revert st. induction code as [|c code IH]; intros st F; cbn; [exact F|].
  apply IH. now apply scan_step_keeps_closers.
Qed.

Lemma scan_step_pop (top : ascii) (below : list ascii) (esc : bool) :
  closing top = true ->
  scan_step (Scan (top :: below) false false esc) top = Scan below false false false.
Proof.
  intros C. destruct top as [[] [] [] [] [] [] [] []]; vm_compute in C; try discriminate C;
    destruct esc; reflexivity.
Qed.

Lemma scan_code_pops_all (stk : list ascii) (esc : bool) :
  forallb closing stk = true ->
  stack (scan_code (Scan stk false false esc) (string_of_chars stk)) = []
  /\ in_single (scan_code (Scan stk false false esc) (string_of_chars stk)) = false
  /\ in_double (scan_code (Scan stk false false esc) (string_of_chars stk)) = false.
Proof.
  revert esc. induction stk as [|top below IH]; intros esc F; [repeat split|].
  cbn [forallb] in F. apply andb_prop in F. destruct F as [C F].
  cbn [string_of_chars fold_right scan_code]. rewrite (@scan_step_pop top below esc C).
  apply IH, F.
Qed.

(** X8: when the scanned text does not end inside a string literal, the
    conservative closure balances it: after
    [_close_all_openers_conservatively] no opener is left unmatched. *)
Theorem close_all_balances (code : string) :
  ends_outside_string code = true ->
  _count_unmatched_openers (_close_all_openers_conservatively code) = 0.
Proof.
  unfold ends_outside_string, _count_unmatched_openers, _close_all_openers_conservatively,
    unmatched_stack.
  set (init := Scan [] false false false).
  intros Q. apply andb_prop in Q. destruct Q as [Q1 Q2].
  apply negb_true_iff in Q1, Q2.
  destruct (stack (scan_code init code)) as [|top below] eqn:S.
  - now rewrite S.
  - set (stk := top :: below) in *.
    assert (F : forallb closing stk = true).
    { rewrite <- S. now apply scan_code_keeps_closers. }
    destruct (rstrip_by_tail isspace code) as (tail & D & A).
    fold (rstrip code) in D.
    assert (B : same_brackets (scan_code init code) (scan_code init (rstrip code))).
    { rewrite D at 1. rewrite scan_code_app. now apply scan_code_spaces. }
    destruct B as (B1 & B2 & B3). rewrite S in B1. rewrite Q1 in B2. rewrite Q2 in B3.
    set (sep := if negb (endswith code NL) then NL else "").
    assert (Sp : Re.all_chars isspace sep = true) by (unfold sep; now destruct (negb _)).
    rewrite !scan_code_app.
    destruct (scan_code_spaces sep (scan_code init (rstrip code)) Sp) as (C1 & C2 & C3).
    rewrite <- B1 in C1. rewrite <- B2 in C2. rewrite <- B3 in C3.
    destruct (scan_code (scan_code init (rstrip code)) sep) as [s1 q1 d1 e1].
    cbn [stack in_single in_double] in C1, C2, C3. subst s1 q1 d1.
    destruct (@scan_code_pops_all stk e1 F) as (P1 & P2 & P3).
    assert (N : Re.all_chars isspace NL = true) by reflexivity.
    destruct (scan_code_spaces NL (scan_code (Scan stk false false e1) (string_of_chars stk)) N)
      as (E1 & _ & _).
    rewrite E1, P1. reflexivity.
Qed.

Lemma close_all_balances_witness :
  _count_unmatched_openers
    (_close_all_openers_conservatively "print(sum([1, 2") = 0.
Proof.
  apply (close_all_balances "print(sum([1, 2" eq_refl).
Defined.

End SsrClosure.

(** ** Syntax healing: brackets and quotes *)

Section AstBrackets.
Import PyStr AstFixer Notions.

Lemma closer_of_cases (o c : ascii) :
  closer_of o = Some c ->
  (o = "("%char /\ c = ")"%char) \/ (o = "["%char /\ c = "]"%char)
  \/ (o = "{"%char /\ c = "}"%char).
Proof.
  intros E. destruct o as [[] [] [] [] [] [] [] []]; vm_compute in E; try discriminate E;
    injection E as <-; auto.
Qed.

Lemma opener_of_cases (c o : ascii) :
  opener_of c = Some o ->
  (o = "("%char /\ c = ")"%char) \/ (o = "["%char /\ c = "]"%char)
  \/ (o = "{"%char /\ c = "}"%char).
Proof.
  intros E. destruct c as [[] [] [] [] [] [] [] []]; vm_compute in E; try discriminate E;
    injection E as <-; auto.
Qed.

Lemma closer_stack_app (a b : string) (stack : list ascii) :
  closer_stack stack (a ++ b) = closer_stack (closer_stack stack a) b.
Proof.
  revert stack. induction a as [|ch a IH]; intros stack; cbn; [reflexivity|].
  destruct (closer_of ch); [apply IH|].
  destruct (opener_of ch); [|apply IH].
  destruct stack as [|top below]; [apply IH|].
  destruct (Ascii.eqb top ch); apply IH.
Qed.

Lemma closer_stack_closers (code : string) (stack : list ascii) :
  forallb closing stack = true -> forallb closing (closer_stack stack code) = true.
Proof.
  revert stack. induction code as [|ch code IH]; intros stack F; cbn; [exact F|].
  destruct (closer_of ch) as [cl|] eqn:C.
  - apply IH. cbn [forallb]. rewrite F, andb_true_r.
    destruct (@closer_of_cases _ _ C) as [[_ ->]|[[_ ->]|[_ ->]]]; reflexivity.
  - destruct (opener_of ch); [|now apply IH].
    destruct stack as [|top below]; [now apply IH|].
    destruct (Ascii.eqb top ch); [|now apply IH].
    apply IH. cbn [forallb] in F. apply andb_prop in F. apply F.
Qed.

Lemma closer_stack_pops (stack : list ascii) :
  forallb closing stack = true ->
  closer_stack stack (SsrFixer.string_of_chars stack) = [].
Proof.
  induction stack as [|top below IH]; intros F; [reflexivity|].
  cbn [forallb] in F. apply andb_prop in F. destruct F as [C F].
  cbn [SsrFixer.string_of_chars fold_right closer_stack].
  destruct top as [[] [] [] [] [] [] [] []]; vm_compute in C; try discriminate C;
    cbn; apply IH, F.
Qed.

Lemma closer_stack_after_fix (code : string) :
  closer_stack [] (fix_unclosed_brackets code) = [].
Proof.
  unfold fix_unclosed_brackets.
  destruct (closer_stack [] code) as [|top below] eqn:S; [exact S|].
  rewrite closer_stack_app, S. apply closer_stack_pops.
  rewrite <- S. now apply closer_stack_closers.
Qed.

(** X9: [fix_unclosed_brackets] leaves no bracket open (its own scan of the
    result ends with an empty stack), and running it again changes
    nothing. *)
Theorem fix_unclosed_brackets_closes (code : string) :
  closer_stack [] (fix_unclosed_brackets code) = []
  /\ fix_unclosed_brackets (fix_unclosed_brackets code) = fix_unclosed_brackets code.
Proof.
  split; [apply closer_stack_after_fix|].
  unfold fix_unclosed_brackets at 1. now rewrite closer_stack_after_fix.
Qed.

Lemma drop_unmatched_strict (code : string) :
  forall openers closers,
    nesting openers closers ->
    well_bracketed closers (drop_unmatched openers code)
    = match closer_stack closers code with [] => true | _ => false end.
Proof.
  induction code as [|ch code IH]; intros openers closers N.
  - reflexivity.
  - cbn [drop_unmatched closer_stack].
    destruct (closer_of ch) as [cl|] eqn:C.
    + cbn [well_bracketed]. rewrite C. apply IH. now constructor.
    + destruct (opener_of ch) as [op|] eqn:O.
      * destruct N as [|o c openers closers OC N]; [now apply IH; constructor|].
        assert (M : Ascii.eqb o op = Ascii.eqb c ch).
        { destruct (@closer_of_cases _ _ OC) as [[-> ->]|[[-> ->]|[-> ->]]];
            destruct (@opener_of_cases _ _ O) as [[-> ->]|[[-> ->]|[-> ->]]]; reflexivity. }
        rewrite M. destruct (Ascii.eqb c ch) eqn:E.
        -- cbn [well_bracketed]. rewrite C, O, E. cbn [andb]. now apply IH.
        -- apply IH. now constructor.
      * cbn [well_bracketed]. rewrite C, O. now apply IH.
Qed.

(** X10: the first two text passes of [try_ast_fix] together leave the
    brackets of any text well nested: after [fix_unclosed_brackets] and
    then [fix_backward_bracket_mismatch], every closer matches the
    innermost open bracket and nothing is left open. *)
Theorem bracket_passes_balance (code : string) :
  well_bracketed [] (fix_backward_bracket_mismatch (fix_unclosed_brackets code)) = true.
Proof.
  unfold fix_backward_bracket_mismatch.
  rewrite (drop_unmatched_strict _ (openers := []) (closers := [])) by constructor.
  now rewrite closer_stack_after_fix.
Qed.

Lemma well_bracketed_untouched (code : string) :
  forall openers closers,
    nesting openers closers ->
    well_bracketed closers code = true ->
    closer_stack closers code = [] /\ drop_unmatched openers code = code.
Proof.
  induction code as [|ch code IH]; intros openers closers N W.
  - cbn in *. destruct closers; [now split | discriminate W].
  - cbn [well_bracketed closer_stack drop_unmatched] in *.
    destruct (closer_of ch) as [cl|] eqn:C.
    + destruct (IH (ch :: openers) (cl :: closers)) as [S D]; [now constructor|exact W|].
      now rewrite S, D.
    + destruct (opener_of ch) as [op|] eqn:O.
      * destruct N as [|o c openers closers OC N]; [discriminate W|].
        apply andb_prop in W. destruct W as [E W].
        assert (M : Ascii.eqb o op = Ascii.eqb c ch).
        { destruct (@closer_of_cases _ _ OC) as [[-> ->]|[[-> ->]|[-> ->]]];
            destruct (@opener_of_cases _ _ O) as [[-> ->]|[[-> ->]|[-> ->]]]; reflexivity. }
        rewrite M, E. destruct (IH openers closers N W) as [S D]. now rewrite S, D.
      * destruct (IH openers closers N W) as [S D]. now rewrite S, D.
Qed.

(** X11: the two bracket passes leave well-nested text alone: when every
    closer of [code] matches the innermost open bracket and nothing is
    left open, [fix_unclosed_brackets] and [fix_backward_bracket_mismatch]
    both return [code] unchanged. *)
Theorem bracket_passes_keep_balanced (code : string) :
  well_bracketed [] code = true ->
  fix_unclosed_brackets code = code /\ fix_backward_bracket_mismatch code = code.
Proof.
  intros W.
  destruct (@well_bracketed_untouched code [] []) as [S D]; [constructor|exact W|].
  unfold fix_unclosed_brackets, fix_backward_bracket_mismatch. now rewrite S, D.
Qed.

Lemma bracket_passes_keep_balanced_witness :
  fix_unclosed_brackets "print(sum([1, 2]))" = "print(sum([1, 2]))"
  /\ fix_backward_bracket_mismatch "print(sum([1, 2]))" = "print(sum([1, 2]))".
Proof.
  apply (@bracket_passes_keep_balanced "print(sum([1, 2]))" eq_refl).
Defined.

Lemma count_char_app (c : ascii) (a b : string) :
  count_char c (a ++ b) = count_char c a + count_char c b.
Proof. induction a as [|d a IH]; cbn; [reflexivity|]. rewrite IH. lia. Qed.

Lemma odd_plus_one (n : nat) : Nat.odd (n + 1) = negb (Nat.odd n).
Proof. now rewrite Nat.add_1_r, Nat.odd_succ, <- Nat.negb_odd. Qed.

Lemma count_char_snoc (c d : ascii) (s : string) :
  count_char c (s ++ String d "") = count_char c s + (if Ascii.eqb c d then 1 else 0).
Proof. rewrite count_char_app. cbn [count_char]. now rewrite Nat.add_0_r. Qed.

Lemma odd_snoc_same (c : ascii) (s : string) :
  Nat.odd (count_char c (s ++ String c "")) = negb (Nat.odd (count_char c s)).
Proof. now rewrite count_char_snoc, Ascii.eqb_refl, odd_plus_one. Qed.

(** X12: after [fix_unclosed_strings] the text holds an even number of
    double quotes and an even number of single quotes, and a second run
    changes nothing. *)
Theorem fix_unclosed_strings_even (code : string) :
  Nat.odd (count_char dquote (fix_unclosed_strings code)) = false
  /\ Nat.odd (count_char squote (fix_unclosed_strings code)) = false
  /\ fix_unclosed_strings (fix_unclosed_strings code) = fix_unclosed_strings code.
Proof.
  assert (K : forall s, count_char dquote (s ++ String squote "") = count_char dquote s).
  { intros s. rewrite count_char_snoc. change (Ascii.eqb dquote squote) with false. cbv iota. apply Nat.add_0_r. }
  assert (E : Nat.odd (count_char dquote (fix_unclosed_strings code)) = false
              /\ Nat.odd (count_char squote (fix_unclosed_strings code)) = false).
  { unfold fix_unclosed_strings. cbv zeta.
    destruct (Nat.odd (count_char dquote code)) eqn:D.
    - assert (D' : Nat.odd (count_char dquote (code ++ String dquote "")) = false)
        by now rewrite odd_snoc_same, D.
      destruct (Nat.odd (count_char squote (code ++ String dquote ""))) eqn:Q.
      + now rewrite K, D', odd_snoc_same, Q.
      + now rewrite D'.
    - destruct (Nat.odd (count_char squote code)) eqn:Q.
      + now rewrite K, D, odd_snoc_same, Q.
      + now rewrite D. }
  destruct E as [D Q]. repeat split; try assumption.
  unfold fix_unclosed_strings at 1. cbv zeta. now rewrite D, Q.
Qed.

End AstBrackets.

(** ** Syntax healing: colons and indentation *)

Section AstColons.
Import PyStr AstFixer Notions.
Local Open Scope list_scope.

Lemma split_char_one_line (s : string) : Forall one_line (split_char nl s).
Proof.
  induction s as [|c s IH]; cbn [split_char]; [repeat constructor|].
  destruct (Ascii.eqb c nl) eqn:E.
  - constructor; [reflexivity | exact IH].
  - destruct (split_char nl s) as [|l ls]; inversion IH; subst.
    + repeat constructor. unfold one_line. cbn [count_char].
      rewrite Ascii.eqb_sym, E. reflexivity.
    + constructor; [|assumption]. unfold one_line in *. cbn [count_char].
      rewrite Ascii.eqb_sym, E. assumption.
Qed.

Lemma split_char_nonempty (s : string) : split_char nl s <> [].
Proof.
  destruct s as [|c s]; cbn [split_char]; [discriminate|].
  destruct (Ascii.eqb c nl); [discriminate|]. destruct (split_char nl s); discriminate.
Qed.

Lemma split_char_cons (p rest : string) :
  one_line p -> split_char nl (p ++ NL ++ rest)%string = p :: split_char nl rest.
Proof.
  unfold one_line. induction p as [|c p IH]; intros O.
  - reflexivity.
  - cbn [count_char] in O. cbn [String.append split_char].
    destruct (Ascii.eqb nl c) eqn:E; [discriminate O|].
    rewrite Ascii.eqb_sym, E. rewrite IH by exact O. reflexivity.
Qed.

Lemma split_char_single (p : string) : one_line p -> split_char nl p = [p].
Proof.
  unfold one_line. induction p as [|c p IH]; intros O; [reflexivity|].
  cbn [count_char] in O. cbn [split_char].
  destruct (Ascii.eqb nl c) eqn:E; [discriminate O|].
  rewrite Ascii.eqb_sym, E. rewrite IH by exact O. reflexivity.
Qed.

Lemma split_join (lines : list string) :
  lines <> [] -> Forall one_line lines -> split_char nl (join NL lines) = lines.
Proof.
  induction lines as [|p ps IH]; intros N F; [contradiction|].
  inversion F as [|? ? Hp Hps]; subst.
  destruct ps as [|q qs].
  - cbn [join]. now apply split_char_single.
  - change (join NL (p :: q :: qs)) with (p ++ NL ++ join NL (q :: qs))%string.
    rewrite split_char_cons by exact Hp. f_equal. apply IH; [discriminate | exact Hps].
Qed.

Lemma rstrip_one_line (s : string) : one_line s -> one_line (rstrip s).
Proof.
  unfold one_line. intros O.
  destruct (rstrip_by_tail isspace s) as (tail & D & _). fold (rstrip s) in D.
  rewrite D, count_char_app in O. lia.
Qed.

Lemma lstrip_by_snoc (p : ascii -> bool) (c : ascii) (s : string) :
  p c = false -> lstrip_by p (s ++ String c "") = (lstrip_by p s ++ String c "")%string.
Proof.
  intros P. induction s as [|d s IH]; cbn [String.append lstrip_by].
  - now rewrite P.
  - destruct (p d); [exact IH | reflexivity].
Qed.

Lemma rstrip_by_snoc (p : ascii -> bool) (c : ascii) (s : string) :
  p c = false -> rstrip_by p (s ++ String c "") = (s ++ String c "")%string.
Proof.
  intros P. induction s as [|d s IH]; cbn [String.append rstrip_by].
  - now rewrite P.
  - rewrite IH. destruct s; reflexivity.
Qed.

Lemma drop_length_app (a b : string) : drop (String.length a) (a ++ b) = b.
Proof. induction a as [|c a IH]; [now destruct b | exact IH]. Qed.

Lemma length_app (a b : string) :
  String.length (a ++ b) = String.length a + String.length b.
Proof. induction a as [|c a IH]; cbn; [reflexivity | now rewrite IH]. Qed.

Lemma endswith_app (a suf : string) : endswith (a ++ suf) suf = true.
Proof.
  unfold endswith. rewrite length_app.
  replace (String.length a + String.length suf - String.length suf) with (String.length a) by lia.
  rewrite drop_length_app, String.eqb_refl, andb_true_r. apply Nat.leb_le. lia.
Qed.

Lemma strip_colon (line : string) :
  strip (rstrip line ++ ":") = (strip line ++ ":")%string.
Proof.
  unfold strip, rstrip, lstrip.
  rewrite rstrip_by_snoc by reflexivity. now rewrite lstrip_by_snoc by reflexivity.
Qed.

Lemma colons_and_indent_lines (lines : list string) :
  forall after_colon,
    Forall one_line lines ->
    length (colons_and_indent after_colon lines) = length lines
    /\ Forall one_line (colons_and_indent after_colon lines)
    /\ Forall (fun l => opens_block l = true -> endswith (strip l) ":" = true)
         (colons_and_indent after_colon lines).
Proof.
  induction lines as [|raw rest IH]; intros after_colon F; [repeat constructor|].
  inversion F as [|? ? Hraw Hrest]; subst.
  cbn [colons_and_indent]. cbv zeta.
  set (line := if after_colon && truthy (strip raw) && negb (startswith raw " ")
               then ("    " ++ raw)%string else raw).
  assert (L : one_line line).
  { unfold line. destruct (_ && _ && _)%bool; [|exact Hraw].
    unfold one_line in *. now rewrite count_char_app. }
  set (line' := if existsb (startswith (strip line)) block_keywords
                   && negb (endswith (strip line) ":")
                then (rstrip line ++ ":")%string else line).
  destruct (IH (endswith (strip line') ":") Hrest) as (I1 & I2 & I3).
  cbn [length]. rewrite I1. split; [reflexivity|]. split; constructor; try assumption.
  - unfold line'.
    destruct (existsb (startswith (strip line)) block_keywords
              && negb (endswith (strip line) ":"))%bool; [|exact L].
    apply rstrip_one_line in L. unfold one_line in *. rewrite count_char_app, L. reflexivity.
  - unfold line', opens_block.
    destruct (existsb (startswith (strip line)) block_keywords) eqn:K;
      destruct (endswith (strip line) ":") eqn:E; cbn [andb negb]; intros O;
      try assumption; try congruence.
    rewrite strip_colon. apply endswith_app.
Qed.

(** X13: in the text that [fix_missing_colons_and_indent] returns, every
    line that starts (after stripping) with a block keyword ends with a
    colon; the number of lines is the number of lines of the input. *)
Theorem colons_added_everywhere (code : string) :
  length (split_char nl (fix_missing_colons_and_indent code)) = length (split_char nl code)
  /\ forallb (fun l => implb (opens_block l) (endswith (strip l) ":"))
       (split_char nl (fix_missing_colons_and_indent code)) = true.
Proof.
  unfold fix_missing_colons_and_indent.
  destruct (@colons_and_indent_lines (split_char nl code) false (split_char_one_line code))
    as (L & O & C).
  rewrite split_join; [split; [exact L|] | |exact O].
  - apply forallb_forall. intros l I. rewrite Forall_forall in C.
    specialize (C l I). destruct (opens_block l); [cbn; now apply C | reflexivity].
  - intros E. rewrite E in L. cbn [length] in L.
    pose proof (split_char_nonempty code) as N.
    destruct (split_char nl code); [contradiction | discriminate L].
Qed.

End AstColons.

(** ** Import and name repair *)

Section AstNames.
Import PyStr AstRules AstFixer Notions.
Local Open Scope list_scope.

Lemma mem_In (x : string) (l : list string) : mem x l = true <-> In x l.
Proof.
  unfold mem. rewrite existsb_exists. split.
  - intros (y & I & E). apply String.eqb_eq in E. now subst.
  - intros I. exists x. split; [exact I | apply String.eqb_refl].
Qed.

Lemma In_add (x y : string) (l : list string) : In x (add y l) <-> x = y \/ In x l.
Proof.
  unfold add. destruct (mem y l) eqn:M.
  - apply mem_In in M. split; [now right | intros [->|I]; assumption].
  - rewrite in_app_iff. cbn [In]. intuition.
Qed.

Lemma NoDup_snoc (y : string) (l : list string) :
  ~ In y l -> NoDup l -> NoDup (l ++ [y]).
Proof.
  induction l as [|z l IH]; intros NI N; cbn [app].
  - constructor; [intros [] | constructor].
  - inversion N as [|? ? Z N']; subst. constructor.
    + rewrite in_app_iff. cbn [In]. intros [I|[E|[]]]; [now apply Z|].
      apply NI. now left.
    + apply IH; [|exact N']. intros I. apply NI. now right.
Qed.

Lemma NoDup_add (y : string) (l : list string) : NoDup l -> NoDup (add y l).
Proof.
  intros N. unfold add. destruct (mem y l) eqn:M; [exact N|].
  apply NoDup_snoc; [|exact N]. rewrite <- mem_In, M. discriminate.
Qed.

Lemma collect_fold (defined : list string) (nodes : list Ast.node) :
  forall used,
    NoDup used ->
    NoDup (fold_left (collect_step defined) nodes used)
    /\ forall name,
         In name (fold_left (collect_step defined) nodes used)
         <-> In name used
             \/ (In (Ast.Name name Ast.Load) nodes /\ mem name defined = false).
Proof.
  induction nodes as [|n nodes IH]; intros used N.
  - split; [exact N|]. intros name. cbn. intuition.
  - cbn [fold_left].
    assert (N' : NoDup (collect_step defined used n)).
    { unfold collect_step. destruct n; try exact N. destruct ctx; try exact N.
      destruct (mem id defined); [exact N | now apply NoDup_add]. }
    destruct (IH _ N') as [D I]. split; [exact D|].
    intros name. rewrite I. cbn [In]. unfold collect_step.
    destruct n as [| | | | | | |id ctx| | |];
      try (split; [intros [U|[U M]]; [now left | right; split; [now right|exact M]]
                  |intros [U|[[U|U] M]]; [now left | discriminate U | right; now split]]).
    destruct ctx;
      try (split; [intros [U|[U M]]; [now left | right; split; [now right|exact M]]
                  |intros [U|[[U|U] M]]; [now left | discriminate U | right; now split]]).
    destruct (mem id defined) eqn:M.
    + split.
      * intros [U|[U M']]; [now left | right; split; [now right|exact M']].
      * intros [U|[[U|U] M']]; [now left | | right; now split].
        injection U as ->. congruence.
    + rewrite In_add. split.
      * intros [[->|U]|[U M']]; [right; split; [now left|exact M] | now left
                                 | right; split; [now right|exact M']].
      * intros [U|[[U|U] M']]; [left; now right | injection U as ->; left; now left
                                | right; now split].
Qed.

(** X14: [collect_unresolved] returns, without repetition, exactly the
    names that some [Name] node of the tree loads and that are not in
    [defined]. *)
Theorem collect_unresolved_exact (tree : Ast.node) (defined : list string) :
  NoDup (collect_unresolved tree defined)
  /\ forall name,
       In name (collect_unresolved tree defined)
       <-> (In (Ast.Name name Ast.Load) (Ast.walk tree) /\ mem name defined = false).
Proof.
  destruct (@collect_fold defined (Ast.walk tree) [] (NoDup_nil _)) as [D I].
  split; [exact D|]. intros name.
  change (collect_unresolved tree defined)
    with (fold_left (collect_step defined) (Ast.walk tree) []).
  rewrite I. cbn [In]. intuition.
Qed.

(** X15: [choose_best_module] returns one of its candidates, and when the
    package of any candidate is already imported, the package of the
    chosen candidate is imported too. *)
Theorem choose_best_module_sound (candidates imported : list string)
  (froms : list (string * list string)) :
  candidates <> [] ->
  In (choose_best_module candidates imported froms) candidates
  /\ (existsb (fun c => mem (first_component c) imported) candidates
      = mem (first_component (choose_best_module candidates imported froms)) imported).
Proof.
  intros N. unfold choose_best_module.
  destruct (find (fun c => mem (first_component c) imported) candidates) as [c|] eqn:F.
  - apply find_some in F. destruct F as [I M]. split; [exact I|].
    rewrite M. apply existsb_exists. now exists c.
  - destruct candidates as [|c0 rest]; [contradiction|]. split; [now left|].
    cbn [hd]. rewrite (find_none _ _ F c0) by now left.
    destruct (existsb _ (c0 :: rest)) eqn:E; [|reflexivity].
    apply existsb_exists in E. destruct E as (c & I & M).
    now rewrite (find_none _ _ F c I) in M.
Qed.

Lemma choose_best_module_sound_witness :
  In (choose_best_module ["math"; "numpy"] ["numpy"] []) ["math"; "numpy"]
  /\ (existsb (fun c => mem (first_component c) ["numpy"]) ["math"; "numpy"]
      = mem (first_component (choose_best_module ["math"; "numpy"] ["numpy"] [])) ["numpy"]).
Proof.
  apply (@choose_best_module_sound ["math"; "numpy"] ["numpy"] []). discriminate.
Defined.

Lemma define_node_raises (acc : defined_sets) (n : Ast.node) :
  (exists msg, define_node acc n = Raise msg) <-> relative_import n = true.
Proof.
  destruct acc as [mods froms defs].
  destruct n as [| | | | | |md names| | | |]; cbn;
    try (split; [intros (msg & E); discriminate E | discriminate]).
  destruct md; cbn; (split; [intros (msg & E); try discriminate E; reflexivity
                            |intros E; try discriminate E; eexists; reflexivity]).
Qed.

Lemma define_nodes_raises (nodes : list Ast.node) :
  forall acc,
    (exists msg, define_nodes acc nodes = Raise msg)
    <-> existsb relative_import nodes = true.
Proof.
  induction nodes as [|n nodes IH]; intros acc; cbn [define_nodes existsb].
  - split; [intros (msg & E); discriminate E | discriminate].
  - destruct (define_node acc n) as [acc'|msg] eqn:D; cbn [rbind].
    + rewrite IH. destruct (relative_import n) eqn:R; [|reflexivity].
      apply (define_node_raises acc) in R. destruct R as (msg & R). congruence.
    + assert (R : relative_import n = true) by (apply (define_node_raises acc); now exists msg).
      rewrite R. split; [reflexivity | intros _; now exists msg].
Qed.

End AstNames.

Section AstNamesPython.
Context `{Python}.
Import PyStr AstRules AstFixer Notions.

(** X16: [extract_defined] raises exactly when the tree holds a relative
    import without a module name ([from . import x]): its [node.module] is
    [None] and the call of [split] on it fails.  [fix_imports_and_names]
    raises on every such tree. *)
Theorem extract_defined_relative_import (code : string) (tree : Ast.node) :
  ((exists msg, extract_defined tree = Raise msg)
   <-> existsb relative_import (Ast.walk tree) = true)
  /\ (existsb relative_import (Ast.walk tree) = true ->
      exists msg, fix_imports_and_names code tree = Raise msg).
Proof.
  split; [apply define_nodes_raises|].
  intros R. apply (define_nodes_raises (Ast.walk tree) (Defined [] [] builtin_names)) in R.
  destruct R as (msg & R). exists msg. unfold fix_imports_and_names.
  fold (extract_defined tree) in R. now rewrite R.
Qed.

End AstNamesPython.

Lemma extract_defined_relative_import_witness :
  exists msg,
    @AstFixer.fix_imports_and_names Scenarios.clean_python "from . import helpers"
      Scenarios.relative_import_tree = Raise msg.
Proof.
  apply (@extract_defined_relative_import Scenarios.clean_python "from . import helpers"
           Scenarios.relative_import_tree).
  reflexivity.
Defined.

(** ** Merging the answer of the model: what every call guarantees *)

Section MergeMore.
Context `{Python}.
Import PyStr MergeStrategy.

Lemma regex_partial_merge_parses (candidate merged tmp : string) :
  regex_partial_merge candidate merged = Some tmp -> _parse_ok tmp = true.
Proof.
  unfold regex_partial_merge. intros E.
  destruct (Re.findall1 re_any_block candidate); [discriminate|].
  destruct (merge_blocks _ merged false) as [[t replaced_any]|]; [|discriminate].
  destruct (replaced_any && _parse_ok t)%bool eqn:P; [|discriminate].
  injection E as <-. apply andb_prop in P. apply P.
Qed.

Lemma parse_ok_tree (code : string) :
  _parse_ok code = false -> _safe_parse_tree code = None.
Proof.
  unfold _parse_ok, _safe_parse_tree. now destruct (ast_parse code).
Qed.

(** X17: whatever [merge_llm_result] returns is the base itself or a text
    that parses; so merging into a base that parses never yields a text
    that does not. *)
Theorem merge_result_parses_or_base (base llm_out : string) (allow_full_rewrite : bool)
  (r : string) :
  merge_llm_result base llm_out allow_full_rewrite = Ok r ->
  (r = base \/ _parse_ok r = true) /\ (_parse_ok base = true -> _parse_ok r = true).
Proof.
  intros E.
  assert (D : r = base \/ _parse_ok r = true).
  { revert E. unfold merge_llm_result.
    destruct (merge_decide base llm_out allow_full_rewrite) as [[d r']|] eqn:M;
      cbn [rbind snd]; [|discriminate].
    intros [= <-]. revert M. unfold merge_decide.
    destruct (negb (truthy llm_out)); [intros [= _ <-]; now left|].
    destruct (_parse_ok (strip (_strip_non_code_prefix llm_out))) eqn:P.
    - destruct (_ && _)%bool; [intros [= _ <-]; now left|].
      destruct (too_many_additions _ _); intros [= _ <-]; [now left | now right].
    - destruct (ast_parse base); [|intros [= _ <-]; now left].
      rewrite (parse_ok_tree _ P). cbn [rbind].
      destruct (regex_partial_merge _ base) as [tmp|] eqn:R.
      + intros [= _ <-]. right. exact (regex_partial_merge_parses _ _ R).
      + intros E. apply full_rewrite_or_base_cases in E.
        destruct E as [[_ ->]|[[_ ->]|(_ & _ & E & _)]]; auto. }
  split; [exact D|]. intros B. destruct D as [->|D]; assumption.
Qed.

(** X18: [allow_full_rewrite] matters only as a last resort: a call without
    it never reports a function-level rewrite, and whenever such a call
    does not fall back, the call with the flag set returns the same
    decision and the same text. *)
Theorem merge_flag_is_last_resort (base llm_out : string) (d : decision) (r : string) :
  merge_decide base llm_out false = Ok (d, r) ->
  d <> RewriteAccepted /\ d <> RewriteRejected
  /\ (d <> FellBack -> merge_decide base llm_out true = Ok (d, r)).
Proof.
  unfold merge_decide.
  destruct (negb (truthy llm_out)); [intros [= <- <-]; repeat split; discriminate|].
  destruct (_parse_ok (strip (_strip_non_code_prefix llm_out))) eqn:P.
  - destruct (_ && _)%bool; [intros [= <- <-]; repeat split; discriminate|].
    destruct (too_many_additions _ _); intros [= <- <-]; repeat split; discriminate.
  - destruct (ast_parse base); [|intros [= <- <-]; repeat split; discriminate].
    rewrite (parse_ok_tree _ P). cbn [rbind].
    destruct (regex_partial_merge _ base) as [tmp|].
    + intros [= <- <-]. repeat split; discriminate.
    + cbn. intros [= <- <-]. repeat split; try discriminate. intros N. now contradiction N.
Qed.

(** X19: the tree-based partial merge (step 2) is never taken: the
    candidate is parsed a second time only after its first parse has
    failed, so no call of [merge_llm_result] ends with the decision
    [PartialMerged], and a candidate that does not parse can only be used
    through the textual replacement of whole blocks. *)
Theorem merge_never_partial (base llm_out : string) (allow_full_rewrite : bool)
  (d : decision) (r : string) :
  merge_decide base llm_out allow_full_rewrite = Ok (d, r) ->
  d <> PartialMerged
  /\ (_parse_ok (strip (_strip_non_code_prefix llm_out)) = false ->
      d = EmptyOutput \/ d = BaseUnparseable \/ d = RegexMerged \/ d = RewriteRejected
      \/ d = RewriteAccepted \/ d = FellBack).
Proof.
  unfold merge_decide.
  destruct (negb (truthy llm_out)); [intros [= <- <-]; split; [discriminate | auto]|].
  destruct (_parse_ok (strip (_strip_non_code_prefix llm_out))) eqn:P.
  - destruct (_ && _)%bool; [intros [= <- <-]; split; [discriminate | discriminate]|].
    destruct (too_many_additions _ _); intros [= <- <-]; split; discriminate.
  - destruct (ast_parse base); [|intros [= <- <-]; split; [discriminate | auto]].
    rewrite (parse_ok_tree _ P). cbn [rbind].
    destruct (regex_partial_merge _ base) as [tmp|].
    + intros [= <- <-]. split; [discriminate | auto].
    + intros E. apply full_rewrite_or_base_cases in E.
      destruct E as [[-> _]|[[-> _]|(-> & _)]]; (split; [discriminate | auto 10]).
Qed.

End MergeMore.

Section MergeMoreRuns.
Import PyStr MergeStrategy Scenarios.

Lemma merge_result_parses_or_base_witness :
  @_parse_ok shrink_python short_merged = true.
Proof.
  apply (proj2 (@merge_result_parses_or_base shrink_python long_function short_answer
                  false short_merged eq_refl) eq_refl).
Defined.

Lemma merge_flag_is_last_resort_witness :
  @merge_decide shrink_python long_function short_answer true
  = Ok (RegexMerged, short_merged).
Proof.
  apply (proj2 (proj2 (@merge_flag_is_last_resort shrink_python long_function
                         short_answer RegexMerged short_merged eq_refl))).
  discriminate.
Defined.

Lemma merge_never_partial_witness :
  RegexMerged = EmptyOutput \/ RegexMerged = BaseUnparseable \/ RegexMerged = RegexMerged
  \/ RegexMerged = RewriteRejected \/ RegexMerged = RewriteAccepted
  \/ RegexMerged = FellBack.
Proof.
  apply (proj2 (@merge_never_partial shrink_python long_function short_answer false
                  RegexMerged short_merged eq_refl) eq_refl).
Defined.

End MergeMoreRuns.

(** ** The text passes never fail *)

Section NeverRaise.
Context `{Python}.
Import PyStr.

Lemma sub_empty_template (r : Re.re) (s : string) (n : nat) :
  Re.sub r "" s n = Ok (Re.sub_fun r (fun _ => "") s n).
Proof. reflexivity. Qed.

Lemma extract_code_total (text : string) :
  exists out, LlmFixer._extract_code_from_text text = Ok out.
Proof.
  unfold LlmFixer._extract_code_from_text.
  destruct (negb (truthy text)); [now eexists|].
  rewrite !sub_empty_template. cbn [rbind].
  destruct (Re.search LlmFixer.re_fence text) as [m|].
  - rewrite sub_empty_template. cbn [rbind]. split_ifs; now eexists.
  - split_ifs; now eexists.
Qed.

(** X20: [clean_llm_code] never raises, and what it returns is empty or
    ends with a newline. *)
Theorem clean_llm_code_newline (text : string) :
  exists out,
    LlmFixer.clean_llm_code text = Ok out /\ (out = "" \/ endswith out NL = true).
Proof.
  unfold LlmFixer.clean_llm_code.
  destruct (negb (truthy text)); [exists ""; auto|].
  cbv zeta. repeat (rewrite sub_empty_template; cbn [rbind]).
  match goal with
  | |- context [LlmFixer._extract_code_from_text ?t] =>
      destruct (extract_code_total t) as (extracted & ->)
  end.
  cbn [rbind]. eexists. split; [reflexivity|].
  destruct (endswith extracted NL) eqn:E; [now right|].
  destruct extracted as [|c rest]; [now left|].
  right. cbn [truthy]. apply endswith_app.
Qed.

Lemma sub_total (r : Re.re) (repl : string) (parts : list Re.tpart) :
  Re.parse_template (S (String.length repl)) (Re.count_groups r) repl = Ok parts ->
  forall s n, Re.sub r repl s n = Ok (Re.sub_fun r (Re.expand parts) s n).
Proof. intros P s n. unfold Re.sub. now rewrite P. Qed.

Lemma fix_incomplete_calls_total (code : string) :
  exists out, AstFixer.fix_incomplete_calls code = Ok out.
Proof. eexists. unfold AstFixer.fix_incomplete_calls. eapply sub_total. vm_compute. reflexivity. Qed.

Lemma fix_broken_assignments_total (code : string) :
  exists out, AstFixer.fix_broken_assignments code = Ok out.
Proof. eexists. unfold AstFixer.fix_broken_assignments. eapply sub_total. vm_compute. reflexivity. Qed.

Lemma syntax_fixes_total (code : string) :
  exists out, AstFixer.syntax_fixes code = Ok out.
Proof.
  unfold AstFixer.syntax_fixes. cbv zeta.
  match goal with
  | |- context [AstFixer.fix_incomplete_calls ?t] =>
      destruct (fix_incomplete_calls_total t) as (a & ->)
  end.
  cbn [rbind]. destruct (fix_broken_assignments_total a) as (b & ->). cbn [rbind].
  unfold AstFixer.fix_trailing_operators. rewrite sub_empty_template. now eexists.
Qed.

Lemma heal_line_total (line : string) : exists out, AstFixer.heal_line line = Ok out.
Proof.
  unfold AstFixer.heal_line. cbv zeta.
  match goal with
  | |- context [Re.sub ?r ?t ?s 0] =>
      rewrite (@sub_total r t [Re.TLit ","; Re.TLit " "; Re.TLit "N"; Re.TLit "o";
                               Re.TLit "n"; Re.TLit "e"; Re.TLit ","] eq_refl s 0)
  end.
  cbn [rbind]. now eexists.
Qed.

Lemma heal_lines_total (lines : list string) :
  exists out, AstFixer.heal_lines lines = Ok out.
Proof.
  induction lines as [|l r (out & IH)]; [now eexists|].
  cbn [AstFixer.heal_lines]. destruct (heal_line_total l) as (l' & ->).
  rewrite IH. cbn [rbind]. now eexists.
Qed.

Lemma heal_broken_expressions_total (code : string) :
  exists out, AstFixer.heal_broken_expressions code = Ok out.
Proof.
  unfold AstFixer.heal_broken_expressions.
  destruct (heal_lines_total (split_char nl code)) as (out & ->). now eexists.
Qed.

(** X21: the text passes of [try_ast_fix] (the eight syntax fixes and the
    aggressive healer) never raise, so an exception of [try_ast_fix] is
    always one that [fix_imports_and_names] raised on a tree the parser
    returned. *)
Theorem try_ast_fix_raises_only_in_name_repair (error_type : ErrorTypes.ErrorType)
  (code : string) :
  (exists out, AstFixer.syntax_fixes code = Ok out)
  /\ (exists out, AstFixer.heal_broken_expressions code = Ok out)
  /\ (forall msg,
        AstFixer.try_ast_fix error_type code = Raise msg ->
        exists text tree,
          ast_parse text = Some tree
          /\ AstFixer.fix_imports_and_names text tree = Raise msg).
Proof.
  split; [apply syntax_fixes_total|]. split; [apply heal_broken_expressions_total|].
  intros msg. unfold AstFixer.try_ast_fix.
  destruct (syntax_fixes_total code) as (fixed & ->). cbn [rbind].
  unfold AstFixer.safe_parse.
  destruct (ast_parse fixed) as [parsed|] eqn:P.
  - intros E. now exists fixed, parsed.
  - destruct (heal_broken_expressions_total fixed) as (healed & ->). cbn [rbind].
    destruct (ast_parse healed) as [parsed|] eqn:P'; [|discriminate].
    intros E. now exists healed, parsed.
Qed.

End NeverRaise.

Lemma try_ast_fix_raises_only_in_name_repair_witness :
  exists text tree,
    @ast_parse Scenarios.relative_python text = Some tree
    /\ @AstFixer.fix_imports_and_names Scenarios.relative_python text tree
       = Raise "AttributeError: 'NoneType' object has no attribute 'split'".
Proof.
  apply (proj2 (proj2 (@try_ast_fix_raises_only_in_name_repair Scenarios.relative_python
                         ErrorTypes.SYNTAX Scenarios.relative_import_program))
           "AttributeError: 'NoneType' object has no attribute 'split'" eq_refl).
Defined.

(** ** The repair loop: the semantic pre-pass *)

Section SemanticPrepass.
Context `{Python} {W : Type} `{Collaborators W}.
Import PyStr ErrorTypes ErrorClassifier IterationReport IterationController.
Local Open Scope list_scope.

(** X22: the semantic-intent check reads the source without regard to
    letter case, and it only ever fires on a source that defines one of
    the functions it knows by name: preorder, inorder, postorder, fib,
    binary_search or binarysearch. *)
Theorem semantic_conflicts_known_functions (code : string) :
  detect_semantic_conflicts (lower code) = detect_semantic_conflicts code
  /\ (detect_semantic_conflicts code = true ->
      existsb (fun name => contains name (lower code))
        [ "def preorder"; "def inorder"; "def postorder"; "def fib";
          "def binary_search"; "def binarysearch" ]%string = true).
Proof.
  split.
  - unfold detect_semantic_conflicts. now rewrite lower_idempotent.
  - unfold detect_semantic_conflicts. cbv zeta. cbn [existsb].
    destruct (contains "def preorder" (lower code)); [reflexivity|].
    destruct (contains "def inorder" (lower code)); [reflexivity|].
    destruct (contains "def postorder" (lower code)); [reflexivity|].
    destruct (contains "def fib" (lower code)); [reflexivity|].
    destruct (contains "def binary_search" (lower code)); [reflexivity|].
    destruct (contains "def binarysearch" (lower code)); [reflexivity|].
    cbn. discriminate.
Qed.

Lemma generate_llm_fix_total (code error_message user_prompt : string)
  (logic_issues : list LogicalIssue) (max_tokens : nat) (w : W) :
  exists raw w1,
    LlmFixer.generate_llm_fix code error_message user_prompt logic_issues max_tokens w
    = (Ok raw, w1).
Proof.
  unfold LlmFixer.generate_llm_fix, Eff.catch.
  match goal with |- context [match ?c w with _ => _ end] => destruct (c w) as [[raw|msg] w1] end;
    now eexists _, _.
Qed.

Lemma semantic_merge_total (original_code llm_raw extracted : string) (w : W) :
  exists new_code w1, semantic_merge original_code llm_raw extracted w = (Ok new_code, w1).
Proof.
  unfold semantic_merge, Eff.catch.
  match goal with |- context [match ?c w with _ => _ end] => destruct (c w) as [[merged|msg] w1] end.
  - now eexists _, _.
  - destruct (_ && _)%bool; now eexists _, _.
Qed.

(** X23: a run on a source in which the semantic-intent check fires never
    raises and never reaches the main loop: whatever the collaborators
    answer, it reports SUCCESS with exactly one iteration record, of index
    0, method LLM, empty output and the returned text as its snapshot. *)
Theorem semantic_prepass_always_succeeds (original_code user_prompt : string)
  (max_iterations : option nat) (w : W) :
  detect_semantic_conflicts original_code = true ->
  exists new_code log w',
    run_repair_loop original_code user_prompt max_iterations w
    = (Ok (new_code,
           MkReport "SUCCESS" 1
             [MkRecord 0 "LLM" (Label "SEMANTIC") true "" "" new_code] log), w').
Proof.
  intros D. unfold run_repair_loop. rewrite D.
  unfold semantic_prepass, Eff.bind, Eff.ret.
  match goal with
  | |- context [LlmFixer.generate_llm_fix ?a ?b ?c ?d ?e w] =>
      destruct (generate_llm_fix_total a b c d e w) as (raw & w1 & ->)
  end.
  destruct (semantic_merge_total original_code raw (extract_code_from_llm raw) w1)
    as (new_code & w2 & ->).
  now eexists _, _, _.
Qed.

End SemanticPrepass.

Section SemanticPrepassRuns.
Import PyStr ErrorTypes IterationReport IterationController Scenarios.

Lemma semantic_conflicts_known_functions_witness :
  existsb (fun name => contains name (lower fib_memo))
    [ "def preorder"; "def inorder"; "def postorder"; "def fib";
      "def binary_search"; "def binarysearch" ] = true.
Proof.
  apply (proj2 (semantic_conflicts_known_functions fib_memo) eq_refl).
Defined.

Lemma semantic_prepass_always_succeeds_witness :
  exists new_code log w',
    @run_repair_loop fib_python unit offline_world fib_memo "" None tt
    = (Ok (new_code,
           MkReport "SUCCESS" 1
             [MkRecord 0 "LLM" (Label "SEMANTIC") true "" "" new_code] log), w').
Proof.
  apply (@semantic_prepass_always_succeeds fib_python unit offline_world fib_memo "" None tt
           eq_refl).
Defined.

End SemanticPrepassRuns.

(** ** The repair loop: the shape of the report *)

Section LoopShape.
Context `{Python} {W : Type} `{Collaborators W}.
Import PyStr ErrorTypes ErrorClassifier IterationReport IterationController Notions.
Local Open Scope list_scope.

Lemma parse_error_none (stderr code : string) :
  fst (ErrorParser.parse_error stderr code "python") = NONE -> strip stderr = ""%string.
Proof.
  unfold ErrorParser.parse_error. cbn [truthy lower String.eqb]. cbv zeta.
  change (String.eqb (lower "python") "python") with true. cbv iota.
  destruct (strip stderr) eqn:S; [reflexivity|]. cbn [truthy negb].
  split_ifs; cbn [fst]; discriminate.
Qed.

Lemma changes_of_rows_tags (rows : list string) (iteration : nat) (method : string)
  (err_type : error_label) :
  forall old_ln new_ln,
    Forall (fun c => ch_iteration c = iteration /\ ch_fix_method c = method)
           (changes_of_rows rows old_ln new_ln iteration method err_type).
Proof.
  induction rows as [|row rows IH]; intros old_ln new_ln; cbn [changes_of_rows];
    [constructor|].
  cbv zeta. split_ifs; try apply IH; constructor; try apply IH; now split.
Qed.

Lemma apply_fix_prompt (i : nat) (error_type : ErrorType)
  (old_code full_err user_prompt : string) (logic_issues : list LogicalIssue)
  (w w' : W) (fixed : string) (applied : method) :
  apply_fix i LLM error_type old_code full_err user_prompt logic_issues w
    = (Ok (fixed, applied), w') ->
  applied = LLM.
Proof.
  unfold apply_fix, Eff.bind, Eff.ret.
  destruct (llm_fix _ _ _ _ _ _ w) as [[f|] w1]; [|discriminate].
  now intros [= _ <- _].
Qed.

Lemma repair_loop_step (remaining i : nat) (user_prompt code : string)
  (reports : list IterationRecord) (log : list ChangeEntry) (w w' : W)
  (res : string * Report) :
  repair_loop (S remaining) i user_prompt code reports log w = (Ok res, w') ->
  (exists out err,
      truthy (strip user_prompt) = false
      /\ strip err = ""%string
      /\ res = (code,
                save_full_report
                  (reports ++ [MkRecord i "NONE" (Kind NONE) true out err code])
                  log "SUCCESS"))
  \/ (exists new_code m new_err vout verr entries w2,
        Forall (fun c => ch_iteration c = i /\ ch_fix_method c = method_name m) entries
        /\ (truthy (strip user_prompt) = true -> m = LLM)
        /\ (new_err = NONE -> strip verr = ""%string)
        /\ let r := MkRecord i (method_name m) (Kind new_err)
                      (fst (Validation.validate_iteration vout verr new_err))
                      vout verr new_code in
           if stops m new_err
           then res = (new_code, save_full_report (reports ++ [r]) (log ++ entries) "SUCCESS")
           else repair_loop remaining (S i) user_prompt new_code (reports ++ [r])
                  (log ++ entries) w2 = (Ok res, w')).
Proof.
  intros E. cbn [repair_loop] in E. unfold Eff.bind, Eff.ret in E.
  destruct (run_in_sandbox code w) as [[[out err]|] w1]; [|discriminate].
  destruct (ErrorParser.parse_error err code "python") as [runtime_error full_err] eqn:PE.
  destruct (inspect_and_test code w1) as [[issues|] w2]; [|discriminate].
  set (error_type := match issues with [] => runtime_error | _ => LOGICAL end) in *.
  destruct (ErrorTypes.eqb error_type NONE && negb (truthy (strip user_prompt)))%bool eqn:Early.
  - left. apply andb_prop in Early. destruct Early as [K P].
    assert (error_type = NONE) as EN by (destruct error_type; try discriminate; reflexivity).
    exists out, err. split; [now apply negb_true_iff in P|]. split.
    + apply (parse_error_none err code). rewrite PE. cbn [fst].
      unfold error_type in EN. destruct issues; [exact EN | discriminate EN].
    + injection E as <- <-. unfold create_iteration_report. now rewrite EN.
  - right. cbv zeta in E.
    set (method0 := if truthy (strip user_prompt) then LLM
                    else if ErrorTypes.eqb error_type LOGICAL then LLM
                    else choose_fix_method error_type) in *.
    set (old_code := if ErrorTypes.eqb error_type LOGICAL
                     then _apply_logical_patches (SsrFixer.apply_ssr_fix code) issues
                     else SsrFixer.apply_ssr_fix code) in *.
    destruct (apply_fix _ _ _ old_code _ _ _ w2) as [[[fixed applied]|] w3] eqn:A;
      [|discriminate].
    destruct (run_in_sandbox _ w3) as [[[vout verr]|] w4]; [|discriminate].
    destruct (inspect_and_test _ w4) as [[issues_after|] w5]; [|discriminate].
    set (new_code := SsrFixer.apply_ssr_fix fixed) in *.
    set (base_err := fst (ErrorParser.parse_error verr new_code "python")) in *.
    set (new_err := match issues_after with
                    | [] => if negb (String.eqb vout out) then LOGICAL else base_err
                    | _ => LOGICAL
                    end) in *.
    set (entries := if differs new_code old_code
                    then compute_changes old_code new_code i (method_name applied)
                           (Kind error_type)
                    else []).
    assert (L : (if differs new_code old_code
                 then log ++ compute_changes old_code new_code i (method_name applied)
                               (Kind error_type)
                 else log) = log ++ entries).
    { unfold entries. destruct (differs new_code old_code); [reflexivity|].
      now rewrite app_nil_r. }
    rewrite L in E.
    exists new_code, applied, new_err, vout, verr, entries, w5.
    split; [|split; [|split]].
    + unfold entries. destruct (differs new_code old_code); [|constructor].
      apply changes_of_rows_tags.
    + intros P. unfold method0 in A. rewrite P in A. eapply apply_fix_prompt, A.
    + intros N. apply (parse_error_none verr new_code). fold base_err.
      unfold new_err in N. destruct issues_after; [|discriminate N].
      destruct (negb (String.eqb vout out)); [discriminate N | exact N].
    + cbv zeta. unfold create_iteration_report in E.
      destruct applied; cbn [stops]; [exact E|].
      destruct new_err; cbn [stops]; try exact E.
      now injection E as <- <-.
Qed.

Lemma all_chars_app (p : ascii -> bool) (a b : string) :
  Re.all_chars p (a ++ b)%string = Re.all_chars p a && Re.all_chars p b.
Proof.
  induction a as [|c a IH]; cbn; [reflexivity|]. now rewrite IH, andb_assoc.
Qed.

Lemma lstrip_by_empty (p : ascii -> bool) (s : string) :
  lstrip_by p s = ""%string -> Re.all_chars p s = true.
Proof.
  induction s as [|c s IH]; cbn; [reflexivity|].
  destruct (p c); [exact IH | discriminate].
Qed.

Lemma rstrip_by_all (p : ascii -> bool) (s : string) :
  Re.all_chars p s = true -> rstrip_by p s = ""%string.
Proof.
  induction s as [|c s IH]; cbn; [reflexivity|]. intros A.
  apply andb_prop in A. destruct A as [C A]. now rewrite (IH A), C.
Qed.

Lemma strip_blank (s : string) :
  strip s = ""%string <-> Re.all_chars isspace s = true.
Proof.
  split.
  - intros S. destruct (rstrip_by_tail isspace s) as (tail & D & A).
    rewrite D, all_chars_app, A, andb_true_r. now apply lstrip_by_empty.
  - intros A. unfold strip, rstrip. now rewrite rstrip_by_all.
Qed.

Lemma splitlines_blank (s : string) :
  forall cur after_cr,
    Re.all_chars isspace cur = true -> Re.all_chars isspace s = true ->
    Forall (fun l => Re.all_chars isspace l = true) (splitlines_acc cur after_cr s).
Proof.
  induction s as [|c s IH]; intros cur after_cr C A; cbn [splitlines_acc].
  - destruct cur; constructor; [exact C | constructor].
  - cbn in A. apply andb_prop in A. destruct A as [Sc A].
    destruct (after_cr && Ascii.eqb c nl)%bool; [now apply IH|].
    destruct (is_linebreak c).
    + constructor; [exact C | now apply IH].
    + apply IH; [|exact A]. rewrite all_chars_app, C. cbn. now rewrite Sc.
Qed.

Lemma join_blank (lines : list string) :
  Forall (fun l => Re.all_chars isspace l = true) lines ->
  Re.all_chars isspace (join NL lines) = true.
Proof.
  induction 1 as [|l lines L F IH]; [reflexivity|].
  destruct lines as [|l' lines']; [exact L|].
  change (join NL (l :: l' :: lines')) with (l ++ NL ++ join NL (l' :: lines'))%string.
  now rewrite !all_chars_app, L, IH.
Qed.

Lemma Forall_filter {A} (P : A -> Prop) (f : A -> bool) (l : list A) :
  Forall P l -> Forall P (filter f l).
Proof.
  induction 1 as [|x l Px F IH]; cbn; [constructor|].
  destruct (f x); [now constructor | exact IH].
Qed.

Lemma blank_is_success (stdout stderr : string) :
  strip stderr = ""%string ->
  Validation.validate_iteration stdout stderr NONE = (true, "Execution succeeded."%string).
Proof.
  intros B. apply strip_blank in B.
  assert (C : Validation.clean_stderr stderr = ""%string).
  { unfold Validation.clean_stderr. cbv zeta. apply strip_blank, join_blank, Forall_filter.
    now apply splitlines_blank. }
  unfold Validation.validate_iteration, Validation.is_success. cbn [eqb negb].
  now rewrite C.
Qed.

Lemma seq_snoc (start len : nat) : seq start (S len) = seq start len ++ [start + len].
Proof. rewrite <- Nat.add_1_r. now rewrite seq_app. Qed.

Lemma repair_loop_shape :
  forall (remaining i : nat) (user_prompt code : string)
         (reports : list IterationRecord) (log : list ChangeEntry) (w w' : W)
         (res : string * Report),
    map iteration reports = seq 1 (i - 1) ->
    1 <= i ->
    repair_loop remaining i user_prompt code reports log w = (Ok res, w') ->
    let n := length (iterations (snd res)) in
    map iteration (iterations (snd res)) = seq 1 n
    /\ total_iterations (snd res) = n
    /\ n <= i - 1 + remaining
    /\ ((final_status (snd res) = "SUCCESS"%string
         /\ exists front r,
              iterations (snd res) = front ++ [r]
              /\ error_type r = Kind NONE /\ success r = true
              /\ strip (stderr r) = ""%string /\ code_snapshot r = fst res)
        \/ (final_status (snd res) = "FAILED"%string /\ n = i - 1 + remaining)).
Proof.
  induction remaining as [|remaining IH];
    intros i user_prompt code reports log w w' res M I E.
  - cbn in E. injection E as <- <-. cbn [snd iterations save_full_report].
    assert (L : length reports = i - 1).
    { rewrite <- (length_map iteration), M. apply length_seq. }
    cbn. rewrite L, Nat.add_0_r. repeat split; auto.
  - assert (L : length reports = i - 1).
    { rewrite <- (length_map iteration), M. apply length_seq. }
    assert (M' : forall r, iteration r = i ->
                           map iteration (reports ++ [r]) = seq 1 (S i - 1)).
    { intros r R. rewrite map_app, M. cbn [map]. rewrite R.
      replace (S i - 1) with (S (i - 1)) by lia. rewrite seq_snoc.
      do 2 f_equal. lia. }
    apply repair_loop_step in E.
    destruct E as [(out & err & P & B & ->)
                  |(new_code & m & new_err & vout & verr & entries & w2 & T & P & B & E)].
    + cbn [snd fst iterations save_full_report total_iterations final_status].
      rewrite M' by reflexivity. rewrite List.length_app, L. cbn [length].
      replace (i - 1 + 1) with (S i - 1) by lia.
      repeat split; [lia|]. left. split; [reflexivity|].
      eexists _, _. split; [reflexivity|]. cbn. auto.
    + cbv zeta in E. destruct (stops m new_err) eqn:St.
      * subst res. destruct m; [discriminate St|]. destruct new_err; try discriminate St.
        cbn [snd fst iterations save_full_report total_iterations final_status].
        rewrite M' by reflexivity. rewrite List.length_app, L. cbn [length].
        replace (i - 1 + 1) with (S i - 1) by lia.
        repeat split; [lia|]. left. split; [reflexivity|].
        eexists _, _. split; [reflexivity|]. cbn.
        rewrite (@blank_is_success vout verr (B eq_refl)). auto.
      * apply IH in E; [|now apply M' | lia].
        cbv zeta in E. destruct E as (E1 & E2 & E3 & E4).
        repeat split; try assumption; [lia|].
        destruct E4 as [E4|[E4 E5]]; [now left | right; split; [exact E4 | lia]].
Qed.


(** X25: a run of the main loop that reports SUCCESS ends on a clean
    iteration: its last record has the kind NONE, is marked successful,
    has a blank diagnostic stream, and its snapshot is the text the run
    returns. *)
Theorem main_loop_success_is_clean (original_code user_prompt : string)
  (max_iterations : option nat) (w w' : W) (final : string) (report : Report) :
  detect_semantic_conflicts original_code = false ->
  run_repair_loop original_code user_prompt max_iterations w = (Ok (final, report), w') ->
  final_status report = "SUCCESS"%string ->
  exists front r,
    iterations report = front ++ [r]
    /\ error_type r = Kind NONE /\ success r = true
    /\ strip (stderr r) = ""%string /\ code_snapshot r = final.
Proof.
  intros D E S. unfold run_repair_loop in E. rewrite D in E.
  apply repair_loop_shape in E; [|reflexivity | lia].
  cbv zeta in E. cbn [snd fst] in E. destruct E as (_ & _ & _ & [[_ E]|[E _]]).
  - exact E.
  - rewrite S in E. discriminate E.
Qed.

Lemma logged_by_snoc (records : list IterationRecord) (r : IterationRecord)
  (c : ChangeEntry) :
  logged_by records c -> logged_by (records ++ [r]) c.
Proof.
  intros (r0 & I & E). exists r0. split; [|exact E]. apply in_or_app. now left.
Qed.

Lemma repair_loop_log :
  forall (remaining i : nat) (user_prompt code : string)
         (reports : list IterationRecord) (log : list ChangeEntry) (w w' : W)
         (res : string * Report),
    Forall (logged_by reports) log ->
    repair_loop remaining i user_prompt code reports log w = (Ok res, w') ->
    Forall (logged_by (iterations (snd res))) (changes (snd res)).
Proof.
  induction remaining as [|remaining IH];
    intros i user_prompt code reports log w w' res F E.
  - cbn in E. injection E as <- <-. exact F.
  - apply repair_loop_step in E.
    destruct E as [(out & err & P & B & ->)
                  |(new_code & m & new_err & vout & verr & entries & w2 & T & P & B & E)].
    + cbn [snd iterations changes save_full_report].
      eapply Forall_impl; [|exact F]. intros c. apply logged_by_snoc.
    + cbv zeta in E.
      set (r := MkRecord i (method_name m) (Kind new_err)
                  (fst (Validation.validate_iteration vout verr new_err))
                  vout verr new_code) in *.
      assert (F' : Forall (logged_by (reports ++ [r])) (log ++ entries)).
      { apply Forall_app. split.
        - eapply Forall_impl; [|exact F]. intros c. apply logged_by_snoc.
        - eapply Forall_impl; [|exact T]. intros c [Ci Cm]. exists r.
          split; [apply in_or_app; right; now left|]. now split. }
      destruct (stops m new_err).
      * subst res. exact F'.
      * exact (IH _ _ _ _ _ _ _ _ F' E).
Qed.

(** X26: every entry of the change log of a run belongs to one of its
    iteration records: the report holds a record with the iteration number
    and the fix method of the entry. *)
Theorem change_log_matches_records (original_code user_prompt : string)
  (max_iterations : option nat) (w w' : W) (final : string) (report : Report) :
  run_repair_loop original_code user_prompt max_iterations w = (Ok (final, report), w') ->
  Forall (logged_by (iterations report)) (changes report).
Proof.
  unfold run_repair_loop. destruct (detect_semantic_conflicts original_code).
  - unfold semantic_prepass, Eff.bind, Eff.ret. intros E.
    destruct (LlmFixer.generate_llm_fix _ _ _ _ _ w) as [[raw|] w1]; [|discriminate].
    destruct (semantic_merge _ _ _ w1) as [[new_code|] w2]; [|discriminate].
    injection E as <- <- <-. cbn [iterations changes save_full_report].
    eapply Forall_impl; [|apply changes_of_rows_tags]. intros c [Ci Cm].
    eexists. split; [now left|]. now split.
  - intros E. apply repair_loop_log in E; [exact E | constructor].
Qed.

Lemma repair_loop_prompted :
  forall (remaining i : nat) (user_prompt code : string)
         (reports : list IterationRecord) (log : list ChangeEntry) (w w' : W)
         (res : string * Report),
    truthy (strip user_prompt) = true ->
    Forall (fun r => fix_method r = "LLM"%string) reports ->
    repair_loop remaining i user_prompt code reports log w = (Ok res, w') ->
    Forall (fun r => fix_method r = "LLM"%string) (iterations (snd res)).
Proof.
  induction remaining as [|remaining IH];
    intros i user_prompt code reports log w w' res U F E.
  - cbn in E. injection E as <- <-. exact F.
  - apply repair_loop_step in E.
    destruct E as [(out & err & P & B & ->)
                  |(new_code & m & new_err & vout & verr & entries & w2 & T & P & B & E)].
    + rewrite U in P. discriminate P.
    + cbv zeta in E. rewrite (P U) in E.
      match type of E with
      | context [reports ++ [?rec]] =>
          assert (F' : Forall (fun r => fix_method r = "LLM"%string) (reports ++ [rec]))
            by (apply Forall_app; split; [exact F | repeat constructor])
      end.
      destruct (stops LLM new_err).
      * subst res. exact F'.
      * exact (IH _ _ _ _ _ _ _ _ U F' E).
Qed.

(** X27: when the user gives instructions (a prompt that is not blank),
    every iteration of the run is handled by the model: each record of the
    report has the fix method LLM, so no iteration ends at the
    early-success check and none is fixed by the AST fixer. *)
Theorem prompted_run_uses_model (original_code user_prompt : string)
  (max_iterations : option nat) (w w' : W) (final : string) (report : Report) :
  truthy (strip user_prompt) = true ->
  run_repair_loop original_code user_prompt max_iterations w = (Ok (final, report), w') ->
  Forall (fun r => fix_method r = "LLM"%string) (iterations report).
Proof.
  intros U. unfold run_repair_loop. destruct (detect_semantic_conflicts original_code).
  - unfold semantic_prepass, Eff.bind, Eff.ret. intros E.
    destruct (LlmFixer.generate_llm_fix _ _ _ _ _ w) as [[raw|] w1]; [|discriminate].
    destruct (semantic_merge _ _ _ w1) as [[new_code|] w2]; [|discriminate].
    injection E as <- <- <-. repeat constructor.
  - intros E. apply repair_loop_prompted in E; [exact E | exact U | constructor].
Qed.

End LoopShape.

Section LoopShapeRuns.
Import PyStr ErrorTypes IterationReport IterationController Notions Scenarios.


Lemma main_loop_success_is_clean_witness :
  exists front r,
    iterations (snd (outcome list_run)) = (front ++ [r])%list
    /\ error_type r = Kind NONE /\ success r = true
    /\ strip (stderr r) = "" /\ code_snapshot r = fst (outcome list_run).
Proof.
  apply (@main_loop_success_is_clean list_python unit list_world unclosed_list "" None
           tt tt (fst (outcome list_run)) (snd (outcome list_run)) eq_refl eq_refl eq_refl).
Defined.

Lemma change_log_matches_records_witness :
  Forall (logged_by (iterations (snd (outcome list_run))))
         (changes (snd (outcome list_run))).
Proof.
  apply (@change_log_matches_records list_python unit list_world unclosed_list "" None
           tt tt (fst (outcome list_run)) (snd (outcome list_run)) eq_refl).
Defined.

Lemma prompted_run_uses_model_witness :
  Forall (fun r => fix_method r = "LLM") (iterations (snd (outcome prompted_run))).
Proof.
  apply (@prompted_run_uses_model clean_python unit printing_world clean_program
           "add a docstring" None tt tt (fst (outcome prompted_run))
           (snd (outcome prompted_run)) eq_refl eq_refl).
Defined.

End LoopShapeRuns.

(** ** What the loop receives from the merge and from the extraction *)

Section LoopInputs.
Context `{Python}.
Import PyStr MergeStrategy IterationController.

(** X28: the conservative merge (without [allow_full_rewrite]) never
    raises: the only replacement that is not guarded by a [try] belongs to
    the function-level rewrite of step 4, which the flag switches off. *)
Theorem conservative_merge_never_raises (base llm_out : string) :
  exists d r,
    merge_decide base llm_out false = Ok (d, r)
    /\ merge_llm_result base llm_out false = Ok r.
Proof.
  assert (D : exists d r, merge_decide base llm_out false = Ok (d, r)).
  { unfold merge_decide.
    destruct (negb (truthy llm_out)); [now eexists _, _|].
    destruct (_parse_ok (strip (_strip_non_code_prefix llm_out))) eqn:P.
    - split_ifs; now eexists _, _.
    - destruct (ast_parse base); [|now eexists _, _].
      rewrite (parse_ok_tree _ P). cbn [rbind].
      destruct (regex_partial_merge _ base); now eexists _, _. }
  destruct D as (d & r & D). exists d, r. split; [exact D|].
  unfold merge_llm_result. now rewrite D.
Qed.

Lemma rstrip_by_idempotent (p : ascii -> bool) (s : string) :
  rstrip_by p (rstrip_by p s) = rstrip_by p s.
Proof.
  induction s as [|c s IH]; [reflexivity|]. cbn [rstrip_by].
  destruct (rstrip_by p s) as [|d r] eqn:R.
  - destruct (p c) eqn:Pc; [reflexivity|]. cbn. now rewrite Pc.
  - cbn [rstrip_by] in *. now rewrite IH.
Qed.

Lemma lstrip_by_idempotent (p : ascii -> bool) (s : string) :
  lstrip_by p (lstrip_by p s) = lstrip_by p s.
Proof.
  induction s as [|c s IH]; [reflexivity|]. cbn [lstrip_by].
  destruct (p c) eqn:Pc; [exact IH|]. cbn. now rewrite Pc.
Qed.

Lemma rstrip_by_lstrip_by (p : ascii -> bool) (x : string) :
  rstrip_by p x = x -> rstrip_by p (lstrip_by p x) = lstrip_by p x.
Proof.
  induction x as [|c x IH]; [reflexivity|]. intros R. cbn [lstrip_by].
  destruct (p c) eqn:Pc; [|exact R].
  apply IH. cbn [rstrip_by] in R. destruct (rstrip_by p x) as [|d r].
  - rewrite Pc in R. discriminate R.
  - now injection R.
Qed.

Lemma strip_idempotent (s : string) : strip (strip s) = strip s.
Proof.
  unfold strip, lstrip, rstrip.
  rewrite rstrip_by_lstrip_by by apply rstrip_by_idempotent.
  apply lstrip_by_idempotent.
Qed.

Lemma first_window_stripped (lines : list string) :
  forall count window candidate,
    first_window count window lines = Some candidate -> strip candidate = candidate.
Proof.
  induction count as [|count IH]; intros window candidate E; cbn [first_window] in E;
    [discriminate|].
  cbv zeta in E. destruct (Re.found _ _); [|exact (IH _ _ E)].
  injection E as <-. apply strip_idempotent.
Qed.

(** X29: what [extract_code_from_llm] returns carries no leading and no
    trailing whitespace: stripping it again changes nothing. *)
Theorem extract_code_from_llm_stripped (llm : string) :
  strip (extract_code_from_llm llm) = extract_code_from_llm llm.
Proof.
  unfold extract_code_from_llm.
  destruct (negb (truthy llm)); [reflexivity|].
  destruct (Re.findall1 re_python_fence llm); [|apply strip_idempotent].
  destruct (Re.findall1 re_raw_fence llm); [|apply strip_idempotent].
  destruct (Re.findall0 re_indented_block _); [|apply strip_idempotent].
  cbv zeta. destruct (map rstrip _) as [|l ls] eqn:L; [reflexivity|].
  destruct (first_window _ _ _) as [candidate|] eqn:F.
  - exact (first_window_stripped _ _ _ F).
  - apply strip_idempotent.
Qed.

End LoopInputs.

(** ** Structural semantic repair: the candidate openers *)

Section SsrOpeners.
Import PyStr SsrFixer Notions.
Local Open Scope list_scope.

Lemma find_openers_from_spec (lines : list string) :
  forall base,
    ascending base (map (fun e => fst (fst e)) (find_openers_from base lines))
    /\ forall idx pos ch,
         In (idx, pos, ch) (find_openers_from base lines)
         <-> base <= idx
             /\ exists ln, nth_error lines (idx - base) = Some ln
                           /\ _first_unclosed_opener_in_line ln = Some (pos, ch).
Proof.
  induction lines as [|ln lines IH]; intros base.
  - split; [exact I|]. intros idx pos ch. cbn [find_openers_from In]. split; [intros []|].
    intros (_ & l & N & _). destruct (idx - base); discriminate N.
  - destruct (IH (S base)) as [A Sp]. cbn [find_openers_from].
    assert (Later : forall idx pos ch,
               (S base <= idx
                /\ exists l, nth_error lines (idx - S base) = Some l
                             /\ _first_unclosed_opener_in_line l = Some (pos, ch))
               <-> (base <= idx /\ idx <> base
                    /\ exists l, nth_error (ln :: lines) (idx - base) = Some l
                                 /\ _first_unclosed_opener_in_line l = Some (pos, ch))).
    { intros idx pos ch. split.
      - intros (B & l & N & F). split; [lia|]. split; [lia|]. exists l. split; [|exact F].
        replace (idx - base) with (S (idx - S base)) by lia. exact N.
      - intros (B & D & l & N & F). split; [lia|]. exists l. split; [|exact F].
        replace (idx - base) with (S (idx - S base)) in N by lia. exact N. }
    destruct (_first_unclosed_opener_in_line ln) as [[p c]|] eqn:F.
    + split; [cbn; split; [lia | exact A]|].
      intros idx pos ch. cbn [In]. rewrite Sp, Later. split.
      * intros [E|(B & D & X)].
        -- injection E as <- <- <-. split; [lia|]. exists ln.
           rewrite Nat.sub_diag. now split.
        -- now split.
      * intros (B & l & N & Fl). destruct (Nat.eq_dec idx base) as [->|D].
        -- left. rewrite Nat.sub_diag in N. injection N as <-. congruence.
        -- right. split; [exact B|]. split; [exact D|]. now exists l.
    + split.
      * clear -A. revert A. generalize (map (fun e => fst (fst e))
                                          (find_openers_from (S base) lines)).
        intros l. destruct l as [|x r]; [auto|]. cbn. intros [L R]. split; [lia | exact R].
      * intros idx pos ch. rewrite Sp, Later. split.
        -- intros (B & D & X). now split.
        -- intros (B & l & N & Fl). split; [exact B|].
           destruct (Nat.eq_dec idx base) as [->|D].
           ++ rewrite Nat.sub_diag in N. injection N as <-. congruence.
           ++ split; [exact D|]. now exists l.
Qed.

(** X30: [_find_last_openers] lists exactly the lines that hold an opener
    left unclosed on the line itself, each with the position and the
    character of its first such opener, and lists them in line order; so
    the sort by line index that [apply_ssr_fix] applies changes nothing. *)
Theorem find_last_openers_in_line_order (lines : list string) :
  ascending 0 (map (fun e => fst (fst e)) (_find_last_openers lines))
  /\ forall idx pos ch,
       In (idx, pos, ch) (_find_last_openers lines)
       <-> exists ln, nth_error lines idx = Some ln
                      /\ _first_unclosed_opener_in_line ln = Some (pos, ch).
Proof.
  destruct (find_openers_from_spec lines 0) as [A Sp]. split; [exact A|].
  intros idx pos ch. unfold _find_last_openers. rewrite Sp, Nat.sub_0_r. split.
  - now intros [_ X].
  - intros X. split; [lia | exact X].
Qed.

End SsrOpeners.

(** ** The structured fixer on a source it has no reason to touch *)

Section RegexFacts.
Import PyStr Re Notions.
Local Open Scope list_scope.
















End RegexFacts.

Section HealthySource.
Context `{Python}.
Import PyStr AstRules AstFixer Notions.
Local Open Scope list_scope.






End HealthySource.

